(** * Lexical model compiler: the build pipeline of [src/tools/index.ts]

    A shallow embedding of [LexicalModelCompiler.compile] and of the
    regular expressions, path handling and manifest merge it performs,
    followed by the properties of the pipeline.

    Conventions.  A JavaScript string is a [string]; one character stands for
    one code unit.  Of the four line terminators that the regular expression
    atom [.] refuses, the two that fit in a character are LF and CR.  Objects
    that the code shares by reference live in a heap; the file system, the
    error channel and the list of files written form the rest of the state. *)

From Stdlib Require Import String Ascii List ZArith Lia Bool DecimalString.
From stdpp Require Import base option gmap strings list.

Local Open Scope string_scope.
Local Open Scope Z_scope.

(** ** Strings *)

(** [Array.prototype.join] on an array of strings. *)
Fixpoint join (sep : string) (l : list string) : string :=
  match l with
  | [] => ""
  | [x] => x
  | x :: rest => x +:+ sep +:+ join sep rest
  end.

(** [String.prototype.split] with a separator of one character: the pieces
    between the occurrences of the separator, empty pieces included. *)
Fixpoint split (sep : ascii) (s : string) : list string :=
  match s with
  | "" => [""]
  | String c s' =>
      if Ascii.eqb c sep then "" :: split sep s'
      else match split sep s' with
           | [] => [String c ""]
           | p :: ps => String c p :: ps
           end
  end.

(** What a template literal or [+] shows for a possibly missing string. *)
Definition show (o : option string) : string :=
  match o with Some s => s | None => "undefined" end.

(** ** Regular expressions

    The expressions of the source are anchored at the end of the input and
    use classes, literals, [*] and [+] only; matching is by derivatives. *)

Module Regex.

Inductive re : Type :=
| Void
| Eps
| Cls (p : ascii -> bool)
| Seq (r1 r2 : re)
| Alt (r1 r2 : re)
| Star (r : re).

Fixpoint nullable (r : re) : bool :=
  match r with
  | Void => false
  | Eps => true
  | Cls _ => false
  | Seq r1 r2 => nullable r1 && nullable r2
  | Alt r1 r2 => nullable r1 || nullable r2
  | Star _ => true
  end.

Fixpoint deriv (c : ascii) (r : re) : re :=
  match r with
  | Void => Void
  | Eps => Void
  | Cls p => if p c then Eps else Void
  | Seq r1 r2 =>
      if nullable r1
      then Alt (Seq (deriv c r1) r2) (deriv c r2)
      else Seq (deriv c r1) r2
  | Alt r1 r2 => Alt (deriv c r1) (deriv c r2)
  | Star r0 => Seq (deriv c r0) (Star r0)
  end.

(** The whole input matches [r]: the expression [/^r$/]. *)
Fixpoint full_match (r : re) (s : string) : bool :=
  match s with
  | "" => nullable r
  | String c s' => full_match (deriv c r) s'
  end.

Definition any : re := Cls (fun _ => true).
Definition plus (r : re) : re := Seq r (Star r).

Fixpoint lit (s : string) : re :=
  match s with
  | "" => Eps
  | String c s' => Seq (Cls (Ascii.eqb c)) (lit s')
  end.

(** A match that may start anywhere and must end with the input: the
    expression [/r$/] without flags. *)
Definition search_to_end (r : re) (s : string) : bool :=
  full_match (Seq (Star any) r) s.

(** Group 1 of [/^(r1)r2$/] for a greedy [r1]: the longest prefix in [r1]
    whose remainder is in [r2]; [None] when the expression does not match. *)
Fixpoint greedy_split (r1 r2 : re) (s : string) : option (string * string) :=
  match s with
  | "" => if nullable r1 && nullable r2 then Some ("", "") else None
  | String c s' =>
      match greedy_split (deriv c r1) r2 s' with
      | Some (p, q) => Some (String c p, q)
      | None => if nullable r1 && full_match r2 s then Some ("", s) else None
      end
  end.

(** The language of an expression, the reference for [full_match]. *)
Inductive matches : re -> string -> Prop :=
| MEps : matches Eps ""
| MCls p c : p c = true -> matches (Cls p) (String c "")
| MSeq r1 r2 s1 s2 : matches r1 s1 -> matches r2 s2 -> matches (Seq r1 r2) (s1 +:+ s2)
| MAltL r1 r2 s : matches r1 s -> matches (Alt r1 r2) s
| MAltR r1 r2 s : matches r2 s -> matches (Alt r1 r2) s
| MStar0 r : matches (Star r) ""
| MStarS r s1 s2 : matches r s1 -> matches (Star r) s2 -> matches (Star r) (s1 +:+ s2).

End Regex.

Import Regex.

Definition LF : ascii := "010"%char.
Definition CR : ascii := "013"%char.
Definition nl : string := String LF "".

Definition in_range (lo hi c : ascii) : bool :=
  ((nat_of_ascii lo <=? nat_of_ascii c) && (nat_of_ascii c <=? nat_of_ascii hi))%nat.

(** [[a-z_]] and [[a-z0-9_]]. *)
Definition id_start (c : ascii) : bool :=
  in_range "a" "z" c || Ascii.eqb c "_".
Definition id_part (c : ascii) : bool :=
  in_range "a" "z" c || in_range "0" "9" c || Ascii.eqb c "_".

(** The atom [.]: any character but a line terminator. *)
Definition dot_char (c : ascii) : bool :=
  negb (Ascii.eqb c LF) && negb (Ascii.eqb c CR).
Definition dot : re := Cls dot_char.

Definition segment : re := Seq (Cls id_start) (Star (Cls id_part)).

(** [/^[a-z_][a-z0-9_]*\.[a-z_][a-z0-9_]*\.[a-z_][a-z0-9_]*$/] *)
Definition MODEL_ID_PATTERN : re :=
  Seq segment (Seq (lit ".") (Seq segment (Seq (lit ".") segment))).

(** [/\.model_info$/] *)
Definition is_model_info (f : string) : bool :=
  search_to_end (lit ".model_info") f.

(** [f.match(/^(.+)\.model_info$/)]: group 1, or [None] for [null]. *)
Definition model_info_stem (f : string) : option string :=
  fst <$> greedy_split (plus dot) (lit ".model_info") f.

(** [/.[ot]tf$/i] *)
Definition one_of (cs : list ascii) (c : ascii) : bool :=
  existsb (Ascii.eqb c) cs.
Definition font_pattern : re :=
  Seq dot (Seq (Cls (one_of ["o"; "t"; "O"; "T"]%char))
          (Seq (Cls (one_of ["t"; "T"]%char)) (Cls (one_of ["f"; "F"]%char)))).
Definition is_font (name : string) : bool := search_to_end font_pattern name.

(** ** Data model *)

Definition loc := nat.

(** Modelled from the spec: the declarations of [lexical-model.ts] are not
    among the sources.  The word-breaking sub-descriptor has its own source
    list, a root class, and further configuration, which is kept as the list
    of its remaining properties.  It is an object, held by reference. *)
Record WordBreaking := {
  wb_sources : option (list string);
  wb_rootClass : option string;
  wb_config : list (string * string)
}.

(** Modelled from the spec: [LexicalModelSource] of [lexical-model.ts], the
    author's description; [wordBreaking] is a reference into the heap. *)
Record LexicalModelSource := {
  format : string;
  sources : list string;
  rootClass : option string;
  wordBreaking : option loc
}.

(** Modelled from the spec: [LexicalModelCompiled] (and its [fst] extension)
    of [lexical-model.ts]. *)
Record LexicalModelCompiled := {
  oc_id : string;
  oc_format : string;
  oc_wordBreaking : option loc;
  oc_fst : option string
}.

(** The value of the [languages] field: the author writes a list of tags; the
    merge computes one list of tags for each model of the package. *)
Inductive Languages :=
| LanguageIds (ids : list string)
| LanguageGroups (groups : list (list string)).

(** Modelled from the spec: [ModelInfoFile] of [model-info-file.ts], every
    field optional. *)
Record ModelInfoFile := {
  mi_id : option string;
  mi_name : option string;
  mi_license : option string;
  mi_version : option string;
  mi_languages : option Languages;
  mi_authorName : option string;
  mi_authorEmail : option string;
  mi_description : option string;
  mi_lastModifiedDate : option string;
  mi_packageFilename : option string;
  mi_packageFileSize : option Z;
  mi_jsFilename : option string;
  mi_jsFileSize : option Z;
  mi_packageIncludes : option (list string);
  mi_minKeymanVersion : option string;
  mi_sourcePath : option string
}.

(** Modelled from the spec: the package descriptor of [kmp-compiler.ts], as
    far as [compile] reads it: [info.name.description],
    [info.author.description], [info.author.url], [info.version.description],
    the language ids of each lexical model, and the names of the files. *)
Record KmpJsonFile := {
  info_name : string;
  info_author : string;
  info_author_url : option string;
  info_version : string;
  lexicalModels : list (list string);
  kmp_files : list string
}.

(** The collaborators and library functions that [compile] calls. *)
Record Env := {
  (** [ts.transpileModule(source, ...).outputText] *)
  transpile : string -> string;
  (** [createTrieDataStructure] of [build-trie.ts]; [None] when it raises *)
  createTrieDataStructure : list string -> option string;
  (** [KmpCompiler.transformKpsToKmpObject]; [None] when it raises *)
  transformKpsToKmpObject : string -> string -> option KmpJsonFile;
  (** the bytes that [KmpCompiler.buildKmpFile] writes *)
  kmp_archive : KmpJsonFile -> string;
  (** [JSON.parse] at type [ModelInfoFile]; [None] when it raises *)
  JSON_parse : string -> option ModelInfoFile;
  (** [JSON.stringify(model_info, null, 2)] *)
  JSON_stringify : ModelInfoFile -> string;
  (** [JSON.stringify(oc.wordBreaking)] *)
  JSON_stringify_wb : WordBreaking -> string;
  (** [Buffer.from(s).toString('base64')] *)
  base64 : string -> string;
  (** the UTF-8 codec of [fs.writeFileSync] and [fs.readFileSync] *)
  utf8_encode : string -> string;
  utf8_decode : string -> string;
  path_sep : ascii;
  path_join : string -> string -> string
}.

(** A call that wrote a file. *)
Inductive Written :=
| WroteText (name text : string)
| WroteArchive (name : string) (data : KmpJsonFile).

(** The state of a run: the process, the disk, the clock, the heap of shared
    objects, the error channel, and the files written so far.  The disk maps a
    path, as the code passes it to [fs], to the bytes of the file; a read of a
    path that is not there raises, a write always goes through.  Paths are
    not resolved: two spellings of one file are two keys, so the properties
    speak of files under the paths that [compile] itself spells, and of the
    writing calls as they are recorded in [written]. *)
Record World := {
  cwd : string;
  parent_dir : list string;
  files : gmap string string;
  now : string;
  heap : gmap loc WordBreaking;
  stderr : list string;
  written : list Written
}.

Definition set_files (f : gmap string string) (w : World) : World :=
  {| cwd := cwd w; parent_dir := parent_dir w; files := f; now := now w;
     heap := heap w; stderr := stderr w; written := written w |}.
Definition set_heap (h : gmap loc WordBreaking) (w : World) : World :=
  {| cwd := cwd w; parent_dir := parent_dir w; files := files w; now := now w;
     heap := h; stderr := stderr w; written := written w |}.
Definition set_stderr (e : list string) (w : World) : World :=
  {| cwd := cwd w; parent_dir := parent_dir w; files := files w; now := now w;
     heap := heap w; stderr := e; written := written w |}.
Definition set_written (l : list Written) (w : World) : World :=
  {| cwd := cwd w; parent_dir := parent_dir w; files := files w; now := now w;
     heap := heap w; stderr := stderr w; written := l |}.

(** ** The monad of [compile]: state, [return false], and exceptions *)

Inductive Exn :=
| TypeError
| ENOENT (path : string)
| SyntaxError
| CollaboratorError.

Inductive Outcome (A : Type) :=
| Value (a : A)
| ReturnedFalse
| Thrown (e : Exn).
Arguments Value {A} a.
Arguments ReturnedFalse {A}.
Arguments Thrown {A} e.

Definition M (A : Type) : Type := World -> Outcome A * World.

Definition ret {A} (a : A) : M A := fun w => (Value a, w).
Definition bind {A B} (m : M A) (k : A -> M B) : M B :=
  fun w =>
    match m w with
    | (Value a, w') => k a w'
    | (ReturnedFalse, w') => (ReturnedFalse, w')
    | (Thrown e, w') => (Thrown e, w')
    end.
Definition return_false {A} : M A := fun w => (ReturnedFalse, w).
Definition throw {A} (e : Exn) : M A := fun w => (Thrown e, w).

Notation "'let*' x ':=' m 'in' k" := (bind m (fun x => k))
  (at level 10, x name, m at level 100, k at level 200).

Fixpoint mapM {A B} (f : A -> M B) (l : list A) : M (list B) :=
  match l with
  | [] => ret []
  | x :: rest =>
      let* y := f x in
      let* ys := mapM f rest in
      ret (y :: ys)
  end.

Definition lift {A} (e : Exn) (o : option A) : M A :=
  match o with Some a => ret a | None => throw e end.

(** ** The platform: [fs], [process], [console], [Date] and the heap *)

Section Pipeline.

Variable E : Env.

Definition readdirSync_parent : M (list string) :=
  fun w => (Value (parent_dir w), w).

Definition readFileSync (path : string) : M string :=
  fun w =>
    match files w !! path with
    | Some bytes => (Value (utf8_decode E bytes), w)
    | None => (Thrown (ENOENT path), w)
    end.

Definition writeFileSync (path text : string) : M unit :=
  fun w =>
    (Value tt,
     set_written (written w ++ [WroteText path text])
       (set_files (<[path := utf8_encode E text]> (files w)) w)).

(** [fs.statSync(path).size] *)
Definition statSync_size (path : string) : M Z :=
  fun w =>
    match files w !! path with
    | Some bytes => (Value (Z.of_nat (String.length bytes)), w)
    | None => (Thrown (ENOENT path), w)
    end.

Definition process_cwd : M string := fun w => (Value (cwd w), w).

(** [(new Date).toISOString()] *)
Definition Date_toISOString : M string := fun w => (Value (now w), w).

(** [logError]: the message goes to the error channel (its colour is not
    modelled). *)
Definition logError (s : string) : M unit :=
  fun w => (Value tt, set_stderr (stderr w ++ [s]) w).

(** Reading the object behind a reference. *)
Definition deref (l : loc) : M WordBreaking :=
  fun w =>
    match heap w !! l with
    | Some o => (Value o, w)
    | None => (Thrown TypeError, w)
    end.

(** [delete o.sources] on the object behind a reference. *)
Definition without_sources (o : WordBreaking) : WordBreaking :=
  {| wb_sources := None; wb_rootClass := wb_rootClass o; wb_config := wb_config o |}.
Definition delete_sources (l : loc) : M unit :=
  fun w =>
    match heap w !! l with
    | Some o => (Value tt, set_heap (<[l := without_sources o]> (heap w)) w)
    | None => (Thrown TypeError, w)
    end.

(** [KmpCompiler.buildKmpFile(data, name)] *)
Definition buildKmpFile (data : KmpJsonFile) (name : string) : M unit :=
  fun w =>
    (Value tt,
     set_written (written w ++ [WroteArchive name data])
       (set_files (<[name := kmp_archive E data]> (files w)) w)).

(** ** Truthiness and [||] *)

Definition truthy (o : option string) : bool :=
  match o with
  | Some s => negb (s =? "")%string
  | None => false
  end.

(** [a || b] for an optional string [a] and a string [b]. *)
Definition or_string (a : option string) (b : string) : string :=
  match a with
  | Some s => if (s =? "")%string then b else s
  | None => b
  end.

(** [a || b] when [b] may be missing as well. *)
Definition or_option (a b : option string) : option string :=
  if truthy a then a else b.

(** ** [LexicalModelCompiler] *)

(** [transpileSources], lines 199-204. *)
Definition transpileSources (sources : list string) : list string :=
  map (transpile E) sources.

Definition sourcePath : string := "../source".
Definition minKeymanVersion : string := "12.0".

Definition filePrefix : string := "(function() {" +:+ nl +:+ "'use strict';" +:+ nl.
Definition funcPrefix : string := "com.keyman.lexicalModel.register(".
Definition funcSuffix : string := ");".
Definition fileSuffix : string := "})();".

Definition invalid_id_message (model_id : string) : string :=
  "The model identifier '" +:+ model_id +:+ "' is invalid." +:+ nl +:+
  "Must be a valid alphanumeric identifier in format (author).(bcp_47).(uniq)." +:+ nl +:+
  "bcp_47 should be underscore (_) separated.".

Definition not_found_message : string :=
  "Unable to find .model_info file in parent folder".

Definition path_message (paths : list string) (model_id : string) : string :=
  "Unexpected model path " +:+ show (paths !! 2%nat) +:+ "." +:+ show (paths !! 1%nat) +:+
  ", does not match model id " +:+ model_id.

(** Lines 23-29: the info file of the parent folder.  A name that [find]
    returns ends in [.model_info] and is not empty, so [!model_info_file] holds
    for [undefined] only. *)
Definition findModelInfoFile : M string :=
  let* files := readdirSync_parent in
  match List.find is_model_info files with
  | None =>
      let* _ := logError not_found_message in
      return_false
  | Some model_info_file => ret model_info_file
  end.

(** Lines 31-38: the identifier; [null[1]] raises a [TypeError]. *)
Definition modelId (model_info_file : string) : M string :=
  let* model_id := lift TypeError (model_info_stem model_info_file) in
  if negb (full_match MODEL_ID_PATTERN model_id) then
    let* _ := logError (invalid_id_message model_id) in
    return_false
  else ret model_id.

(** Line 56. *)
Definition loadModelInfo (model_info_file : string) : M ModelInfoFile :=
  let* text := readFileSync ("../" +:+ model_info_file) in
  lift SyntaxError (JSON_parse E text).

(** Line 79: the condition under which the path is refused. *)
Definition path_mismatch (paths : list string) (model_id : string) : bool :=
  (length paths <? 4)%nat
  || negb (bool_decide (paths !! 0%nat = Some "build"))
  || negb (model_id =? show (paths !! 2%nat) +:+ "." +:+ show (paths !! 1%nat))%string.

(** Lines 78-90: the folders of the working directory, innermost first. *)
Definition checkModelPath (model_id : string) : M (list string) :=
  let* dir := process_cwd in
  let paths := rev (split (path_sep E) dir) in
  if path_mismatch paths model_id then
    let* _ := logError (path_message paths model_id) in
    return_false
  else ret paths.

(** Lines 96-98. *)
Definition readSources (names : list string) : M (list string) :=
  mapM (fun source => readFileSync (path_join E sourcePath source)) names.

Definition with_fst (oc : LexicalModelCompiled) (data : string) : LexicalModelCompiled :=
  {| oc_id := oc_id oc; oc_format := oc_format oc;
     oc_wordBreaking := oc_wordBreaking oc; oc_fst := Some data |}.

(** Lines 113-131: the switch on the format; the result is [func]. *)
Definition emitModel (modelSource : LexicalModelSource) (oc : LexicalModelCompiled)
    (sources : list string) (func : string) : M string :=
  if (format modelSource =? "custom-1.0")%string then
    let func := func +:+ (funcPrefix +:+ funcSuffix +:+ nl +:+ join nl (transpileSources sources)) in
    ret (func +:+ ("LMLayerWorker.loadModel(new " +:+ show (rootClass modelSource) +:+ "());" +:+ nl))
  else if (format modelSource =? "fst-foma-1.0")%string then
    let oc := with_fst oc (base64 E (join "" sources)) in
    let* _ := logError ("Unimplemented model format " +:+ format modelSource) in
    return_false
  else if (format modelSource =? "trie-1.0")%string then
    let func := func +:+ ("var model = {};" +:+ nl) in
    let* trie := lift CollaboratorError (createTrieDataStructure E sources) in
    let func := func +:+ ("model.backingData = " +:+ trie +:+ ";" +:+ nl) in
    ret (func +:+ ("LMLayerWorker.loadModel(new models.WordListModel(model.backingData));" +:+ nl))
  else
    let* _ := logError ("Unknown model format " +:+ format modelSource) in
    return_false.

(** Lines 137-156: the word breaker. *)
Definition emitWordBreaker (modelSource : LexicalModelSource) (oc : LexicalModelCompiled)
    (func : string) : M string :=
  match wordBreaking modelSource with
  | None => ret func
  | Some l =>
      let* wb := deref l in
      let* wordBreakingSource :=
        match wb_sources wb with
        | Some names =>
            let* wordBreakingSources := readSources names in
            let text := join nl (transpileSources wordBreakingSources) in
            let* _ :=
              match oc_wordBreaking oc with
              | Some l' => delete_sources l'
              | None => throw TypeError
              end in
            ret (Some text)
        | None => ret None
        end in
      if truthy wordBreakingSource then
        let func := func +:+ (nl +:+ show wordBreakingSource +:+ nl) in
        let* wb := deref l in
        ret (func +:+ ("LMLayerWorker.loadWordBreaker(new " +:+ show (wb_rootClass wb) +:+ "());" +:+ nl))
      else
        let* config :=
          match oc_wordBreaking oc with
          | Some l' => let* o := deref l' in ret (JSON_stringify_wb E o)
          | None => ret "undefined"
          end in
        ret (func +:+ ("LMLayerWorker.loadWordBreaker(new DefaultWordBreaker(" +:+
                       config +:+ "));" +:+ nl))
  end.

(** Lines 168-171: the package. *)
Definition buildPackage (model_id kpsFileName kmpFileName : string) : M KmpJsonFile :=
  let* kpsString := readFileSync kpsFileName in
  let* kmpJsonData := lift CollaboratorError (transformKpsToKmpObject E model_id kpsString) in
  let* _ := buildKmpFile kmpJsonData kmpFileName in
  ret kmpJsonData.

(** Line 190. *)
Definition packageIncludes (kmpJsonData : KmpJsonFile) : list string :=
  if (0 <? length (List.filter is_font (kmp_files kmpJsonData)))%nat
  then ["fonts"] else [].

(** Line 194: [[groupPath, authorPath, bcp47Path].join('/')]; a missing
    element joins as the empty string. *)
Definition joined_path (paths : list string) : string :=
  join "/" (map (from_option (fun s => s) "")
              [paths !! 3%nat; paths !! 2%nat; paths !! 1%nat]).

(** Lines 180-194, the assignments: the manifest after the merge, given the
    time and the two sizes read from the disk. *)
Definition merged (model_id kmpFileName modelFileName : string)
    (kmpJsonData : KmpJsonFile) (paths : list string)
    (date : string) (packageFileSize jsFileSize : Z)
    (model_info : ModelInfoFile) : ModelInfoFile :=
  {| mi_id := Some model_id;
     mi_name := Some (or_string (mi_name model_info) (info_name kmpJsonData));
     mi_authorName :=
       Some (or_string (mi_authorName model_info) (info_author kmpJsonData));
     mi_authorEmail :=
       or_option (mi_authorEmail model_info) (info_author_url kmpJsonData);
     mi_languages :=
       match mi_languages model_info with
       | Some l => Some l
       | None => Some (LanguageGroups (lexicalModels kmpJsonData))
       end;
     mi_lastModifiedDate := Some (or_string (mi_lastModifiedDate model_info) date);
     mi_packageFilename := Some (or_string (mi_packageFilename model_info) kmpFileName);
     mi_packageFileSize := Some packageFileSize;
     mi_jsFilename := Some (or_string (mi_jsFilename model_info) modelFileName);
     mi_jsFileSize := Some jsFileSize;
     mi_packageIncludes := Some (packageIncludes kmpJsonData);
     mi_version := Some (or_string (mi_version model_info) (info_version kmpJsonData));
     mi_minKeymanVersion :=
       Some (or_string (mi_minKeymanVersion model_info) minKeymanVersion);
     mi_sourcePath := Some (or_string (mi_sourcePath model_info) (joined_path paths));
     mi_license := mi_license model_info;
     mi_description := mi_description model_info |}.

(** Lines 180-194: the merge of the manifest.  The clock is read at line
    185, the size of the package at line 187 and the size of the script at
    line 189, each under the file name that the manifest has by then. *)
Definition mergeModelInfo (model_id kmpFileName modelFileName : string)
    (kmpJsonData : KmpJsonFile) (paths : list string)
    (model_info : ModelInfoFile) : M ModelInfoFile :=
  let* date := Date_toISOString in
  let* packageFileSize :=
    statSync_size (or_string (mi_packageFilename model_info) kmpFileName) in
  let* jsFileSize :=
    statSync_size (or_string (mi_jsFilename model_info) modelFileName) in
  ret (merged model_id kmpFileName modelFileName kmpJsonData paths
         date packageFileSize jsFileSize model_info).

(** Lines 23-98: everything before the first character of the script is
    produced: the identifier, the manifest of the author, the folders of the
    working directory and the texts of the sources. *)
Definition prepare (modelSource : LexicalModelSource)
  : M (string * ModelInfoFile * list string * list string) :=
  let* model_info_file := findModelInfoFile in
  let* model_id := modelId model_info_file in
  let* model_info := loadModelInfo model_info_file in
  let* paths := checkModelPath model_id in
  let* sources := readSources (sources modelSource) in
  ret (model_id, model_info, paths, sources).

(** Lines 100-158: the text of the script. *)
Definition emit (modelSource : LexicalModelSource) (model_id : string)
    (sources : list string) : M string :=
  let oc := {| oc_id := model_id; oc_format := format modelSource;
               oc_wordBreaking := wordBreaking modelSource; oc_fst := None |} in
  let func := filePrefix in
  let* func := emitModel modelSource oc sources func in
  let* func := emitWordBreaker modelSource oc func in
  ret (func +:+ fileSuffix).

(** Lines 162-196: the script, the package and the manifest are written. *)
Definition publish (model_id : string) (model_info : ModelInfoFile)
    (paths : list string) (func : string) : M unit :=
  let kpsFileName := "../source/" +:+ model_id +:+ ".model.kps" in
  let kmpFileName := model_id +:+ ".model.kmp" in
  let modelFileName := model_id +:+ ".model.js" in
  let modelInfoFileName := model_id +:+ ".model_info" in
  let* _ := writeFileSync modelFileName func in
  let* kmpJsonData := buildPackage model_id kpsFileName kmpFileName in
  let* model_info :=
    mergeModelInfo model_id kmpFileName modelFileName kmpJsonData paths model_info in
  writeFileSync modelInfoFileName (JSON_stringify E model_info).

(** [compile], lines 19-197.  [Value tt] is the plain return at the end,
    [ReturnedFalse] is [return false], [Thrown] an exception that escapes. *)
Definition compile (modelSource : LexicalModelSource) : M unit :=
  let* r := prepare modelSource in
  let '(model_id, model_info, paths, sources) := r in
  let* func := emit modelSource model_id sources in
  publish model_id model_info paths func.

End Pipeline.

(** ** Vocabulary of the properties *)

Definition ends_with (s suffix : string) : Prop := exists p, s = p +:+ suffix.

Fixpoint all_chars (p : ascii -> bool) (s : string) : bool :=
  match s with
  | "" => true
  | String c s' => p c && all_chars p s'
  end.

(** One segment of an identifier: a lowercase letter or underscore, then
    lowercase letters, digits and underscores. *)
Definition is_segment (s : string) : Prop :=
  exists c t, s = String c t /\ id_start c = true /\ all_chars id_part t = true.

(** The shape [author.bcp47.uniq], in the words of the specification. *)
Definition id_shape (s : string) : Prop :=
  exists a b c,
    s = a +:+ "." +:+ b +:+ "." +:+ c /\ is_segment a /\ is_segment b /\ is_segment c.

(** The structural check on the folders of the working directory, innermost
    first, in the words of the specification. *)
Definition path_fits (paths : list string) (model_id : string) : Prop :=
  (4 <= length paths)%nat /\
  paths !! 0%nat = Some "build" /\
  exists author lang,
    paths !! 2%nat = Some author /\ paths !! 1%nat = Some lang /\
    model_id = author +:+ "." +:+ lang.

(** The size of a file on disk, in bytes. *)
Definition size_on (disk : gmap string string) (name : string) : option Z :=
  (fun bytes => Z.of_nat (String.length bytes)) <$> disk !! name.
Definition file_size (w : World) (name : string) : option Z :=
  size_on (files w) name.

(** The fields that the merge fills only when the author left them blank,
    and the two it never touches, are in [merged] what they are in [info]. *)
Definition author_values_kept (info merged : ModelInfoFile) : Prop :=
  (truthy (mi_name info) = true -> mi_name merged = mi_name info) /\
  (truthy (mi_authorName info) = true -> mi_authorName merged = mi_authorName info) /\
  (truthy (mi_authorEmail info) = true -> mi_authorEmail merged = mi_authorEmail info) /\
  (is_Some (mi_languages info) -> mi_languages merged = mi_languages info) /\
  (truthy (mi_lastModifiedDate info) = true ->
   mi_lastModifiedDate merged = mi_lastModifiedDate info) /\
  (truthy (mi_packageFilename info) = true ->
   mi_packageFilename merged = mi_packageFilename info) /\
  (truthy (mi_jsFilename info) = true -> mi_jsFilename merged = mi_jsFilename info) /\
  (truthy (mi_version info) = true -> mi_version merged = mi_version info) /\
  (truthy (mi_minKeymanVersion info) = true ->
   mi_minKeymanVersion merged = mi_minKeymanVersion info) /\
  (truthy (mi_sourcePath info) = true -> mi_sourcePath merged = mi_sourcePath info) /\
  mi_license merged = mi_license info /\
  mi_description merged = mi_description info.

(** What the author's description says, read through the heap. *)
Record Description := {
  d_format : string;
  d_sources : list string;
  d_rootClass : option string;
  d_wordBreaking : option WordBreaking
}.

Definition describe (h : gmap loc WordBreaking) (modelSource : LexicalModelSource)
  : Description :=
  {| d_format := format modelSource;
     d_sources := sources modelSource;
     d_rootClass := rootClass modelSource;
     d_wordBreaking := l ← wordBreaking modelSource; h !! l |}.

(** Two states that differ at most in the error channel. *)
Definition logs_only (w w' : World) : Prop := w' = set_stderr (stderr w') w.

(** Two states with the same disk and the same list of files written. *)
Definition same_disk (w w' : World) : Prop :=
  files w' = files w /\ written w' = written w.

(** Two states with the same heap. *)
Definition same_heap (w w' : World) : Prop := heap w' = heap w.

(** A computation that keeps the relation [R] between the state it starts in
    and the state it ends in, whatever its outcome. *)
Definition keeps (R : World -> World -> Prop) {A} (m : M A) : Prop :=
  forall w, R w (snd (m w)).

(** A computation that leaves the state as it was when it yields a value. *)
Definition silent {A} (m : M A) : Prop :=
  forall w a w', m w = (Value a, w') -> w' = w.

(** An entry of the list of files written that is not the script of [id]. *)
Definition not_the_script (id : string) (e : Written) : Prop :=
  forall text, e <> WroteText (id +:+ ".model.js") text.

(** The text of a source, as [readFileSync] gives it. *)
Definition source_text (E : Env) (w : World) (name text : string) : Prop :=
  exists bytes,
    files w !! path_join E sourcePath name = Some bytes /\ text = utf8_decode E bytes.

(** A manifest in which every field is filled in. *)
Definition fully_populated (m : ModelInfoFile) : Prop :=
  truthy (mi_id m) = true /\ truthy (mi_name m) = true /\
  truthy (mi_license m) = true /\ truthy (mi_version m) = true /\
  is_Some (mi_languages m) /\ truthy (mi_authorName m) = true /\
  truthy (mi_authorEmail m) = true /\ truthy (mi_description m) = true /\
  truthy (mi_lastModifiedDate m) = true /\ truthy (mi_packageFilename m) = true /\
  is_Some (mi_packageFileSize m) /\ truthy (mi_jsFilename m) = true /\
  is_Some (mi_jsFileSize m) /\ is_Some (mi_packageIncludes m) /\
  truthy (mi_minKeymanVersion m) = true /\ truthy (mi_sourcePath m) = true.

(** A manifest whose identifier, included assets and sizes are those of the
    build at hand: the identifier of the model, the assets of the package, and
    the sizes on disk of the files that it names. *)
Definition records_build (id : string) (kmp : KmpJsonFile) (w : World)
    (m : ModelInfoFile) : Prop :=
  mi_id m = Some id /\
  mi_packageIncludes m = Some (packageIncludes kmp) /\
  (exists package,
     mi_packageFilename m = Some package /\
     mi_packageFileSize m = file_size w package) /\
  (exists js,
     mi_jsFilename m = Some js /\ mi_jsFileSize m = file_size w js).

(** ** A concrete build

    The scenario of the specification: the model [demo.en.sample], built in
    [release/demo/en.sample/build].  The collaborators are small stand-ins. *)

Module Demo.

Definition blank_info : ModelInfoFile :=
  {| mi_id := None; mi_name := None; mi_license := None; mi_version := None;
     mi_languages := None; mi_authorName := None; mi_authorEmail := None;
     mi_description := None; mi_lastModifiedDate := None;
     mi_packageFilename := None; mi_packageFileSize := None;
     mi_jsFilename := None; mi_jsFileSize := None;
     mi_packageIncludes := None; mi_minKeymanVersion := None;
     mi_sourcePath := None |}.

Definition package : KmpJsonFile :=
  {| info_name := "Demo model"; info_author := "Demo Author";
     info_author_url := Some "mailto:nobody@example.com";
     info_version := "1.0.0";
     lexicalModels := [["en"]];
     kmp_files := ["demo.en.sample.model.js"] |}.

(** A stand-in for [JSON.stringify]: every field of the manifest, one after
    the other; a missing field prints as [-]. *)
Definition text (o : option string) : string :=
  match o with Some s => s | None => "-" end.
Definition number (o : option Z) : string :=
  match o with
  | Some z => NilZero.string_of_int (Z.to_int z)
  | None => "-"
  end.
Definition array (o : option (list string)) : string :=
  match o with Some l => "[" +:+ join "," l +:+ "]" | None => "-" end.
Definition languages (o : option Languages) : string :=
  match o with
  | Some (LanguageIds l) => "[" +:+ join "," l +:+ "]"
  | Some (LanguageGroups g) =>
      "[" +:+ join "," (map (fun l => "[" +:+ join "," l +:+ "]") g) +:+ "]"
  | None => "-"
  end.
Definition stringify (m : ModelInfoFile) : string :=
  join "; "
    [ "id=" +:+ text (mi_id m);
      "name=" +:+ text (mi_name m);
      "license=" +:+ text (mi_license m);
      "version=" +:+ text (mi_version m);
      "languages=" +:+ languages (mi_languages m);
      "authorName=" +:+ text (mi_authorName m);
      "authorEmail=" +:+ text (mi_authorEmail m);
      "description=" +:+ text (mi_description m);
      "lastModifiedDate=" +:+ text (mi_lastModifiedDate m);
      "packageFilename=" +:+ text (mi_packageFilename m);
      "packageFileSize=" +:+ number (mi_packageFileSize m);
      "jsFilename=" +:+ text (mi_jsFilename m);
      "jsFileSize=" +:+ number (mi_jsFileSize m);
      "packageIncludes=" +:+ array (mi_packageIncludes m);
      "minKeymanVersion=" +:+ text (mi_minKeymanVersion m);
      "sourcePath=" +:+ text (mi_sourcePath m) ].

(** The info file parses to [info], whatever its text. *)
Definition env (info : ModelInfoFile) : Env :=
  {| transpile := fun s => s;
     createTrieDataStructure := fun l => Some ("[" +:+ join "," l +:+ "]");
     transformKpsToKmpObject := fun _ _ => Some package;
     kmp_archive := fun _ => "PK-demo-archive";
     JSON_parse := fun _ => Some info;
     JSON_stringify := stringify;
     JSON_stringify_wb := fun o => "{" +:+ join "," (map fst (wb_config o)) +:+ "}";
     base64 := fun s => s;
     utf8_encode := fun s => s;
     utf8_decode := fun s => s;
     path_sep := "/"%char;
     path_join := fun a b => a +:+ "/" +:+ b |}.

Definition disk : gmap string string :=
  <["../demo.en.sample.model_info" := "{}"]>
  (<["../source/demo.en.sample.model.kps" := "<Package/>"]>
  (<["../source/wordlist.tsv" := "hello"]>
  (<["../source/model.ts" := "class Demo {}"]>
  (<["../source/breaker.ts" := "class Breaker {}"]> ∅)))).

Definition world (listing : list string) (h : gmap loc WordBreaking) : World :=
  {| cwd := "/home/dev/release/demo/en.sample/build";
     parent_dir := listing;
     files := disk;
     now := "2019-06-01T00:00:00.000Z";
     heap := h;
     stderr := [];
     written := [] |}.

Definition listing : list string := ["build"; "demo.en.sample.model_info"; "source"].

Definition trie_source : LexicalModelSource :=
  {| format := "trie-1.0"; sources := ["wordlist.tsv"];
     rootClass := None; wordBreaking := None |}.

End Demo.

(** ** Further builds, for the examples *)

Module Cases.

Import Demo.

(** Two info files side by side in the parent folder. *)
Definition two_info_files : list string :=
  ["demo.en.sample.model_info"; "other.en.sample.model_info"; "source"].

(** An info file whose name is the suffix alone. *)
Definition bare_suffix : list string := [".model_info"; "source"].

Definition fst_source : LexicalModelSource :=
  {| format := "fst-foma-1.0"; sources := ["wordlist.tsv"];
     rootClass := None; wordBreaking := None |}.

(** A custom model with a word breaker of its own. *)
Definition breaker : WordBreaking :=
  {| wb_sources := Some ["breaker.ts"]; wb_rootClass := Some "Breaker";
     wb_config := [] |}.
Definition custom_source : LexicalModelSource :=
  {| format := "custom-1.0"; sources := ["model.ts"];
     rootClass := Some "Demo"; wordBreaking := Some 0%nat |}.
Definition custom_heap : gmap loc WordBreaking := {[ 0%nat := breaker ]}.

(** A manifest in which the author wrote an identifier and a list of
    included assets of their own. *)
Definition info_with_id : ModelInfoFile :=
  {| mi_id := Some "my.own.id"; mi_name := Some "My model"; mi_license := Some "mit";
     mi_version := None; mi_languages := Some (LanguageIds ["en"]);
     mi_authorName := None; mi_authorEmail := None;
     mi_description := None; mi_lastModifiedDate := None;
     mi_packageFilename := None; mi_packageFileSize := None;
     mi_jsFilename := None; mi_jsFileSize := None;
     mi_packageIncludes := Some ["documentation"]; mi_minKeymanVersion := None;
     mi_sourcePath := None |}.

(** A manifest that names an older package, which is still in the build
    folder. *)
Definition info_with_package : ModelInfoFile :=
  {| mi_id := None; mi_name := None; mi_license := None; mi_version := None;
     mi_languages := None; mi_authorName := None; mi_authorEmail := None;
     mi_description := None; mi_lastModifiedDate := None;
     mi_packageFilename := Some "old.kmp"; mi_packageFileSize := None;
     mi_jsFilename := None; mi_jsFileSize := None;
     mi_packageIncludes := None; mi_minKeymanVersion := None;
     mi_sourcePath := None |}.
Definition world_with_old_package : World :=
  let w := Demo.world Demo.listing ∅ in
  set_files (<["old.kmp" := "old"]> (files w)) w.

End Cases.

Module Rerun.

Import Demo.

(** The state in which a first build of the demo ends, the same state at a
    later time, and the manifest that the first build merged. *)
Definition built : World :=
  snd (compile (env blank_info) trie_source (world listing ∅)).
Definition later : World :=
  {| cwd := cwd built; parent_dir := parent_dir built; files := files built;
     now := "2020-02-02T00:00:00.000Z"; heap := heap built;
     stderr := stderr built; written := written built |}.
Definition folders : list string :=
  ["build"; "en.sample"; "demo"; "release"; "dev"; "home"; ""].
Definition manifest : ModelInfoFile :=
  merged "demo.en.sample" "demo.en.sample.model.kmp" "demo.en.sample.model.js"
    package folders "2019-06-01T00:00:00.000Z" 15 148 blank_info.

End Rerun.

(** ** Vocabulary of the further properties *)

(** A file name that ends the way a font does for line 190: any character
    but a line terminator, then [otf] or [ttf] in either case. *)
Definition font_ending (name : string) : Prop :=
  exists p c x y z,
    name = p +:+ String c (String x (String y (String z ""))) /\
    dot_char c = true /\
    In x ["o"; "t"; "O"; "T"]%char /\ In y ["t"; "T"]%char /\ In z ["f"; "F"]%char.

(** The fields that the author left blank have, in [merged], the value that
    the build found for them. *)
Definition blanks_filled (id : string) (kmp : KmpJsonFile) (paths : list string)
    (date : string) (info merged : ModelInfoFile) : Prop :=
  (truthy (mi_name info) = false -> mi_name merged = Some (info_name kmp)) /\
  (truthy (mi_authorName info) = false -> mi_authorName merged = Some (info_author kmp)) /\
  (truthy (mi_authorEmail info) = false -> mi_authorEmail merged = info_author_url kmp) /\
  (mi_languages info = None ->
   mi_languages merged = Some (LanguageGroups (lexicalModels kmp))) /\
  (truthy (mi_lastModifiedDate info) = false -> mi_lastModifiedDate merged = Some date) /\
  (truthy (mi_packageFilename info) = false ->
   mi_packageFilename merged = Some (id +:+ ".model.kmp")) /\
  (truthy (mi_jsFilename info) = false -> mi_jsFilename merged = Some (id +:+ ".model.js")) /\
  (truthy (mi_version info) = false -> mi_version merged = Some (info_version kmp)) /\
  (truthy (mi_minKeymanVersion info) = false -> mi_minKeymanVersion merged = Some "12.0") /\
  (truthy (mi_sourcePath info) = false -> mi_sourcePath merged = Some (joined_path paths)).

(** A computation that changes the state only by the one message it logs
    when it returns false. *)
Definition reports {A} (m : M A) : Prop :=
  forall w,
    match fst (m w) with
    | ReturnedFalse => exists message, snd (m w) = set_stderr (stderr w ++ [message]) w
    | _ => snd (m w) = w
    end.

(** A computation that never returns false and logs nothing. *)
Definition never_reports {A} (m : M A) : Prop :=
  forall w, fst (m w) <> ReturnedFalse /\ stderr (snd (m w)) = stderr w.

(** A computation that logs exactly when it returns false, and then changes
    nothing else. *)
Definition logs_iff_false {A} (m : M A) : Prop :=
  forall w,
    match fst (m w) with
    | ReturnedFalse => exists message, snd (m w) = set_stderr (stderr w ++ [message]) w
    | _ => stderr (snd (m w)) = stderr w
    end.

(** The call that registers the default word breaker with a configuration. *)
Definition default_breaker (config : string) : string :=
  "LMLayerWorker.loadWordBreaker(new DefaultWordBreaker(" +:+ config +:+ "));" +:+ nl.

(** The text that registers a word breaker of the author's own. *)
Definition custom_breaker (text : string) (root : option string) : string :=
  nl +:+ text +:+ nl +:+
  "LMLayerWorker.loadWordBreaker(new " +:+ show root +:+ "());" +:+ nl.

(** The number of places at which [needle] occurs in [hay]. *)
Fixpoint occurrences (needle hay : string) : nat :=
  ((if String.prefix needle hay then 1 else 0) +
   match hay with
   | "" => 0
   | String _ rest => occurrences needle rest
   end)%nat.

(** The registration calls with an empty argument list in a script. *)
Definition registrations (script : string) : nat :=
  occurrences (funcPrefix +:+ funcSuffix) script.

(** The path that a writing call was given. *)
Definition written_name (e : Written) : string :=
  match e with
  | WroteText name _ => name
  | WroteArchive name _ => name
  end.

(** The writing calls that a run made: the entries added to the list. *)
Definition writes_of (before after : World) : list Written :=
  drop (length (written before)) (written after).

(** A plain file name: lowercase letters, digits, underscores and dots, the
    first a letter or an underscore.  It has no separator and no leading dot,
    so it names a file of the working directory itself. *)
Definition name_char (c : ascii) : bool := id_part c || Ascii.eqb c ".".
Definition plain_name (name : string) : Prop :=
  exists c t, name = String c t /\ id_start c = true /\ all_chars name_char t = true.

(** A character that is not a path separator: neither the slash nor the
    backslash (code 92). *)
Definition not_separator (c : ascii) : bool :=
  negb (Ascii.eqb c "/") && negb (Ascii.eqb c (ascii_of_nat 92)).

(** ** Further builds, for the witnesses *)

Module More.

Import Demo.

Definition unknown_source : LexicalModelSource :=
{| format := "ngram-1.0"; sources := ["wordlist.tsv"];
   rootClass := None; wordBreaking := None |}.

(** A description whose word breaker lists no file at all. *)
Definition breaker_without_files : WordBreaking :=
{| wb_sources := Some []; wb_rootClass := Some "Breaker";
   wb_config := [("allowedCharacters", "a-z")] |}.
Definition heap_without_files : gmap loc WordBreaking := {[ 0%nat := breaker_without_files ]}.

(** A description that names a source that is not on the disk, after one
  that is. *)
Definition names_with_a_gap : list string := ["wordlist.tsv"; "missing.tsv"; "model.ts"].

Definition source_without_files : LexicalModelSource :=
{| format := "trie-1.0"; sources := ["wordlist.tsv"];
   rootClass := None; wordBreaking := Some 0%nat |}.
Definition oc_without_files : LexicalModelCompiled :=
{| oc_id := "demo.en.sample"; oc_format := "trie-1.0";
   oc_wordBreaking := Some 0%nat; oc_fst := None |}.
Definition custom_oc : LexicalModelCompiled :=
{| oc_id := "demo.en.sample"; oc_format := "custom-1.0";
   oc_wordBreaking := Some 0%nat; oc_fst := None |}.

(** A parent folder whose info file has an uppercase letter in its stem, and
  one whose info file has a line feed in its stem. *)
Definition uppercase_listing : list string := ["Demo.en.sample.model_info"; "source"].
Definition broken_listing : list string :=
[String "a" (String LF "b.c.d.model_info"); "source"].

(** An environment that cannot parse the info file. *)
Definition deaf_env : Env :=
{| transpile := transpile (env blank_info);
   createTrieDataStructure := createTrieDataStructure (env blank_info);
   transformKpsToKmpObject := transformKpsToKmpObject (env blank_info);
   kmp_archive := kmp_archive (env blank_info);
   JSON_parse := fun _ => None;
   JSON_stringify := stringify;
   JSON_stringify_wb := JSON_stringify_wb (env blank_info);
   base64 := fun s => s;
   utf8_encode := fun s => s;
   utf8_decode := fun s => s;
   path_sep := "/"%char;
   path_join := fun a b => a +:+ "/" +:+ b |}.

(** The disk of the demo without the project descriptor. *)
Definition world_without_kps : World :=
let w := world listing ∅ in
set_files (delete "../source/demo.en.sample.model.kps" (files w)) w.

Definition trie_script : string :=
filePrefix +:+ "var model = {};" +:+ nl +:+ "model.backingData = [hello];" +:+ nl +:+
"LMLayerWorker.loadModel(new models.WordListModel(model.backingData));" +:+ nl +:+
fileSuffix.

(** A custom model whose one source is itself a registration call. *)
Definition registering_source : LexicalModelSource :=
{| format := "custom-1.0"; sources := ["register.ts"];
   rootClass := Some "Demo"; wordBreaking := None |}.
Definition world_with_registration : World :=
let w := world listing ∅ in
set_files (<["../source/register.ts" := "com.keyman.lexicalModel.register();"]> (files w)) w.

(** A custom model whose word breaker has a configuration and no sources. *)
Definition configured_breaker : WordBreaking :=
{| wb_sources := None; wb_rootClass := None;
   wb_config := [("allowedCharacters", "a-z")] |}.
Definition configured_heap : gmap loc WordBreaking := {[ 0%nat := configured_breaker ]}.

End More.

(** Two states with the same clock, the same working directory and the same
    parent folder. *)
Definition same_process (w w' : World) : Prop :=
  now w' = now w /\ cwd w' = cwd w /\ parent_dir w' = parent_dir w.

(** Two states in which the file [name] is the same. *)
Definition same_file (name : string) (w w' : World) : Prop :=
  files w' !! name = files w !! name.

(** * Properties *)

(** ** Strings *)

Lemma append_cons (c : ascii) (s t : string) :
  String c s +:+ t = String c (s +:+ t).
Proof. reflexivity. Qed.

Lemma append_nil_l (s : string) : "" +:+ s = s.
Proof. reflexivity. Qed.

Lemma append_nil_r (s : string) : s +:+ "" = s.
Proof.
  induction s as [|c s IH]; [reflexivity|].
  now rewrite append_cons, IH.
Qed.

Lemma append_assoc (a b c : string) : (a +:+ b) +:+ c = a +:+ (b +:+ c).
Proof.
  induction a as [|x a IH]; [reflexivity|].
  now rewrite !append_cons, IH.
Qed.

Lemma append_length (a b : string) :
  String.length (a +:+ b) = (String.length a + String.length b)%nat.
Proof.
  induction a as [|x a IH]; [reflexivity|].
  rewrite append_cons. simpl. now rewrite IH.
Qed.

Lemma append_inv_head (a b c : string) : a +:+ b = a +:+ c -> b = c.
Proof.
  induction a as [|x a IH]; intros H; [exact H|].
  rewrite !append_cons in H. injection H. exact IH.
Qed.

Lemma append_inv_tail (a b c : string) : a +:+ c = b +:+ c -> a = b.
Proof.
  revert b. induction a as [|x a IH]; intros [|y b] H.
  - reflexivity.
  - exfalso. apply (f_equal String.length) in H.
    rewrite !append_length in H. simpl in H. lia.
  - exfalso. apply (f_equal String.length) in H.
    rewrite !append_length in H. simpl in H. lia.
  - rewrite !append_cons in H. injection H as -> H. f_equal. now apply IH.
Qed.

Lemma append_eq_nil (a b : string) : a +:+ b = "" -> a = "" /\ b = "".
Proof. destruct a; [auto | rewrite append_cons; discriminate]. Qed.

Lemma append_cons_inv (s1 s2 : string) (c : ascii) (s : string) :
  s1 +:+ s2 = String c s ->
  (s1 = "" /\ s2 = String c s) \/ (exists s1', s1 = String c s1' /\ s = s1' +:+ s2).
Proof.
  destruct s1 as [|x s1]; [left; auto|].
  rewrite append_cons. intros H. injection H as -> <-. right. eauto.
Qed.

(** ** Regular expressions: the matcher decides the language *)

Section RegexFacts.

Import Regex.

Lemma nullable_matches (r : re) : nullable r = true <-> matches r "".
Proof.
  split.
  - induction r; simpl; intros H; try discriminate.
    + constructor.
    + apply andb_true_iff in H as [H1 H2].
      change "" with ("" +:+ ""). constructor; auto.
    + apply orb_true_iff in H as [H|H]; [apply MAltL | apply MAltR]; auto.
    + constructor.
  - intros H. remember "" as s eqn:Hs.
    induction H; simpl; try reflexivity; try discriminate.
    + apply append_eq_nil in Hs as [-> ->]. rewrite IHmatches1, IHmatches2; auto.
    + rewrite IHmatches; auto.
    + rewrite IHmatches; auto. apply orb_true_r.
Qed.

Lemma deriv_sound (c : ascii) (r : re) (s : string) :
  matches (deriv c r) s -> matches r (String c s).
Proof.
  revert s. induction r; simpl; intros s H.
  - inversion H.
  - inversion H.
  - destruct (p c) eqn:Hp; inversion H; subst. now constructor.
  - assert (Hseq : forall t, matches (Seq (deriv c r1) r2) t -> matches (Seq r1 r2) (String c t)).
    { intros t Ht. inversion Ht; subst. rewrite <- append_cons. constructor; auto. }
    destruct (nullable r1) eqn:Hn.
    + inversion H; subst; [auto|].
      change (String c s) with ("" +:+ String c s).
      constructor; [now apply nullable_matches | auto].
    + auto.
  - inversion H; subst; [apply MAltL | apply MAltR]; auto.
  - inversion H; subst. rewrite <- append_cons. constructor; auto.
Qed.

Lemma deriv_complete (c : ascii) (r : re) (s : string) :
  matches r (String c s) -> matches (deriv c r) s.
Proof.
  intros H. remember (String c s) as t eqn:Ht. revert s Ht.
  induction H as [ | p c0 Hp | r1 r2 s1 s2 H1 IH1 H2 IH2 | r1 r2 s0 H0 IH0
                 | r1 r2 s0 H0 IH0 | r0 | r0 s1 s2 H1 IH1 H2 IH2 ];
    intros u Hu; simpl.
  - discriminate.
  - injection Hu as -> <-. rewrite Hp. constructor.
  - apply append_cons_inv in Hu as [[-> ->] | (s1' & -> & ->)].
    + apply nullable_matches in H1. rewrite H1. apply MAltR. auto.
    + destruct (nullable r1); [apply MAltL|]; constructor; auto.
  - apply MAltL; auto.
  - apply MAltR; auto.
  - discriminate.
  - apply append_cons_inv in Hu as [[-> ->] | (s1' & -> & ->)].
    + apply IH2. reflexivity.
    + constructor; auto.
Qed.

Lemma full_match_spec (r : re) (s : string) : full_match r s = true <-> matches r s.
Proof.
  revert r. induction s as [|c s IH]; intros r; simpl.
  - apply nullable_matches.
  - rewrite IH. split; [apply deriv_sound | apply deriv_complete].
Qed.

Lemma matches_cls p (s : string) :
  matches (Cls p) s <-> exists c, s = String c "" /\ p c = true.
Proof.
  split.
  - intros H. inversion H; subst. eauto.
  - intros (c & -> & Hc). now constructor.
Qed.

Lemma matches_seq (r1 r2 : re) (s : string) :
  matches (Seq r1 r2) s <-> exists s1 s2, s = s1 +:+ s2 /\ matches r1 s1 /\ matches r2 s2.
Proof.
  split.
  - intros H. inversion H; subst. eauto.
  - intros (s1 & s2 & -> & H1 & H2). now constructor.
Qed.

Lemma matches_lit (t s : string) : matches (lit t) s <-> s = t.
Proof.
  revert s. induction t as [|c t IH]; intros s; simpl.
  - split; intros H; [now inversion H | subst; constructor].
  - rewrite matches_seq. split.
    + intros (s1 & s2 & -> & H1 & H2).
      apply matches_cls in H1 as (c0 & -> & Hc).
      apply Ascii.eqb_eq in Hc as <-. apply IH in H2 as ->. reflexivity.
    + intros ->. exists (String c ""), t. split; [reflexivity|].
      split; [constructor; apply Ascii.eqb_refl | now apply IH].
Qed.

Lemma matches_star_any (s : string) : matches (Star any) s.
Proof.
  induction s as [|c s IH]; [constructor|].
  change (String c s) with (String c "" +:+ s).
  constructor; [now constructor | exact IH].
Qed.

(** [/t$/] for a literal [t] is the test that the input ends in [t]. *)
Lemma search_to_end_lit (t s : string) :
  search_to_end (lit t) s = true <-> exists p, s = p +:+ t.
Proof.
  unfold search_to_end. rewrite full_match_spec, matches_seq. split.
  - intros (s1 & s2 & -> & _ & H2). apply matches_lit in H2 as ->. eauto.
  - intros [p ->]. exists p, t.
    split; [reflexivity|]. split; [apply matches_star_any | now apply matches_lit].
Qed.

Lemma all_chars_app p (a b : string) :
  all_chars p (a +:+ b) = all_chars p a && all_chars p b.
Proof.
  induction a as [|c a IH]; [reflexivity|].
  rewrite append_cons. simpl. now rewrite IH, andb_assoc.
Qed.

Lemma matches_star_cls p (s : string) :
  matches (Star (Cls p)) s <-> all_chars p s = true.
Proof.
  split.
  - intros H. remember (Star (Cls p)) as r eqn:Hr.
    induction H as [ | | | | | r0 | r0 s1 s2 H1 _ H2 IH2 ]; try discriminate.
    + reflexivity.
    + injection Hr as ->. rewrite all_chars_app, (IH2 eq_refl).
      apply matches_cls in H1 as (c & -> & Hc). simpl. now rewrite Hc.
  - induction s as [|c s IH]; simpl; intros H; [constructor|].
    apply andb_true_iff in H as [Hc Hs].
    change (String c s) with (String c "" +:+ s).
    constructor; [now constructor | auto].
Qed.

Lemma matches_plus_cls p (s : string) :
  matches (plus (Cls p)) s <-> s <> "" /\ all_chars p s = true.
Proof.
  unfold plus. rewrite matches_seq. split.
  - intros (s1 & s2 & -> & H1 & H2).
    apply matches_cls in H1 as (c & -> & Hc). apply matches_star_cls in H2.
    rewrite append_cons, append_nil_l. simpl. rewrite Hc, H2.
    split; [discriminate | reflexivity].
  - intros [Hne H]. destruct s as [|c s]; [congruence|].
    simpl in H. apply andb_true_iff in H as [Hc Hs].
    exists (String c ""), s. split; [reflexivity|].
    split; [now constructor | now apply matches_star_cls].
Qed.

Lemma greedy_split_sound (r1 r2 : re) (s p q : string) :
  greedy_split r1 r2 s = Some (p, q) ->
  s = p +:+ q /\ matches r1 p /\ matches r2 q.
Proof.
  revert r1 p q. induction s as [|c s IH]; intros r1 p q; simpl.
  - destruct (nullable r1) eqn:H1; [|discriminate].
    destruct (nullable r2) eqn:H2; [|discriminate].
    simpl. intros [= <- <-]. rewrite <- !nullable_matches. auto.
  - destruct (greedy_split (deriv c r1) r2 s) as [[p' q']|] eqn:Hg.
    + intros [= <- <-]. apply IH in Hg as (-> & Hp & Hq).
      split; [reflexivity|]. split; [now apply deriv_sound | exact Hq].
    + destruct (nullable r1) eqn:H1; [|discriminate].
      destruct (full_match (deriv c r2) s) eqn:H2; [|discriminate].
      simpl. intros [= <- <-]. split; [reflexivity|].
      split; [now apply nullable_matches|].
      apply (full_match_spec r2 (String c s)). exact H2.
Qed.

Lemma greedy_split_complete (r1 r2 : re) (p q : string) :
  matches r1 p -> matches r2 q -> is_Some (greedy_split r1 r2 (p +:+ q)).
Proof.
  revert r1. induction p as [|c p IH]; intros r1 Hp Hq.
  - rewrite append_nil_l. apply nullable_matches in Hp.
    destruct q as [|c q]; simpl.
    + apply nullable_matches in Hq. rewrite Hp, Hq. eauto.
    + destruct (greedy_split (deriv c r1) r2 q) as [[p' q']|]; [eauto|].
      apply (full_match_spec r2 (String c q)) in Hq. simpl in Hq.
      rewrite Hp, Hq. eauto.
  - rewrite append_cons. simpl.
    destruct (IH (deriv c r1)) as [[p' q'] Hg]; [now apply deriv_complete | exact Hq |].
    rewrite Hg. eauto.
Qed.

(** With a literal after the group, the group is the input without it. *)
Lemma greedy_split_lit (r1 : re) (t s : string) (x : string) :
  fst <$> greedy_split r1 (lit t) s = Some x <-> s = x +:+ t /\ matches r1 x.
Proof.
  split.
  - destruct (greedy_split r1 (lit t) s) as [[p q]|] eqn:Hg; [|discriminate].
    simpl. intros [= <-]. apply greedy_split_sound in Hg as (-> & Hp & Hq).
    apply matches_lit in Hq as ->. auto.
  - intros [-> Hx].
    destruct (greedy_split_complete r1 (lit t) x t Hx) as [[p q] Hg];
      [now apply matches_lit|].
    rewrite Hg. simpl. f_equal.
    apply greedy_split_sound in Hg as (Heq & _ & Hq).
    apply matches_lit in Hq as ->. symmetry. now apply append_inv_tail in Heq.
Qed.

End RegexFacts.

(** ** The monad *)

Lemma bind_value {A B} (m : M A) (k : A -> M B) w b w' :
  bind m k w = (Value b, w') ->
  exists a w1, m w = (Value a, w1) /\ k a w1 = (Value b, w').
Proof.
  unfold bind. destruct (m w) as [[a| |e] w1]; intros H; try discriminate. eauto.
Qed.

Lemma bind_step {A B} (m : M A) (k : A -> M B) w a w1 :
  m w = (Value a, w1) -> bind m k w = k a w1.
Proof. unfold bind. now intros ->. Qed.

Lemma bind_false {A B} (m : M A) (k : A -> M B) w w1 :
  m w = (ReturnedFalse, w1) -> bind m k w = (ReturnedFalse, w1).
Proof. unfold bind. now intros ->. Qed.

Lemma bind_thrown {A B} (m : M A) (k : A -> M B) w e w1 :
  m w = (Thrown e, w1) -> bind m k w = (Thrown e, w1).
Proof. unfold bind. now intros ->. Qed.

Lemma set_stderr_same (w : World) : set_stderr (stderr w) w = w.
Proof. now destruct w. Qed.

Lemma logs_only_refl (w : World) : logs_only w w.
Proof. unfold logs_only. now rewrite set_stderr_same. Qed.

Lemma logs_only_trans (a b c : World) : logs_only a b -> logs_only b c -> logs_only a c.
Proof. unfold logs_only. intros H1 H2. rewrite H2, H1. reflexivity. Qed.

Lemma logs_only_set_stderr (w : World) (l : list string) : logs_only w (set_stderr l w).
Proof. reflexivity. Qed.

Lemma same_disk_refl (w : World) : same_disk w w.
Proof. now split. Qed.

Lemma same_disk_trans (a b c : World) : same_disk a b -> same_disk b c -> same_disk a c.
Proof. intros [H1 H2] [H3 H4]. split; congruence. Qed.

Lemma logs_only_same_disk (w w' : World) : logs_only w w' -> same_disk w w'.
Proof. intros ->. now split. Qed.

Lemma logs_only_heap (w w' : World) : logs_only w w' -> heap w' = heap w.
Proof. now intros ->. Qed.

Section Frames.

Variable R : World -> World -> Prop.
Hypothesis R_refl : forall w, R w w.
Hypothesis R_trans : forall a b c, R a b -> R b c -> R a c.

Lemma keeps_ret {A} (a : A) : keeps R (ret a).
Proof. intros w. apply R_refl. Qed.

Lemma keeps_return_false {A} : keeps R (@return_false A).
Proof. intros w. apply R_refl. Qed.

Lemma keeps_throw {A} (e : Exn) : keeps R (@throw A e).
Proof. intros w. apply R_refl. Qed.

Lemma keeps_bind {A B} (m : M A) (k : A -> M B) :
  keeps R m -> (forall a, keeps R (k a)) -> keeps R (bind m k).
Proof.
  intros Hm Hk w. unfold bind. specialize (Hm w).
  destruct (m w) as [[a| |e] w1]; simpl in *; auto.
  eapply R_trans; [exact Hm | apply Hk].
Qed.

Lemma keeps_lift {A} (e : Exn) (o : option A) : keeps R (lift e o).
Proof. destruct o; [apply keeps_ret | apply keeps_throw]. Qed.

Lemma keeps_mapM {A B} (f : A -> M B) (l : list A) :
  (forall a, keeps R (f a)) -> keeps R (mapM f l).
Proof.
  intros Hf. induction l as [|x l IH]; simpl; [apply keeps_ret|].
  apply keeps_bind; [apply Hf|]. intros y.
  apply keeps_bind; [exact IH|]. intros ys. apply keeps_ret.
Qed.

Lemma keeps_readFileSync E path : keeps R (readFileSync E path).
Proof. intros w. unfold readFileSync. destruct (files w !! path); apply R_refl. Qed.

Lemma keeps_statSync_size path : keeps R (statSync_size path).
Proof. intros w. unfold statSync_size. destruct (files w !! path); apply R_refl. Qed.

Lemma keeps_deref l : keeps R (deref l).
Proof. intros w. unfold deref. destruct (heap w !! l); apply R_refl. Qed.

End Frames.

Lemma silent_ret {A} (a : A) : silent (ret a).
Proof. intros w b w' [= _ <-]. reflexivity. Qed.

Lemma silent_return_false {A} : silent (@return_false A).
Proof. intros w b w' H. discriminate. Qed.

Lemma silent_throw {A} (e : Exn) : silent (@throw A e).
Proof. intros w b w' H. discriminate. Qed.

Lemma silent_bind {A B} (m : M A) (k : A -> M B) :
  silent m -> (forall a, silent (k a)) -> silent (bind m k).
Proof.
  intros Hm Hk w b w' H. apply bind_value in H as (a & w1 & H1 & H2).
  apply Hm in H1 as ->. now apply Hk in H2.
Qed.

Lemma silent_lift {A} (e : Exn) (o : option A) : silent (lift e o).
Proof. destruct o; [apply silent_ret | apply silent_throw]. Qed.

Lemma silent_mapM {A B} (f : A -> M B) (l : list A) :
  (forall a, silent (f a)) -> silent (mapM f l).
Proof.
  intros Hf. induction l as [|x l IH]; simpl; [apply silent_ret|].
  apply silent_bind; [apply Hf|]. intros y.
  apply silent_bind; [exact IH|]. intros ys. apply silent_ret.
Qed.

Lemma silent_readFileSync E path : silent (readFileSync E path).
Proof.
  intros w a w'. unfold readFileSync.
  destruct (files w !! path); intros [= _ <-]. reflexivity.
Qed.

Lemma silent_statSync_size path : silent (statSync_size path).
Proof.
  intros w a w'. unfold statSync_size.
  destruct (files w !! path); intros [= _ <-]. reflexivity.
Qed.

Lemma silent_deref l : silent (deref l).
Proof.
  intros w a w'. unfold deref. destruct (heap w !! l); intros [= _ <-]. reflexivity.
Qed.

Lemma keeps_logError (s : string) : keeps logs_only (logError s).
Proof. intros w. reflexivity. Qed.

(** ** The stages before the script is written *)

Ltac frame R_refl R_trans :=
  repeat first
    [ apply (keeps_ret _ R_refl)
    | apply (keeps_return_false _ R_refl)
    | apply (keeps_throw _ R_refl)
    | apply (keeps_lift _ R_refl)
    | apply (keeps_readFileSync _ R_refl)
    | apply (keeps_statSync_size _ R_refl)
    | apply (keeps_deref _ R_refl)
    | apply keeps_logError
    | apply (keeps_mapM _ R_refl R_trans); intros
    | apply (keeps_bind _ R_trans); [|intros]
    | match goal with
      | |- keeps _ (match ?x with _ => _ end) => destruct x
      end ].

Ltac quiet :=
  repeat first
    [ apply silent_ret
    | apply silent_return_false
    | apply silent_throw
    | apply silent_lift
    | apply silent_readFileSync
    | apply silent_statSync_size
    | apply silent_deref
    | apply silent_mapM; intros
    | apply silent_bind; [|intros]
    | match goal with
      | |- silent (match ?x with _ => _ end) => destruct x
      end ].

Lemma keeps_findModelInfoFile : keeps logs_only findModelInfoFile.
Proof.
  unfold findModelInfoFile.
  apply (keeps_bind _ logs_only_trans).
  - intros w. apply logs_only_refl.
  - intros l. frame logs_only_refl logs_only_trans.
Qed.

Lemma silent_findModelInfoFile : silent findModelInfoFile.
Proof.
  intros w a w'. unfold findModelInfoFile, bind, readdirSync_parent.
  destruct (find is_model_info (parent_dir w)); simpl; intros [= _ <-]. reflexivity.
Qed.

Lemma keeps_modelId f : keeps logs_only (modelId f).
Proof. unfold modelId. frame logs_only_refl logs_only_trans. Qed.

Lemma silent_modelId f : silent (modelId f).
Proof.
  unfold modelId. apply silent_bind; [apply silent_lift|]. intros id.
  destruct (negb _); [|apply silent_ret].
  intros w a w' H. apply bind_value in H as (? & ? & _ & H). discriminate.
Qed.

Lemma keeps_loadModelInfo E f : keeps logs_only (loadModelInfo E f).
Proof. unfold loadModelInfo. frame logs_only_refl logs_only_trans. Qed.

Lemma silent_loadModelInfo E f : silent (loadModelInfo E f).
Proof. unfold loadModelInfo. quiet. Qed.

Lemma keeps_checkModelPath E id : keeps logs_only (checkModelPath E id).
Proof.
  unfold checkModelPath.
  apply (keeps_bind _ logs_only_trans).
  - intros w. apply logs_only_refl.
  - intros d. frame logs_only_refl logs_only_trans.
Qed.

Lemma silent_checkModelPath E id : silent (checkModelPath E id).
Proof.
  intros w a w'. unfold checkModelPath, bind, process_cwd.
  destruct (path_mismatch _ _); simpl; intros [= _ <-]. reflexivity.
Qed.

Lemma keeps_readSources E names : keeps logs_only (readSources E names).
Proof. unfold readSources. frame logs_only_refl logs_only_trans. Qed.

Lemma silent_readSources E names : silent (readSources E names).
Proof. unfold readSources. quiet. Qed.

Lemma keeps_prepare E ms : keeps logs_only (prepare E ms).
Proof.
  unfold prepare.
  apply (keeps_bind _ logs_only_trans); [apply keeps_findModelInfoFile|]. intros f.
  apply (keeps_bind _ logs_only_trans); [apply keeps_modelId|]. intros id.
  apply (keeps_bind _ logs_only_trans); [apply keeps_loadModelInfo|]. intros info.
  apply (keeps_bind _ logs_only_trans); [apply keeps_checkModelPath|]. intros paths.
  apply (keeps_bind _ logs_only_trans); [apply keeps_readSources|]. intros texts.
  apply (keeps_ret _ logs_only_refl).
Qed.

Lemma silent_prepare E ms : silent (prepare E ms).
Proof.
  unfold prepare.
  apply silent_bind; [apply silent_findModelInfoFile|]. intros f.
  apply silent_bind; [apply silent_modelId|]. intros id.
  apply silent_bind; [apply silent_loadModelInfo|]. intros info.
  apply silent_bind; [apply silent_checkModelPath|]. intros paths.
  apply silent_bind; [apply silent_readSources|]. intros texts.
  apply silent_ret.
Qed.

Lemma keeps_emitModel E ms oc texts func : keeps logs_only (emitModel E ms oc texts func).
Proof.
  unfold emitModel.
  repeat match goal with |- keeps _ (if ?b then _ else _) => destruct b end;
    frame logs_only_refl logs_only_trans.
Qed.

Lemma silent_emitModel E ms oc texts func : silent (emitModel E ms oc texts func).
Proof.
  unfold emitModel.
  repeat match goal with |- silent (if ?b then _ else _) => destruct b end;
    try (intros w a w' H; apply bind_value in H as (? & ? & _ & H); discriminate);
    quiet.
Qed.

(** ** Discovery of the info file *)

Lemma is_model_info_spec (f : string) :
  is_model_info f = true <-> ends_with f ".model_info".
Proof. apply search_to_end_lit. Qed.

Lemma is_model_info_false (f : string) :
  is_model_info f = false <-> ~ ends_with f ".model_info".
Proof.
  rewrite <- is_model_info_spec. destruct (is_model_info f); split; congruence.
Qed.

Lemma find_first {A} (p : A -> bool) (l : list A) :
  match List.find p l with
  | Some x =>
      exists before after,
        l = (before ++ x :: after)%list /\ p x = true /\ Forall (fun y => p y = false) before
  | None => Forall (fun y => p y = false) l
  end.
Proof.
  induction l as [|y l IH]; simpl; [constructor|].
  destruct (p y) eqn:Hy.
  - exists [], l. auto.
  - destruct (List.find p l) as [x|].
    + destruct IH as (before & after & -> & Hx & Hb).
      exists (y :: before), after. auto.
    + constructor; auto.
Qed.

Lemma findModelInfoFile_found (w : World) (f : string) :
  List.find is_model_info (parent_dir w) = Some f ->
  findModelInfoFile w = (Value f, w).
Proof. intros H. unfold findModelInfoFile, bind, readdirSync_parent. now rewrite H. Qed.

Lemma findModelInfoFile_missing (w : World) :
  List.find is_model_info (parent_dir w) = None ->
  findModelInfoFile w = (ReturnedFalse, set_stderr (stderr w ++ [not_found_message]) w).
Proof. intros H. unfold findModelInfoFile, bind, readdirSync_parent. now rewrite H. Qed.

Lemma compile_not_found E ms (w : World) :
  List.find is_model_info (parent_dir w) = None ->
  compile E ms w = (ReturnedFalse, set_stderr (stderr w ++ [not_found_message]) w).
Proof.
  intros H. unfold compile, prepare.
  apply bind_false, bind_false. now apply findModelInfoFile_missing.
Qed.

(** C2, as the claim states it, fails: with two info files in the parent
    folder the first of the listing is taken and the build goes through. *)
Lemma discovery_accepts_two_info_files :
  let w := Demo.world Cases.two_info_files ∅ in
  length (List.filter is_model_info (parent_dir w)) = 2%nat /\
  findModelInfoFile w = (Value "demo.en.sample.model_info", w) /\
  fst (compile (Demo.env Demo.blank_info) Demo.trie_source w) = Value tt.
Proof. vm_compute. auto. Qed.

(** C2, amended: discovery fails exactly when no file name of the parent
    folder ends in [.model_info], and then [compile] returns false after the
    message [Unable to find .model_info file in parent folder]; otherwise the
    first file name of the listing that ends in [.model_info] is the info
    file, however many follow it. *)
Theorem discovery_takes_first_info_file (E : Env) (ms : LexicalModelSource) (w : World) :
  (Forall (fun f => ~ ends_with f ".model_info") (parent_dir w) /\
   compile E ms w = (ReturnedFalse, set_stderr (stderr w ++ [not_found_message]) w))
  \/
  (exists before f after,
     parent_dir w = (before ++ f :: after)%list /\
     ends_with f ".model_info" /\
     Forall (fun g => ~ ends_with g ".model_info") before /\
     findModelInfoFile w = (Value f, w)).
Proof.
  pose proof (find_first is_model_info (parent_dir w)) as H.
  destruct (List.find is_model_info (parent_dir w)) as [f|] eqn:Hfind.
  - right. destruct H as (before & after & Hl & Hf & Hb).
    exists before, f, after. split; [exact Hl|].
    split; [now apply is_model_info_spec|].
    split; [|now apply findModelInfoFile_found].
    eapply Forall_impl; [exact Hb|]. intros g. apply is_model_info_false.
  - left. split; [|now apply compile_not_found].
    eapply Forall_impl; [exact H|]. intros g. apply is_model_info_false.
Qed.

(** ** The identifier *)

Lemma model_info_stem_spec (f stem : string) :
  model_info_stem f = Some stem <->
  f = stem +:+ ".model_info" /\ stem <> "" /\ all_chars dot_char stem = true.
Proof.
  unfold model_info_stem. rewrite greedy_split_lit.
  unfold dot. now rewrite matches_plus_cls.
Qed.

Lemma matches_segment (s : string) : Regex.matches segment s <-> is_segment s.
Proof.
  unfold segment, is_segment. rewrite matches_seq. split.
  - intros (s1 & s2 & -> & H1 & H2).
    apply matches_cls in H1 as (c & -> & Hc). apply matches_star_cls in H2.
    exists c, s2. auto.
  - intros (c & t & -> & Hc & Ht). exists (String c ""), t.
    split; [reflexivity|]. split; [now constructor | now apply matches_star_cls].
Qed.

(** The pattern of the source accepts the shape of the specification. *)
Lemma MODEL_ID_PATTERN_shape (s : string) :
  Regex.full_match MODEL_ID_PATTERN s = true <-> id_shape s.
Proof.
  rewrite full_match_spec. unfold MODEL_ID_PATTERN, id_shape. split.
  - intros H.
    apply matches_seq in H as (a & r1 & -> & Ha & H).
    apply matches_seq in H as (d1 & r2 & -> & Hd1 & H).
    apply matches_seq in H as (b & r3 & -> & Hb & H).
    apply matches_seq in H as (d2 & c & -> & Hd2 & Hc).
    apply matches_lit in Hd1 as ->. apply matches_lit in Hd2 as ->.
    exists a, b, c. rewrite <- !matches_segment. auto.
  - intros (a & b & c & -> & Ha & Hb & Hc).
    rewrite <- matches_segment in Ha, Hb, Hc.
    repeat (constructor; try assumption); now apply matches_lit.
Qed.

Lemma modelId_invalid (f stem : string) (w : World) :
  model_info_stem f = Some stem ->
  Regex.full_match MODEL_ID_PATTERN stem = false ->
  modelId f w = (ReturnedFalse, set_stderr (stderr w ++ [invalid_id_message stem]) w).
Proof. intros Hs Hm. unfold modelId, bind, lift. rewrite Hs. simpl. now rewrite Hm. Qed.

Lemma modelId_valid (f stem : string) (w : World) :
  model_info_stem f = Some stem ->
  Regex.full_match MODEL_ID_PATTERN stem = true ->
  modelId f w = (Value stem, w).
Proof. intros Hs Hm. unfold modelId, bind, lift. rewrite Hs. simpl. now rewrite Hm. Qed.

Lemma modelId_no_stem (f : string) (w : World) :
  model_info_stem f = None -> modelId f w = (Thrown TypeError, w).
Proof. intros Hs. unfold modelId, bind, lift. now rewrite Hs. Qed.

(** A stem that [.+] captures and the pattern refuses: the identity error,
    and the state is as before but for the message. *)
Lemma compile_invalid_stem E ms (w : World) (f stem : string) :
  List.find is_model_info (parent_dir w) = Some f ->
  model_info_stem f = Some stem ->
  ~ id_shape stem ->
  compile E ms w = (ReturnedFalse, set_stderr (stderr w ++ [invalid_id_message stem]) w).
Proof.
  intros Hf Hs Hm. unfold compile, prepare.
  apply bind_false. rewrite (bind_step _ _ _ _ _ (findModelInfoFile_found w f Hf)).
  apply bind_false, modelId_invalid; [exact Hs|].
  rewrite <- MODEL_ID_PATTERN_shape in Hm. now destruct (Regex.full_match _ _).
Qed.

(** The pattern on the stems that the specification names: a well-formed
    identifier, an empty segment, an uppercase letter, a missing dot. *)
Example pattern_on_stems :
  map (Regex.full_match MODEL_ID_PATTERN)
    ["demo.en.sample"; "_a.b_1.c9"; "demo..sample"; "demo.En.sample"; "demo.en";
     "demo.en.sample.extra"; "9demo.en.sample"; ""] =
  [true; true; false; false; false; false; false; false].
Proof. vm_compute. reflexivity. Qed.

(** The stem is what stands before the last [.model_info]; there is none when
    nothing stands before it, or when a line terminator does. *)
Example stems :
  map model_info_stem
    ["demo.en.sample.model_info"; "a.model_info.model_info"; ".model_info";
     String "a" (String LF "b.model_info"); "model_info"] =
  [Some "demo.en.sample"; Some "a.model_info"; None; None; None].
Proof. vm_compute. reflexivity. Qed.

Example fonts :
  map is_font ["Font.ttf"; "FONT.OTF"; "xttf"; "ttf"; "font.ttf.bak"; "font.woff"] =
  [true; true; true; false; false; false].
Proof. vm_compute. reflexivity. Qed.

Example folders_of_a_path :
  rev (split "/" "/home/dev/release/demo/en.sample/build") =
  ["build"; "en.sample"; "demo"; "release"; "dev"; "home"; ""].
Proof. reflexivity. Qed.

(** C7: the code misses the info file whose stem is empty.  For the file
    name [.model_info] the stem violates the pattern, yet [compile] raises a
    [TypeError] at [match(...)[1]] and logs no identity error. *)
Lemma empty_stem_raises_TypeError :
  let w := Demo.world Cases.bare_suffix ∅ in
  is_model_info ".model_info" = true /\
  Regex.full_match MODEL_ID_PATTERN "" = false /\
  compile (Demo.env Demo.blank_info) Demo.trie_source w = (Thrown TypeError, w).
Proof. vm_compute. auto. Qed.

(** ** The structural check on the working directory *)

Lemma path_mismatch_spec (paths : list string) (model_id : string) :
  path_mismatch paths model_id = false <-> path_fits paths model_id.
Proof.
  unfold path_mismatch, path_fits.
  rewrite !orb_false_iff, !negb_false_iff, Nat.ltb_ge, bool_decide_eq_true, String.eqb_eq.
  split.
  - intros [[Hlen H0] Hid]. split; [exact Hlen|]. split; [exact H0|].
    destruct (lookup_lt_is_Some_2 paths 2%nat) as [author Ha]; [lia|].
    destruct (lookup_lt_is_Some_2 paths 1%nat) as [lang Hl]; [lia|].
    rewrite Ha, Hl in Hid. eauto.
  - intros (Hlen & H0 & author & lang & Ha & Hl & ->).
    rewrite Ha, Hl. auto.
Qed.

Lemma checkModelPath_ok E (model_id : string) (w : World) :
  path_mismatch (rev (split (path_sep E) (cwd w))) model_id = false ->
  checkModelPath E model_id w = (Value (rev (split (path_sep E) (cwd w))), w).
Proof. intros H. unfold checkModelPath, bind, process_cwd. now rewrite H. Qed.

Lemma checkModelPath_mismatch E (model_id : string) (w : World) :
  path_mismatch (rev (split (path_sep E) (cwd w))) model_id = true ->
  checkModelPath E model_id w =
  (ReturnedFalse,
   set_stderr (stderr w ++ [path_message (rev (split (path_sep E) (cwd w))) model_id]) w).
Proof. intros H. unfold checkModelPath, bind, process_cwd. now rewrite H. Qed.

(** C8: the structural check passes exactly when the working directory,
    split on the separator and reversed, has at least four segments, segment 0
    is [build], and segment 2, a dot and segment 1 make the identifier; on a
    mismatch [compile] returns false after a message that names the identifier
    read from the path and the model identifier. *)
Theorem path_check_iff (E : Env) (ms : LexicalModelSource) (model_id : string) (w : World) :
  let paths := rev (split (path_sep E) (cwd w)) in
  let message :=
    "Unexpected model path " +:+ show (paths !! 2%nat) +:+ "." +:+ show (paths !! 1%nat) +:+
    ", does not match model id " +:+ model_id in
  (path_fits paths model_id /\ checkModelPath E model_id w = (Value paths, w))
  \/
  (~ path_fits paths model_id /\
   checkModelPath E model_id w = (ReturnedFalse, set_stderr (stderr w ++ [message]) w) /\
   forall f info,
     findModelInfoFile w = (Value f, w) ->
     modelId f w = (Value model_id, w) ->
     loadModelInfo E f w = (Value info, w) ->
     compile E ms w = (ReturnedFalse, set_stderr (stderr w ++ [message]) w)).
Proof.
  intros paths message.
  destruct (path_mismatch paths model_id) eqn:Hm.
  - right.
    assert (Hcheck : checkModelPath E model_id w =
                     (ReturnedFalse, set_stderr (stderr w ++ [message]) w))
      by now apply checkModelPath_mismatch.
    split; [|split; [exact Hcheck|]].
    + rewrite <- path_mismatch_spec. fold paths. congruence.
    + intros f info Hf Hid Hinfo. unfold compile, prepare.
      apply bind_false.
      rewrite (bind_step _ _ _ _ _ Hf), (bind_step _ _ _ _ _ Hid),
        (bind_step _ _ _ _ _ Hinfo).
      now apply bind_false.
  - left. split; [now apply path_mismatch_spec | now apply checkModelPath_ok].
Qed.

(** The second scenario of the specification: the folder says
    [demo.en.sample] and the info file says [other.en.sample]. *)
Example other_identifier_is_refused :
  let w := Demo.world ["other.en.sample.model_info"; "source"] ∅ in
  compile (Demo.env Demo.blank_info) Demo.trie_source
    (set_files (<["../other.en.sample.model_info" := "{}"]> (files w)) w) =
  (ReturnedFalse,
   set_stderr
     ["Unexpected model path demo.en.sample, does not match model id other.en.sample"]
     (set_files (<["../other.en.sample.model_info" := "{}"]> (files w)) w)).
Proof. vm_compute. reflexivity. Qed.

(** ** The format [fst-foma-1.0] *)

Lemma emitModel_fst E ms oc texts func (w : World) :
  format ms = "fst-foma-1.0" ->
  emitModel E ms oc texts func w =
  (ReturnedFalse, set_stderr (stderr w ++ ["Unimplemented model format fst-foma-1.0"]) w).
Proof. intros H. unfold emitModel. rewrite H. reflexivity. Qed.

Lemma keeps_compile_fst E ms :
  format ms = "fst-foma-1.0" -> keeps logs_only (compile E ms).
Proof.
  intros Hf. unfold compile.
  apply (keeps_bind _ logs_only_trans); [apply keeps_prepare|].
  intros [[[id info] paths] texts] w.
  unfold emit. erewrite bind_false.
  2:{ apply bind_false. now apply emitModel_fst. }
  apply logs_only_set_stderr.
Qed.

(** C5: with the format [fst-foma-1.0] a build never succeeds and writes
    nothing, whatever the rest of the input is: once the identifier, the info
    file, the path and the sources have been read, [compile] logs
    [Unimplemented model format fst-foma-1.0] and returns false; before that
    it can only stop on the failure of one of those steps. *)
Theorem fst_foma_always_fails (E : Env) (ms : LexicalModelSource) (w : World) :
  format ms = "fst-foma-1.0" ->
  fst (compile E ms w) <> Value tt /\
  files (snd (compile E ms w)) = files w /\
  written (snd (compile E ms w)) = written w /\
  forall r,
    fst (prepare E ms w) = Value r ->
    compile E ms w =
    (ReturnedFalse, set_stderr (stderr w ++ ["Unimplemented model format fst-foma-1.0"]) w).
Proof.
  intros Hf.
  assert (Hreach : forall r, fst (prepare E ms w) = Value r ->
            compile E ms w =
            (ReturnedFalse,
             set_stderr (stderr w ++ ["Unimplemented model format fst-foma-1.0"]) w)).
  { intros [[[id info] paths] texts] Hr.
    destruct (prepare E ms w) as [o w1] eqn:Hp. simpl in Hr. subst o.
    pose proof (silent_prepare E ms _ _ _ Hp) as ->.
    unfold compile. rewrite (bind_step _ _ _ _ _ Hp).
    apply bind_false. unfold emit. apply bind_false. now apply emitModel_fst. }
  pose proof (logs_only_same_disk _ _ (keeps_compile_fst E ms Hf w)) as [Hfiles Hwritten].
  split; [|auto].
  destruct (prepare E ms w) as [[r| |e] w1] eqn:Hp.
  - rewrite (Hreach r eq_refl). discriminate.
  - unfold compile. rewrite (bind_false _ _ _ _ Hp). discriminate.
  - unfold compile. rewrite (bind_thrown _ _ _ _ _ Hp). discriminate.
Qed.

Lemma fst_foma_always_fails_witness :
  let w := Demo.world Demo.listing ∅ in
  let E := Demo.env Demo.blank_info in
  format Cases.fst_source = "fst-foma-1.0" /\
  fst (compile E Cases.fst_source w) <> Value tt /\
  files (snd (compile E Cases.fst_source w)) = files w /\
  written (snd (compile E Cases.fst_source w)) = written w /\
  forall r,
    fst (prepare E Cases.fst_source w) = Value r ->
    compile E Cases.fst_source w =
    (ReturnedFalse, set_stderr (stderr w ++ ["Unimplemented model format fst-foma-1.0"]) w).
Proof.
  split; [reflexivity|].
  exact (fst_foma_always_fails (Demo.env Demo.blank_info) Cases.fst_source
           (Demo.world Demo.listing ∅) eq_refl).
Defined.

(** The run of the witness: the sources are read, and then the refusal. *)
Example fst_foma_of_the_demo :
  compile (Demo.env Demo.blank_info) Cases.fst_source (Demo.world Demo.listing ∅) =
  (ReturnedFalse,
   set_stderr ["Unimplemented model format fst-foma-1.0"] (Demo.world Demo.listing ∅)).
Proof. vm_compute. reflexivity. Qed.

(** ** The text of the script *)

Lemma emitModel_custom E ms oc texts func (w : World) :
  format ms = "custom-1.0" ->
  emitModel E ms oc texts func w =
  (Value (func +:+ "com.keyman.lexicalModel.register();" +:+ nl +:+
          join nl (map (transpile E) texts) +:+
          "LMLayerWorker.loadModel(new " +:+ show (rootClass ms) +:+ "());" +:+ nl),
   w).
Proof.
  intros H. unfold emitModel. rewrite H. simpl. unfold ret. f_equal. f_equal.
  unfold funcPrefix, funcSuffix, transpileSources.
  rewrite !append_assoc. reflexivity.
Qed.

Lemma emitModel_appends E ms oc texts func (w : World) func' w' :
  emitModel E ms oc texts func w = (Value func', w') ->
  exists body, func' = func +:+ body.
Proof.
  unfold emitModel.
  destruct (format ms =? "custom-1.0")%string.
  { intros [= <- _]. rewrite append_assoc. eauto. }
  destruct (format ms =? "fst-foma-1.0")%string.
  { intros H. apply bind_value in H as (? & ? & _ & H). discriminate. }
  destruct (format ms =? "trie-1.0")%string.
  - intros H. apply bind_value in H as (trie & w1 & _ & H).
    injection H as <- _. rewrite !append_assoc. eauto.
  - intros H. apply bind_value in H as (? & ? & _ & H). discriminate.
Qed.

Lemma emitWordBreaker_appends E ms oc func (w : World) func' w' :
  emitWordBreaker E ms oc func w = (Value func', w') ->
  exists tail, func' = func +:+ tail.
Proof.
  unfold emitWordBreaker. destruct (wordBreaking ms) as [l|].
  2:{ intros [= <- _]. exists "". now rewrite append_nil_r. }
  intros H. apply bind_value in H as (wb & w1 & _ & H).
  apply bind_value in H as (wbs & w2 & _ & H).
  destruct (truthy wbs).
  - apply bind_value in H as (wb' & w3 & _ & H).
    injection H as <- _. rewrite append_assoc. eauto.
  - apply bind_value in H as (config & w3 & _ & H).
    injection H as <- _. eauto.
Qed.

(** Every script that [emit] produces is framed by the prologue and the
    epilogue. *)
Lemma emit_framed E ms id texts (w : World) script w' :
  emit E ms id texts w = (Value script, w') ->
  exists body, script = filePrefix +:+ body +:+ fileSuffix.
Proof.
  unfold emit. intros H.
  apply bind_value in H as (func1 & w1 & H1 & H).
  apply bind_value in H as (func2 & w2 & H2 & H).
  injection H as <- _.
  apply emitModel_appends in H1 as [body ->].
  apply emitWordBreaker_appends in H2 as [tail ->].
  exists (body +:+ tail). now rewrite !append_assoc.
Qed.

(** With the format [custom-1.0] the body is the empty registration, the
    transpiled sources in their order, the model, and then the word breaker. *)
Lemma emit_custom E ms id texts (w : World) script w' :
  format ms = "custom-1.0" ->
  emit E ms id texts w = (Value script, w') ->
  exists breaker,
    script =
    filePrefix +:+ "com.keyman.lexicalModel.register();" +:+ nl +:+
    join nl (map (transpile E) texts) +:+
    "LMLayerWorker.loadModel(new " +:+ show (rootClass ms) +:+ "());" +:+ nl +:+
    breaker +:+ fileSuffix.
Proof.
  intros Hf H. unfold emit in H.
  rewrite (bind_step _ _ _ _ _ (emitModel_custom E ms _ texts filePrefix w Hf)) in H.
  apply bind_value in H as (func2 & w2 & H2 & H).
  injection H as <- _.
  apply emitWordBreaker_appends in H2 as [tail ->].
  exists tail. now rewrite !append_assoc.
Qed.

Lemma keeps_weaken (R S : World -> World -> Prop) {A} (m : M A) :
  (forall w w', R w w' -> S w w') -> keeps R m -> keeps S m.
Proof. intros HRS Hm w. apply HRS, Hm. Qed.

Lemma keeps_delete_sources l : keeps same_disk (delete_sources l).
Proof. intros w. unfold delete_sources. destruct (heap w !! l); now split. Qed.

Lemma keeps_emitWordBreaker E ms oc func : keeps same_disk (emitWordBreaker E ms oc func).
Proof.
  unfold emitWordBreaker, readSources.
  repeat first
    [ apply keeps_delete_sources
    | progress (frame same_disk_refl same_disk_trans)
    | match goal with |- keeps _ (if ?b then _ else _) => destruct b end ].
Qed.

Lemma keeps_emit E ms id texts : keeps same_disk (emit E ms id texts).
Proof.
  unfold emit.
  apply (keeps_bind _ same_disk_trans).
  { eapply keeps_weaken; [apply logs_only_same_disk | apply keeps_emitModel]. }
  intros func1. apply (keeps_bind _ same_disk_trans); [apply keeps_emitWordBreaker|].
  intros func2. apply (keeps_ret _ same_disk_refl).
Qed.

(** What the sources are: the files of the source folder, decoded, in the
    order of the list. *)
Lemma readSources_spec E names (w : World) texts w' :
  readSources E names w = (Value texts, w') ->
  Forall2 (fun name text =>
             exists bytes,
               files w !! path_join E sourcePath name = Some bytes /\
               text = utf8_decode E bytes)
          names texts.
Proof.
  unfold readSources. revert texts w'.
  induction names as [|name names IH]; simpl; intros texts w' H.
  - injection H as <- _. constructor.
  - apply bind_value in H as (text & w1 & H1 & H).
    apply bind_value in H as (rest & w2 & H2 & H).
    injection H as <- _.
    pose proof (silent_readFileSync E _ _ _ _ H1) as ->.
    constructor; [|eapply IH; exact H2].
    unfold readFileSync in H1. destruct (files w !! path_join E sourcePath name) as [bytes|];
      [|discriminate].
    injection H1 as <-. eauto.
Qed.

(** ** The state of the heap *)

Lemma same_heap_refl (w : World) : same_heap w w.
Proof. reflexivity. Qed.

Lemma same_heap_trans (a b c : World) : same_heap a b -> same_heap b c -> same_heap a c.
Proof. unfold same_heap. congruence. Qed.

Lemma keeps_heap_writeFileSync E name text : keeps same_heap (writeFileSync E name text).
Proof. intros w. reflexivity. Qed.

Lemma keeps_heap_buildKmpFile E data name : keeps same_heap (buildKmpFile E data name).
Proof. intros w. reflexivity. Qed.

Lemma keeps_heap_Date : keeps same_heap Date_toISOString.
Proof. intros w. reflexivity. Qed.

Lemma keeps_heap_publish E id info paths func : keeps same_heap (publish E id info paths func).
Proof.
  unfold publish, buildPackage, mergeModelInfo.
  repeat first
    [ apply keeps_heap_writeFileSync
    | apply keeps_heap_buildKmpFile
    | apply keeps_heap_Date
    | progress (frame same_heap_refl same_heap_trans) ].
Qed.

(** The only change that [emitWordBreaker] makes to the heap: the list of
    sources of the author's word-breaking object is deleted, through the
    reference that the compiled descriptor shares with the description. *)
Lemma emitWordBreaker_heap E ms oc func (w : World) :
  oc_wordBreaking oc = wordBreaking ms ->
  heap (snd (emitWordBreaker E ms oc func w)) = heap w \/
  exists l o names,
    wordBreaking ms = Some l /\ heap w !! l = Some o /\ wb_sources o = Some names /\
    heap (snd (emitWordBreaker E ms oc func w)) = <[l := without_sources o]> (heap w).
Proof.
  intros Hoc.
  destruct (emitWordBreaker E ms oc func w) as [out w'] eqn:Hrun. simpl.
  unfold emitWordBreaker in Hrun. rewrite Hoc in Hrun.
  destruct (wordBreaking ms) as [l|]; [|injection Hrun as _ <-; now left].
  unfold bind, deref, delete_sources, ret in Hrun.
  destruct (heap w !! l) as [o|] eqn:Hl; [|injection Hrun as _ <-; now left].
  destruct (wb_sources o) as [names|] eqn:Hs.
  - pose proof (keeps_readSources E names w) as Hk.
    destruct (readSources E names w) as [[texts| |e] w1] eqn:Hr; simpl in Hk.
    + pose proof (silent_readSources E names _ _ _ Hr) as ->.
      rewrite Hl in Hrun. simpl in Hrun.
      right. exists l, o, names. repeat (split; [reflexivity || assumption|]).
      destruct (negb _); simpl in Hrun; rewrite lookup_insert_eq in Hrun;
        injection Hrun as _ <-; reflexivity.
    + left. injection Hrun as _ <-. exact (logs_only_heap _ _ Hk).
    + left. injection Hrun as _ <-. exact (logs_only_heap _ _ Hk).
  - left. simpl in Hrun. rewrite Hl in Hrun. injection Hrun as _ <-. reflexivity.
Qed.

Lemma emit_heap E ms id texts (w : World) :
  heap (snd (emit E ms id texts w)) = heap w \/
  exists l o names,
    wordBreaking ms = Some l /\ heap w !! l = Some o /\ wb_sources o = Some names /\
    heap (snd (emit E ms id texts w)) = <[l := without_sources o]> (heap w).
Proof.
  destruct (emit E ms id texts w) as [out w'] eqn:Hrun. simpl.
  unfold emit, bind, ret in Hrun.
  set (oc := {| oc_id := id; oc_format := format ms;
                oc_wordBreaking := wordBreaking ms; oc_fst := None |}) in Hrun.
  pose proof (keeps_emitModel E ms oc texts filePrefix w) as Hk.
  destruct (emitModel E ms oc texts filePrefix w) as [[func1| |e] w1] eqn:H1; simpl in Hk.
  - pose proof (silent_emitModel E ms oc texts filePrefix _ _ _ H1) as ->.
    pose proof (emitWordBreaker_heap E ms oc func1 w eq_refl) as Hh.
    destruct (emitWordBreaker E ms oc func1 w) as [[func2| |e] w2];
      injection Hrun as _ <-; exact Hh.
  - left. injection Hrun as _ <-. exact (logs_only_heap _ _ Hk).
  - left. injection Hrun as _ <-. exact (logs_only_heap _ _ Hk).
Qed.

(** Where [compile] leaves the heap: as it was, or with the sources of the
    author's word-breaking object deleted. *)
Lemma compile_heap E ms (w : World) :
  heap (snd (compile E ms w)) = heap w \/
  exists l o names,
    wordBreaking ms = Some l /\ heap w !! l = Some o /\ wb_sources o = Some names /\
    heap (snd (compile E ms w)) = <[l := without_sources o]> (heap w).
Proof.
  destruct (compile E ms w) as [out w'] eqn:Hrun. simpl.
  unfold compile, bind in Hrun.
  pose proof (keeps_prepare E ms w) as Hk.
  destruct (prepare E ms w) as [[[[[id info] paths] texts]| |e] w1] eqn:Hp; simpl in Hk.
  2,3: left; injection Hrun as _ <-; exact (logs_only_heap _ _ Hk).
  pose proof (silent_prepare E ms _ _ _ Hp) as ->.
  pose proof (emit_heap E ms id texts w) as Hh.
  destruct (emit E ms id texts w) as [[func| |e] w2]; simpl in Hh.
  2,3: injection Hrun as _ <-; exact Hh.
  pose proof (keeps_heap_publish E id info paths func w2) as Hpub.
  rewrite Hrun in Hpub. unfold same_heap in Hpub. simpl in Hpub.
  rewrite Hpub. exact Hh.
Qed.

(** Without a word breaker, or with one that lists no sources, the
    description of the author is after the build what it was before. *)
Lemma compile_keeps_description E ms (w : World) :
  (forall l o, wordBreaking ms = Some l -> heap w !! l = Some o -> wb_sources o = None) ->
  describe (heap (snd (compile E ms w))) ms = describe (heap w) ms.
Proof.
  intros Hno. destruct (compile_heap E ms w) as [-> | (l & o & names & Hwb & Hl & Hs & _)].
  - reflexivity.
  - rewrite (Hno l o Hwb Hl) in Hs. discriminate.
Qed.

(** C1: the claim is right and the code is not.  The compiled descriptor
    holds the very word-breaking object of the description, so
    [delete oc.wordBreaking.sources] removes the list from the author's input:
    after a successful build of a custom model with a word breaker of its own,
    the description has lost the sources of its word breaker. *)
Lemma compile_deletes_the_authors_sources :
  let w := Demo.world Demo.listing Cases.custom_heap in
  let w' := snd (compile (Demo.env Demo.blank_info) Cases.custom_source w) in
  fst (compile (Demo.env Demo.blank_info) Cases.custom_source w) = Value tt /\
  d_wordBreaking (describe (heap w) Cases.custom_source) =
    Some {| wb_sources := Some ["breaker.ts"]; wb_rootClass := Some "Breaker";
            wb_config := [] |} /\
  d_wordBreaking (describe (heap w') Cases.custom_source) =
    Some {| wb_sources := None; wb_rootClass := Some "Breaker"; wb_config := [] |}.
Proof. vm_compute. auto. Qed.

(** ** What [publish] writes *)

Lemma publish_written E id info paths func (w : World) :
  exists rest,
    written (snd (publish E id info paths func w)) =
      (written w ++ WroteText (id +:+ ".model.js") func :: rest)%list /\
    (rest = [] \/
     (exists kmp, rest = [WroteArchive (id +:+ ".model.kmp") kmp]) \/
     (exists kmp mi,
        rest = [WroteArchive (id +:+ ".model.kmp") kmp;
                WroteText (id +:+ ".model_info") (JSON_stringify E mi)])).
Proof.
  destruct (publish E id info paths func w) as [out w'] eqn:Hrun. simpl.
  unfold publish, buildPackage, mergeModelInfo, bind, writeFileSync, readFileSync,
    buildKmpFile, statSync_size, Date_toISOString, lift, ret, throw in Hrun.
  simpl in Hrun.
  repeat match type of Hrun with
         | context [match ?x with Some _ => _ | None => _ end] =>
             destruct x; simpl in Hrun
         end;
    injection Hrun as _ <-; simpl; rewrite <- ?app_assoc; simpl; eauto 8.
Qed.

Lemma not_the_script_rest E id (rest : list Written) :
  (rest = [] \/
   (exists kmp, rest = [WroteArchive (id +:+ ".model.kmp") kmp]) \/
   (exists kmp mi,
      rest = [WroteArchive (id +:+ ".model.kmp") kmp;
              WroteText (id +:+ ".model_info") (JSON_stringify E mi)])) ->
  Forall (not_the_script id) rest.
Proof.
  assert (Hinfo : forall t u, WroteText (id +:+ ".model_info") t <> WroteText (id +:+ ".model.js") u).
  { intros t u [= H _]. apply append_inv_head in H. discriminate. }
  intros [-> | [[kmp ->] | (kmp & mi & ->)]]; repeat constructor;
    intros text; try discriminate; apply Hinfo.
Qed.

(** The texts that a successful preparation hands on are those of the
    sources, in the order of the list. *)
Lemma prepare_sources E ms (w : World) id info paths texts w' :
  prepare E ms w = (Value (id, info, paths, texts), w') ->
  Forall2 (source_text E w) (sources ms) texts.
Proof.
  intros Hp. unfold prepare in Hp.
  apply bind_value in Hp as (f & w1 & H1 & Hp).
  pose proof (silent_findModelInfoFile _ _ _ H1) as ->.
  apply bind_value in Hp as (id' & w2 & H2 & Hp).
  pose proof (silent_modelId f _ _ _ H2) as ->.
  apply bind_value in Hp as (info' & w3 & H3 & Hp).
  pose proof (silent_loadModelInfo E f _ _ _ H3) as ->.
  apply bind_value in Hp as (paths' & w4 & H4 & Hp).
  pose proof (silent_checkModelPath E id' _ _ _ H4) as ->.
  apply bind_value in Hp as (texts' & w5 & H5 & Hp).
  injection Hp as _ _ _ <- _.
  exact (readSources_spec E _ _ _ _ H5).
Qed.

Lemma compile_value E ms (w w' : World) :
  compile E ms w = (Value tt, w') ->
  exists id info paths texts script w0,
    prepare E ms w = (Value (id, info, paths, texts), w) /\
    emit E ms id texts w = (Value script, w0) /\
    publish E id info paths script w0 = (Value tt, w').
Proof.
  unfold compile. intros H.
  apply bind_value in H as ([[[id info] paths] texts] & w1 & Hp & H).
  pose proof (silent_prepare E ms _ _ _ Hp) as ->.
  apply bind_value in H as (script & w0 & He & H).
  exists id, info, paths, texts, script, w0. auto.
Qed.

(** A build either stops before it writes anything, or writes the script
    first, once, under the name of the identifier. *)
Lemma compile_written E ms (w : World) :
  (fst (compile E ms w) <> Value tt /\ written (snd (compile E ms w)) = written w)
  \/
  (exists id info paths texts script w0 rest,
     prepare E ms w = (Value (id, info, paths, texts), w) /\
     emit E ms id texts w = (Value script, w0) /\
     written (snd (compile E ms w)) =
       (written w ++ WroteText (id +:+ ".model.js") script :: rest)%list /\
     Forall (not_the_script id) rest).
Proof.
  pose proof (keeps_prepare E ms w) as Hk.
  destruct (prepare E ms w) as [[[[[id info] paths] texts]| |e] w1] eqn:Hp; simpl in Hk.
  2:{ left. unfold compile. rewrite (bind_false _ _ _ _ Hp). simpl.
      split; [discriminate | apply (logs_only_same_disk _ _ Hk)]. }
  2:{ left. unfold compile. rewrite (bind_thrown _ _ _ _ _ Hp). simpl.
      split; [discriminate | apply (logs_only_same_disk _ _ Hk)]. }
  pose proof (silent_prepare E ms _ _ _ Hp) as ->.
  pose proof (keeps_emit E ms id texts w) as [_ Hw].
  unfold compile. rewrite (bind_step _ _ _ _ _ Hp).
  destruct (emit E ms id texts w) as [[script| |e] w0] eqn:He; simpl in Hw.
  2:{ left. rewrite (bind_false _ _ _ _ He). simpl. split; [discriminate | exact Hw]. }
  2:{ left. rewrite (bind_thrown _ _ _ _ _ He). simpl. split; [discriminate | exact Hw]. }
  right. rewrite (bind_step _ _ _ _ _ He).
  destruct (publish_written E id info paths script w0) as (rest & Hrest & Hshape).
  exists id, info, paths, texts, script, w0, rest.
  repeat (split; [first [reflexivity | assumption]|]). rewrite Hrest, Hw.
  split; [reflexivity | now apply (not_the_script_rest E)].
Qed.

(** C10: whenever a build writes a script, whatever the format and with or
    without a word breaker, the text written begins with the prologue
    [(function() {], newline, ['use strict';], newline, and ends with the
    epilogue [})();]; the script is the first file written and is written
    once. *)
Theorem script_is_framed (E : Env) (ms : LexicalModelSource) (w : World) :
  (fst (compile E ms w) <> Value tt /\ written (snd (compile E ms w)) = written w)
  \/
  (exists id body rest,
     written (snd (compile E ms w)) =
       (written w ++
        WroteText (id +:+ ".model.js") (filePrefix +:+ body +:+ fileSuffix) :: rest)%list /\
     Forall (not_the_script id) rest).
Proof.
  destruct (compile_written E ms w)
    as [H | (id & info & paths & texts & script & w0 & rest & _ & He & Hw & Hrest)];
    [now left | right].
  apply emit_framed in He as [body ->]. eauto.
Qed.

(** The generator puts one registration call ahead of the sources: a
    script that starts with the prologue and the call has one registration
    more than what follows the call. *)
Lemma registrations_after_call (rest : string) :
  registrations (filePrefix +:+ "com.keyman.lexicalModel.register();" +:+ nl +:+ rest) =
  S (registrations rest).
Proof. reflexivity. Qed.

(** A custom build that gets through the checks and the word breaker
    writes its script. *)
Lemma compile_custom_written E ms (w : World) id info paths texts func w0 :
  format ms = "custom-1.0" ->
  prepare E ms w = (Value (id, info, paths, texts), w) ->
  emitWordBreaker E ms
    {| oc_id := id; oc_format := format ms;
       oc_wordBreaking := wordBreaking ms; oc_fst := None |}
    (filePrefix +:+ "com.keyman.lexicalModel.register();" +:+ nl +:+
     join nl (map (transpile E) texts) +:+
     "LMLayerWorker.loadModel(new " +:+ show (rootClass ms) +:+ "());" +:+ nl) w =
  (Value func, w0) ->
  exists rest,
    written (snd (compile E ms w)) =
      (written w ++ WroteText (id +:+ ".model.js") (func +:+ fileSuffix) :: rest)%list /\
    Forall (not_the_script id) rest.
Proof.
  intros Hf Hp Hwb.
  assert (He : emit E ms id texts w = (Value (func +:+ fileSuffix), w0)).
  { unfold emit.
    rewrite (bind_step _ _ _ _ _ (emitModel_custom E ms _ texts filePrefix w Hf)).
    rewrite (bind_step _ _ _ _ _ Hwb). reflexivity. }
  pose proof (keeps_emit E ms id texts w) as [_ Hw]. rewrite He in Hw. simpl in Hw.
  unfold compile. rewrite (bind_step _ _ _ _ _ Hp), (bind_step _ _ _ _ _ He).
  destruct (publish_written E id info paths (func +:+ fileSuffix) w0) as (rest & Hrest & Hshape).
  exists rest. rewrite Hrest, Hw. split; [reflexivity | now apply (not_the_script_rest E)].
Qed.

(** C6, as the claim states it, fails: the registration call that the
    generator emits is not the only one when a source has one of its own.
    The build below succeeds, and its script has two. *)
Lemma a_source_can_register_again :
  let E := Demo.env Demo.blank_info in
  let run := compile E More.registering_source More.world_with_registration in
  format More.registering_source = "custom-1.0" /\
  fst run = Value tt /\
  exists script,
    written (snd run) !! 0%nat = Some (WroteText "demo.en.sample.model.js" script) /\
    script =
      filePrefix +:+ "com.keyman.lexicalModel.register();" +:+ nl +:+
      "com.keyman.lexicalModel.register();" +:+
      "LMLayerWorker.loadModel(new Demo());" +:+ nl +:+ fileSuffix /\
    registrations script = 2%nat.
Proof.
  split; [reflexivity|]. split; [vm_compute; reflexivity|].
  eexists. split; [vm_compute; reflexivity|].
  split; vm_compute; reflexivity.
Qed.

(** C6, amended: with the format [custom-1.0], a build that has found
    its identifier, its info file, its folder and its sources, and whose
    word-breaker stage yields a text, writes a script: the prologue, one
    registration call with no argument, a newline, the transpiled texts of the
    sources joined by newlines in the order of the list of sources, the call
    that loads a new instance of the root class, whatever the word breaker adds
    (nothing without a word breaker), and the epilogue.  The script has one
    registration call more than the part that follows the call, so exactly one
    unless the transpiled sources, the root class or the word breaker bring
    their own.  No other build with this format writes anything but such a
    script first. *)
Theorem custom_script_layout (E : Env) (ms : LexicalModelSource) (w : World) :
  format ms = "custom-1.0" ->
  ((fst (compile E ms w) <> Value tt /\ written (snd (compile E ms w)) = written w)
   \/
   (exists id texts breaker rest,
      Forall2 (source_text E w) (sources ms) texts /\
      written (snd (compile E ms w)) =
        (written w ++
         WroteText (id +:+ ".model.js")
           (filePrefix +:+ "com.keyman.lexicalModel.register();" +:+ nl +:+
            join nl (map (transpile E) texts) +:+
            "LMLayerWorker.loadModel(new " +:+ show (rootClass ms) +:+ "());" +:+ nl +:+
            breaker +:+ fileSuffix) :: rest)%list /\
      Forall (not_the_script id) rest))
  /\
  (forall id info paths texts func w0,
     let head :=
       filePrefix +:+ "com.keyman.lexicalModel.register();" +:+ nl +:+
       join nl (map (transpile E) texts) +:+
       "LMLayerWorker.loadModel(new " +:+ show (rootClass ms) +:+ "());" +:+ nl in
     prepare E ms w = (Value (id, info, paths, texts), w) ->
     emitWordBreaker E ms
       {| oc_id := id; oc_format := format ms;
          oc_wordBreaking := wordBreaking ms; oc_fst := None |} head w = (Value func, w0) ->
     Forall2 (source_text E w) (sources ms) texts /\
     exists breaker rest,
       func = head +:+ breaker /\
       (wordBreaking ms = None -> breaker = "") /\
       written (snd (compile E ms w)) =
         (written w ++
          WroteText (id +:+ ".model.js")
            (filePrefix +:+ "com.keyman.lexicalModel.register();" +:+ nl +:+
             join nl (map (transpile E) texts) +:+
             "LMLayerWorker.loadModel(new " +:+ show (rootClass ms) +:+ "());" +:+ nl +:+
             breaker +:+ fileSuffix) :: rest)%list /\
       Forall (not_the_script id) rest /\
       registrations
         (filePrefix +:+ "com.keyman.lexicalModel.register();" +:+ nl +:+
          join nl (map (transpile E) texts) +:+
          "LMLayerWorker.loadModel(new " +:+ show (rootClass ms) +:+ "());" +:+ nl +:+
          breaker +:+ fileSuffix) =
       S (registrations
            (join nl (map (transpile E) texts) +:+
             "LMLayerWorker.loadModel(new " +:+ show (rootClass ms) +:+ "());" +:+ nl +:+
             breaker +:+ fileSuffix))).
Proof.
  intros Hf. split.
  - destruct (compile_written E ms w)
      as [H | (id & info & paths & texts & script & w0 & rest & Hp & He & Hw & Hrest)];
      [now left | right].
    apply (emit_custom E ms id texts w script w0 Hf) in He as [breaker ->].
    exists id, texts, breaker, rest. split; [|auto].
    apply prepare_sources in Hp. exact Hp.
  - intros id info paths texts func w0 head Hp Hwb.
    split; [exact (prepare_sources E ms w id info paths texts w Hp)|].
    destruct (compile_custom_written E ms w id info paths texts func w0 Hf Hp Hwb)
      as (rest & Hw & Hrest).
    destruct (emitWordBreaker_appends E ms _ _ _ _ _ Hwb) as [breaker Hb].
    exists breaker, rest. split; [exact Hb|]. split.
    { intros Hnone. unfold emitWordBreaker in Hwb. rewrite Hnone in Hwb.
      injection Hwb as <- _. rewrite <- (append_nil_r head) in Hb at 1.
      apply append_inv_head in Hb. now symmetry. }
    split; [|split; [exact Hrest | apply registrations_after_call]].
    rewrite Hw, Hb. unfold head. rewrite !append_assoc. reflexivity.
Qed.

Lemma custom_script_layout_witness :
  let E := Demo.env Demo.blank_info in
  let ms := Cases.custom_source in
  let w := Demo.world Demo.listing Cases.custom_heap in
  let head :=
    filePrefix +:+ "com.keyman.lexicalModel.register();" +:+ nl +:+
    join nl (map (transpile E) ["class Demo {}"]) +:+
    "LMLayerWorker.loadModel(new " +:+ show (rootClass ms) +:+ "());" +:+ nl in
  let oc := {| oc_id := "demo.en.sample"; oc_format := format ms;
               oc_wordBreaking := wordBreaking ms; oc_fst := None |} in
  (format ms = "custom-1.0" /\
   prepare E ms w =
     (Value ("demo.en.sample", Demo.blank_info, Rerun.folders, ["class Demo {}"]), w) /\
   emitWordBreaker E ms oc head w =
     (Value (head +:+ custom_breaker "class Breaker {}" (Some "Breaker")),
      snd (emitWordBreaker E ms oc head w))) /\
  Forall2 (source_text E w) (sources ms) ["class Demo {}"] /\
  exists breaker rest,
    head +:+ custom_breaker "class Breaker {}" (Some "Breaker") = head +:+ breaker /\
    (wordBreaking ms = None -> breaker = "") /\
    written (snd (compile E ms w)) =
      (written w ++
       WroteText ("demo.en.sample" +:+ ".model.js")
         (filePrefix +:+ "com.keyman.lexicalModel.register();" +:+ nl +:+
          join nl (map (transpile E) ["class Demo {}"]) +:+
          "LMLayerWorker.loadModel(new " +:+ show (rootClass ms) +:+ "());" +:+ nl +:+
          breaker +:+ fileSuffix) :: rest)%list /\
    Forall (not_the_script "demo.en.sample") rest /\
    registrations
      (filePrefix +:+ "com.keyman.lexicalModel.register();" +:+ nl +:+
       join nl (map (transpile E) ["class Demo {}"]) +:+
       "LMLayerWorker.loadModel(new " +:+ show (rootClass ms) +:+ "());" +:+ nl +:+
       breaker +:+ fileSuffix) =
    S (registrations
         (join nl (map (transpile E) ["class Demo {}"]) +:+
          "LMLayerWorker.loadModel(new " +:+ show (rootClass ms) +:+ "());" +:+ nl +:+
          breaker +:+ fileSuffix)).
Proof.
  intros E ms w head oc.
  assert (Hf : format ms = "custom-1.0") by reflexivity.
  assert (Hp : prepare E ms w =
               (Value ("demo.en.sample", Demo.blank_info, Rerun.folders, ["class Demo {}"]), w))
    by (vm_compute; reflexivity).
  assert (Hwb : emitWordBreaker E ms oc head w =
                (Value (head +:+ custom_breaker "class Breaker {}" (Some "Breaker")),
                 snd (emitWordBreaker E ms oc head w)))
    by (vm_compute; reflexivity).
  split; [split; [exact Hf | split; [exact Hp | exact Hwb]]|].
  exact (proj2 (custom_script_layout E ms w Hf)
           "demo.en.sample" Demo.blank_info Rerun.folders ["class Demo {}"] _ _ Hp Hwb).
Defined.

(** A build with two sources and no word breaker: the script, with the
    sources in their order. *)
Example custom_script_of_the_demo :
  written (snd (compile (Demo.env Demo.blank_info)
                  {| format := "custom-1.0"; sources := ["model.ts"; "wordlist.tsv"];
                     rootClass := Some "Demo"; wordBreaking := None |}
                  (Demo.world Demo.listing ∅))) !! 0%nat =
  Some (WroteText "demo.en.sample.model.js"
          (filePrefix +:+ "com.keyman.lexicalModel.register();" +:+ nl +:+
           "class Demo {}" +:+ nl +:+ "hello" +:+
           "LMLayerWorker.loadModel(new Demo());" +:+ nl +:+ fileSuffix)).
Proof. vm_compute. reflexivity. Qed.

(** ** The merge of the manifest *)

Lemma statSync_size_value path (w : World) size w' :
  statSync_size path w = (Value size, w') -> w' = w /\ file_size w path = Some size.
Proof.
  unfold statSync_size, file_size, size_on.
  destruct (files w !! path); [|discriminate]. intros [= <- <-]. auto.
Qed.

Lemma statSync_size_run path (w : World) size :
  file_size w path = Some size -> statSync_size path w = (Value size, w).
Proof.
  unfold statSync_size, file_size, size_on.
  destruct (files w !! path); [|discriminate]. simpl. now intros [= <-].
Qed.

Lemma mergeModelInfo_value id kf mf kmp paths info (w : World) mi w' :
  mergeModelInfo id kf mf kmp paths info w = (Value mi, w') ->
  w' = w /\
  exists psize jsize,
    file_size w (or_string (mi_packageFilename info) kf) = Some psize /\
    file_size w (or_string (mi_jsFilename info) mf) = Some jsize /\
    mi = merged id kf mf kmp paths (now w) psize jsize info.
Proof.
  unfold mergeModelInfo. intros H.
  apply bind_value in H as (date & w1 & H1 & H).
  injection H1 as <- <-.
  apply bind_value in H as (psize & w2 & H2 & H).
  apply statSync_size_value in H2 as [-> Hp].
  apply bind_value in H as (jsize & w3 & H3 & H).
  apply statSync_size_value in H3 as [-> Hj].
  injection H as <- <-. split; [reflexivity|]. exists psize, jsize. auto.
Qed.

Lemma mergeModelInfo_run id kf mf kmp paths info (w : World) psize jsize :
  file_size w (or_string (mi_packageFilename info) kf) = Some psize ->
  file_size w (or_string (mi_jsFilename info) mf) = Some jsize ->
  mergeModelInfo id kf mf kmp paths info w =
  (Value (merged id kf mf kmp paths (now w) psize jsize info), w).
Proof.
  intros Hp Hj. unfold mergeModelInfo.
  rewrite (bind_step _ _ _ _ _ (eq_refl : Date_toISOString w = (Value (now w), w))).
  rewrite (bind_step _ _ _ _ _ (statSync_size_run _ _ _ Hp)).
  rewrite (bind_step _ _ _ _ _ (statSync_size_run _ _ _ Hj)).
  reflexivity.
Qed.

Lemma or_string_truthy (a : option string) (b : string) :
  truthy a = true -> Some (or_string a b) = a.
Proof.
  destruct a as [s|]; simpl; [|discriminate].
  destruct (s =? "")%string; [discriminate | reflexivity].
Qed.

Lemma or_string_blank (a : option string) (b : string) :
  truthy a = false -> or_string a b = b.
Proof.
  destruct a as [s|]; simpl; [|reflexivity].
  destruct (s =? "")%string; [reflexivity | discriminate].
Qed.

Lemma or_option_truthy (a b : option string) : truthy a = true -> or_option a b = a.
Proof. unfold or_option. now intros ->. Qed.

(** [(a || b) || b] is [a || b]. *)
Lemma or_string_again (a : option string) (b : string) :
  or_string (Some (or_string a b)) b = or_string a b.
Proof.
  simpl. destruct (or_string a b =? "")%string eqn:H; [|reflexivity].
  apply String.eqb_eq in H. rewrite H.
  destruct a as [s|]; simpl in *; [|congruence].
  destruct (s =? "")%string eqn:Hs; [congruence|].
  subst s. discriminate.
Qed.

(** [(a || b) || c] is [a || b] when [b] is not blank. *)
Lemma or_string_settled (a : option string) (b c : string) :
  b <> "" -> or_string (Some (or_string a b)) c = or_string a b.
Proof.
  intros Hb. simpl. destruct (or_string a b =? "")%string eqn:H; [|reflexivity].
  apply String.eqb_eq in H. exfalso.
  destruct a as [s|]; simpl in *; [|congruence].
  destruct (s =? "")%string eqn:Hs; [congruence|].
  subst s. discriminate.
Qed.

Lemma or_option_again (a b : option string) : or_option (or_option a b) b = or_option a b.
Proof.
  unfold or_option. destruct (truthy a) eqn:Ha; [now rewrite Ha|].
  now destruct (truthy b).
Qed.

Lemma merged_author_values_kept id kf mf kmp paths date psize jsize info :
  author_values_kept info (merged id kf mf kmp paths date psize jsize info).
Proof.
  unfold author_values_kept, merged; simpl.
  repeat split; try apply or_string_truthy; try apply or_option_truthy.
  intros [l Hl]. now rewrite Hl.
Qed.

(** Merging a merged manifest again, at any later time, changes nothing as
    long as the files it names have the sizes they had. *)
Lemma merged_again id kf mf kmp paths date date' psize jsize info :
  date <> "" ->
  merged id kf mf kmp paths date' psize jsize
    (merged id kf mf kmp paths date psize jsize info) =
  merged id kf mf kmp paths date psize jsize info.
Proof.
  intros Hdate. unfold merged; simpl mi_name; simpl mi_authorName;
    simpl mi_authorEmail; simpl mi_languages; simpl mi_lastModifiedDate;
    simpl mi_packageFilename; simpl mi_jsFilename; simpl mi_version;
    simpl mi_minKeymanVersion; simpl mi_sourcePath; simpl mi_license;
    simpl mi_description.
  rewrite !or_string_again, or_option_again, (or_string_settled _ date date' Hdate).
  destruct (mi_languages info); reflexivity.
Qed.

(** C9: the merge is idempotent.  A manifest that came out of the merge,
    merged again with the same identifier, package data and path segments, at
    whatever later time, while the files it names have the sizes they had,
    comes out equal in every field, the two sizes and the included assets
    among them. *)
Theorem merge_is_idempotent (id : string) (kmp : KmpJsonFile) (paths : list string)
    (info mi : ModelInfoFile) (w w2 : World) :
  now w <> "" ->
  mergeModelInfo id (id +:+ ".model.kmp") (id +:+ ".model.js") kmp paths info w
    = (Value mi, w) ->
  (forall name, file_size w2 name = file_size w name) ->
  mergeModelInfo id (id +:+ ".model.kmp") (id +:+ ".model.js") kmp paths mi w2
    = (Value mi, w2).
Proof.
  intros Hnow H Hsizes.
  apply mergeModelInfo_value in H as (_ & psize & jsize & Hp & Hj & ->).
  rewrite (mergeModelInfo_run _ _ _ _ _ _ w2 psize jsize).
  - now rewrite merged_again.
  - simpl mi_packageFilename. now rewrite or_string_again, Hsizes.
  - simpl mi_jsFilename. now rewrite or_string_again, Hsizes.
Qed.

(** The same on a manifest that is filled in throughout: when its
    identifier, its included assets and its two sizes are those of the build
    at hand, the merge gives it back as it is. *)
Lemma merge_fixes_populated_manifest (id : string) (kmp : KmpJsonFile)
    (paths : list string) (m : ModelInfoFile) (w : World) :
  fully_populated m ->
  records_build id kmp w m ->
  mergeModelInfo id (id +:+ ".model.kmp") (id +:+ ".model.js") kmp paths m w
    = (Value m, w).
Proof.
  intros (_ & Hname & _ & Hversion & [langs Hlangs] & Hauthor & Hemail & _ & Hdate &
          Hpf & [psize Hpsize] & Hjf & [jsize Hjsize] & _ & Hmin & Hsrc)
         (Hid & Hincl & (package & Hpackage & Hps) & (js & Hjs & Hjss)).
  assert (Hp : or_string (mi_packageFilename m) (id +:+ ".model.kmp") = package).
  { pose proof (or_string_truthy _ (id +:+ ".model.kmp") Hpf) as H. congruence. }
  assert (Hj : or_string (mi_jsFilename m) (id +:+ ".model.js") = js).
  { pose proof (or_string_truthy _ (id +:+ ".model.js") Hjf) as H. congruence. }
  rewrite (mergeModelInfo_run _ _ _ _ _ _ w psize jsize) by congruence.
  f_equal. unfold merged.
  rewrite (or_string_truthy _ _ Hname), (or_string_truthy _ _ Hauthor),
    (or_option_truthy _ _ Hemail), (or_string_truthy _ _ Hdate),
    (or_string_truthy _ _ Hpf), (or_string_truthy _ _ Hjf),
    (or_string_truthy _ _ Hversion), (or_string_truthy _ _ Hmin),
    (or_string_truthy _ _ Hsrc), Hlangs, <- Hid, <- Hincl, <- Hpsize, <- Hjsize.
  destruct m. simpl in *. congruence.
Qed.

(** A build that goes through: the three files written, and the disk on
    which the two sizes were measured. *)
Lemma publish_value E id info paths script (w0 w' : World) :
  publish E id info paths script w0 = (Value tt, w') ->
  exists kmp psize jsize,
    let disk :=
      <[id +:+ ".model.kmp" := kmp_archive E kmp]>
        (<[id +:+ ".model.js" := utf8_encode E script]> (files w0)) in
    let mi :=
      merged id (id +:+ ".model.kmp") (id +:+ ".model.js") kmp paths (now w0)
        psize jsize info in
    size_on disk (or_string (mi_packageFilename info) (id +:+ ".model.kmp")) = Some psize /\
    size_on disk (or_string (mi_jsFilename info) (id +:+ ".model.js")) = Some jsize /\
    written w' =
      (written w0 ++
       [WroteText (id +:+ ".model.js") script;
        WroteArchive (id +:+ ".model.kmp") kmp;
        WroteText (id +:+ ".model_info") (JSON_stringify E mi)])%list /\
    files w' = <[id +:+ ".model_info" := utf8_encode E (JSON_stringify E mi)]> disk.
Proof.
  unfold publish. intros H.
  apply bind_value in H as ([] & w1 & H1 & H).
  injection H1 as <-.
  apply bind_value in H as (kmp & w2 & H2 & H).
  unfold buildPackage in H2.
  apply bind_value in H2 as (kps & w1' & Hkps & H2).
  pose proof (silent_readFileSync E _ _ _ _ Hkps) as ->.
  apply bind_value in H2 as (kmp' & w1' & Hkmp & H2).
  pose proof (silent_lift _ _ _ _ _ Hkmp) as ->.
  apply bind_value in H2 as ([] & w2' & Hbuild & H2).
  injection H2 as -> ->. injection Hbuild as <-.
  apply bind_value in H as (mi & w3 & Hm & H).
  apply mergeModelInfo_value in Hm as (-> & psize & jsize & Hp & Hj & ->).
  injection H as <-.
  exists kmp, psize, jsize. simpl.
  split; [exact Hp|]. split; [exact Hj|].
  split; [|reflexivity].
  rewrite <- !app_assoc. reflexivity.
Qed.

Lemma last_of_three {A} (l : list A) (a b c : A) :
  last (l ++ [a; b; c])%list = Some c.
Proof.
  change [a; b; c] with ([a; b] ++ [c])%list. rewrite app_assoc. apply last_snoc.
Qed.

Lemma model_js_is_not_model_kmp (id : string) : id +:+ ".model.kmp" <> id +:+ ".model.js".
Proof. intros H. apply append_inv_head in H. discriminate. Qed.

(** C3, as the claim states it, fails: the identifier and the list of
    included assets that the author wrote are both replaced. *)
Lemma merge_replaces_the_authors_id :
  let E := Demo.env Cases.info_with_id in
  let run := compile E Demo.trie_source (Demo.world Demo.listing ∅) in
  mi_id Cases.info_with_id = Some "my.own.id" /\
  mi_packageIncludes Cases.info_with_id = Some ["documentation"] /\
  fst run = Value tt /\
  last (written (snd run)) =
  Some (WroteText "demo.en.sample.model_info"
          ("id=demo.en.sample; name=My model; license=mit; version=1.0.0; " +:+
           "languages=[en]; authorName=Demo Author; " +:+
           "authorEmail=mailto:nobody@example.com; description=-; " +:+
           "lastModifiedDate=2019-06-01T00:00:00.000Z; " +:+
           "packageFilename=demo.en.sample.model.kmp; packageFileSize=15; " +:+
           "jsFilename=demo.en.sample.model.js; jsFileSize=148; " +:+
           "packageIncludes=[]; minKeymanVersion=12.0; " +:+
           "sourcePath=release/demo/en.sample")).
Proof. vm_compute. auto. Qed.

(** Line 190: the list is [fonts] when one file of the package is a font,
    and empty otherwise. *)
Lemma filter_is_nil {A} (p : A -> bool) (l : list A) :
  List.filter p l = [] <-> forall x, In x l -> p x = false.
Proof.
  induction l as [|a l IH]; simpl.
  - split; [intros _ x [] | reflexivity].
  - destruct (p a) eqn:Ha.
    + split; [discriminate|]. intros H. specialize (H a (or_introl eq_refl)). congruence.
    + rewrite IH. split.
      * intros H x [<-|Hx]; auto.
      * intros H x Hx. apply H. now right.
Qed.

Lemma packageIncludes_empty (kmp : KmpJsonFile) :
  Some (packageIncludes kmp) = Some [] <->
  forall name, In name (kmp_files kmp) -> is_font name = false.
Proof.
  rewrite <- filter_is_nil. unfold packageIncludes.
  destruct (List.filter is_font (kmp_files kmp)); simpl; split; congruence.
Qed.

Lemma packageIncludes_fonts (kmp : KmpJsonFile) :
  Some (packageIncludes kmp) = Some ["fonts"] <->
  exists name, In name (kmp_files kmp) /\ is_font name = true.
Proof.
  unfold packageIncludes.
  destruct (List.filter is_font (kmp_files kmp)) as [|a l] eqn:Hf; simpl.
  - split; [discriminate|]. intros (name & Hin & Hfont).
    apply filter_is_nil with (x := name) in Hf; [congruence | exact Hin].
  - split; [intros _ | reflexivity].
    assert (Hin : In a (List.filter is_font (kmp_files kmp))) by (rewrite Hf; now left).
    apply filter_In in Hin. eauto.
Qed.


Lemma kps_is_not_the_script (id : string) :
  id +:+ ".model.js" <> "../source/" +:+ id +:+ ".model.kps".
Proof.
  intros H. apply (f_equal String.length) in H.
  rewrite !append_length in H. simpl in H. lia.
Qed.

(** The package of a build that goes through is what the package compiler
    made of the project descriptor [../source/{id}.model.kps]. *)
Lemma publish_package E id info paths script (w0 w' : World) kmp mi :
  publish E id info paths script w0 = (Value tt, w') ->
  written w' =
    (written w0 ++
     [WroteText (id +:+ ".model.js") script;
      WroteArchive (id +:+ ".model.kmp") kmp;
      WroteText (id +:+ ".model_info") mi])%list ->
  exists kps,
    files w0 !! ("../source/" +:+ id +:+ ".model.kps") = Some kps /\
    transformKpsToKmpObject E id (utf8_decode E kps) = Some kmp.
Proof.
  unfold publish. intros H Hw.
  apply bind_value in H as ([] & w1 & H1 & H).
  injection H1 as <-.
  apply bind_value in H as (kmp' & w2 & H2 & H).
  unfold buildPackage in H2.
  apply bind_value in H2 as (text & w1' & Hkps & H2).
  pose proof (silent_readFileSync E _ _ _ _ Hkps) as ->.
  apply bind_value in H2 as (kmp'' & w1' & Hkmp & H2).
  pose proof (silent_lift _ _ _ _ _ Hkmp) as ->.
  apply bind_value in H2 as ([] & w2' & Hbuild & H2).
  injection H2 as -> ->. injection Hbuild as <-.
  apply bind_value in H as (mi' & w3 & Hm & H).
  apply mergeModelInfo_value in Hm as (-> & psize & jsize & _ & _ & ->).
  injection H as <-. simpl in Hw.
  rewrite <- !app_assoc in Hw. apply app_inv_head in Hw.
  injection Hw as -> _.
  unfold readFileSync in Hkps. simpl in Hkps.
  rewrite lookup_insert_ne in Hkps by apply kps_is_not_the_script.
  destruct (files w0 !! ("../source/" +:+ id +:+ ".model.kps")) as [kps|] eqn:Hfile;
    [|discriminate].
  injection Hkps as <-. exists kps. split; [reflexivity|].
  unfold lift in Hkmp.
  destruct (transformKpsToKmpObject E id (utf8_decode E kps)); [|discriminate].
  now injection Hkmp as ->.
Qed.

(** C3, amended: in the manifest that a successful build writes, a value
    that the author gave (a non-blank string, or any list of languages) is
    kept for the name, the author's name and e-mail address, the languages, the
    date of last modification, the two file names, the version, the minimum
    version of Keyman and the source path; the licence and the description
    are never touched.  Four fields are written whatever the author gave: the
    identifier, which becomes the identifier of the model; the two sizes,
    which become the sizes that the files named in the manifest have on the
    disk once the script and the package are written; and the list of included
    assets, which is computed from the files of the package that this build
    made of the project descriptor and wrote. *)
Theorem merge_keeps_author_values (E : Env) (ms : LexicalModelSource) (w w' : World) :
  compile E ms w = (Value tt, w') ->
  exists id info paths texts script kps kmp mi,
    let disk :=
      <[id +:+ ".model.kmp" := kmp_archive E kmp]>
        (<[id +:+ ".model.js" := utf8_encode E script]> (files w)) in
    let package := or_string (mi_packageFilename info) (id +:+ ".model.kmp") in
    let js := or_string (mi_jsFilename info) (id +:+ ".model.js") in
    prepare E ms w = (Value (id, info, paths, texts), w) /\
    files w !! ("../source/" +:+ id +:+ ".model.kps") = Some kps /\
    transformKpsToKmpObject E id (utf8_decode E kps) = Some kmp /\
    written w' =
      (written w ++
       [WroteText (id +:+ ".model.js") script;
        WroteArchive (id +:+ ".model.kmp") kmp;
        WroteText (id +:+ ".model_info") (JSON_stringify E mi)])%list /\
    author_values_kept info mi /\
    mi_id mi = Some id /\
    mi_packageFilename mi = Some package /\
    mi_packageFileSize mi = size_on disk package /\
    is_Some (mi_packageFileSize mi) /\
    mi_jsFilename mi = Some js /\
    mi_jsFileSize mi = size_on disk js /\
    is_Some (mi_jsFileSize mi) /\
    mi_packageIncludes mi = Some (packageIncludes kmp) /\
    (mi_packageIncludes mi = Some ["fonts"] <->
     exists name, In name (kmp_files kmp) /\ is_font name = true) /\
    (mi_packageIncludes mi = Some [] <->
     forall name, In name (kmp_files kmp) -> is_font name = false).
Proof.
  intros H.
  apply compile_value in H as (id & info & paths & texts & script & w0 & Hp & He & H).
  pose proof (keeps_emit E ms id texts w) as [Hfiles Hwritten].
  rewrite He in Hfiles, Hwritten. simpl in Hfiles, Hwritten.
  destruct (publish_value E id info paths script w0 w' H)
    as (kmp & psize & jsize & Hps & Hjs & Hw & _).
  destruct (publish_package E id info paths script w0 w' kmp _ H Hw) as (kps & Hkps & Hkmp).
  simpl in Hps, Hjs. rewrite Hfiles in Hps, Hjs, Hkps. rewrite Hwritten in Hw.
  exists id, info, paths, texts, script, kps, kmp. eexists. simpl.
  split; [exact Hp|]. split; [exact Hkps|]. split; [exact Hkmp|].
  split; [exact Hw|].
  split; [apply merged_author_values_kept|]. simpl.
  rewrite Hps, Hjs.
  repeat (split; [first [reflexivity | eexists; reflexivity]|]).
  split; [|apply packageIncludes_empty]. apply packageIncludes_fonts.
Qed.

(** C4, as the claim states it, fails: the author's manifest names an
    older package, [old.kmp], of 3 bytes; the build writes a package of 15
    bytes under [demo.en.sample.model.kmp], and the manifest records 3. *)
Lemma size_of_the_authors_package :
  let E := Demo.env Cases.info_with_package in
  let run := compile E Demo.trie_source Cases.world_with_old_package in
  fst run = Value tt /\
  file_size (snd run) "demo.en.sample.model.kmp" = Some 15 /\
  file_size (snd run) "old.kmp" = Some 3 /\
  last (written (snd run)) =
  Some (WroteText "demo.en.sample.model_info"
          ("id=demo.en.sample; name=Demo model; license=-; version=1.0.0; " +:+
           "languages=[[en]]; authorName=Demo Author; " +:+
           "authorEmail=mailto:nobody@example.com; description=-; " +:+
           "lastModifiedDate=2019-06-01T00:00:00.000Z; " +:+
           "packageFilename=old.kmp; packageFileSize=3; " +:+
           "jsFilename=demo.en.sample.model.js; jsFileSize=148; " +:+
           "packageIncludes=[]; minKeymanVersion=12.0; " +:+
           "sourcePath=release/demo/en.sample")).
Proof. vm_compute. auto. Qed.

(** C4, amended: in the manifest that a successful build writes, the
    size of the package and the size of the script are written whatever the
    author gave, and they are the sizes, on the disk as it is once the script
    and the package of this build are written, of the files that the manifest
    names as its package and its script.  Where the author left a file name
    blank, the name is that of the file that this build wrote,
    [{identifier}.model.kmp] or [{identifier}.model.js], and the size is the
    size of what it wrote. *)
Theorem sizes_of_the_named_files (E : Env) (ms : LexicalModelSource) (w w' : World) :
  compile E ms w = (Value tt, w') ->
  exists id info paths texts script kmp mi,
    let disk :=
      <[id +:+ ".model.kmp" := kmp_archive E kmp]>
        (<[id +:+ ".model.js" := utf8_encode E script]> (files w)) in
    let package := or_string (mi_packageFilename info) (id +:+ ".model.kmp") in
    let js := or_string (mi_jsFilename info) (id +:+ ".model.js") in
    prepare E ms w = (Value (id, info, paths, texts), w) /\
    written w' =
      (written w ++
       [WroteText (id +:+ ".model.js") script;
        WroteArchive (id +:+ ".model.kmp") kmp;
        WroteText (id +:+ ".model_info") (JSON_stringify E mi)])%list /\
    mi_packageFilename mi = Some package /\
    mi_jsFilename mi = Some js /\
    is_Some (mi_packageFileSize mi) /\
    is_Some (mi_jsFileSize mi) /\
    mi_packageFileSize mi = size_on disk package /\
    mi_jsFileSize mi = size_on disk js /\
    (truthy (mi_packageFilename info) = false ->
     mi_packageFileSize mi = Some (Z.of_nat (String.length (kmp_archive E kmp)))) /\
    (truthy (mi_jsFilename info) = false ->
     mi_jsFileSize mi = Some (Z.of_nat (String.length (utf8_encode E script)))).
Proof.
  intros H.
  apply compile_value in H as (id & info & paths & texts & script & w0 & Hp & He & H).
  pose proof (keeps_emit E ms id texts w) as [Hfiles Hwritten].
  rewrite He in Hfiles, Hwritten. simpl in Hfiles, Hwritten.
  apply publish_value in H as (kmp & psize & jsize & Hps & Hjs & Hw & _).
  rewrite Hfiles in Hps, Hjs. rewrite Hwritten in Hw.
  exists id, info, paths, texts, script, kmp.
  eexists. simpl.
  split; [exact Hp|]. split; [exact Hw|]. simpl.
  split; [reflexivity|]. split; [reflexivity|].
  split; [eauto|]. split; [eauto|].
  split; [now rewrite Hps|]. split; [now rewrite Hjs|].
  split.
  - intros Hblank. rewrite (or_string_blank _ _ Hblank) in Hps.
    unfold size_on in Hps. rewrite lookup_insert_eq in Hps. simpl in Hps.
    now rewrite <- Hps.
  - intros Hblank. rewrite (or_string_blank _ _ Hblank) in Hjs.
    unfold size_on in Hjs.
    rewrite lookup_insert_ne in Hjs by apply model_js_is_not_model_kmp.
    rewrite lookup_insert_eq in Hjs. simpl in Hjs.
    now rewrite <- Hjs.
Qed.

Lemma merge_is_idempotent_witness :
  now Rerun.built <> "" /\
  mergeModelInfo "demo.en.sample" ("demo.en.sample" +:+ ".model.kmp")
    ("demo.en.sample" +:+ ".model.js") Demo.package Rerun.folders Demo.blank_info
    Rerun.built = (Value Rerun.manifest, Rerun.built) /\
  (forall name, file_size Rerun.later name = file_size Rerun.built name) /\
  mergeModelInfo "demo.en.sample" ("demo.en.sample" +:+ ".model.kmp")
    ("demo.en.sample" +:+ ".model.js") Demo.package Rerun.folders Rerun.manifest
    Rerun.later = (Value Rerun.manifest, Rerun.later).
Proof.
  assert (H1 : now Rerun.built <> "") by (vm_compute; discriminate).
  assert (H2 : mergeModelInfo "demo.en.sample" ("demo.en.sample" +:+ ".model.kmp")
                 ("demo.en.sample" +:+ ".model.js") Demo.package Rerun.folders
                 Demo.blank_info Rerun.built = (Value Rerun.manifest, Rerun.built))
    by (vm_compute; reflexivity).
  assert (H3 : forall name, file_size Rerun.later name = file_size Rerun.built name)
    by (intros name; vm_compute; reflexivity).
  split; [exact H1|]. split; [exact H2|]. split; [exact H3|].
  exact (merge_is_idempotent "demo.en.sample" Demo.package Rerun.folders
           Demo.blank_info Rerun.manifest Rerun.built Rerun.later H1 H2 H3).
Defined.

Lemma merge_keeps_author_values_witness :
  let E := Demo.env Cases.info_with_id in
  let w := Demo.world Demo.listing ∅ in
  let w' := snd (compile E Demo.trie_source w) in
  compile E Demo.trie_source w = (Value tt, w') /\
  exists id info paths texts script kps kmp mi,
    let disk :=
      <[id +:+ ".model.kmp" := kmp_archive E kmp]>
        (<[id +:+ ".model.js" := utf8_encode E script]> (files w)) in
    let package := or_string (mi_packageFilename info) (id +:+ ".model.kmp") in
    let js := or_string (mi_jsFilename info) (id +:+ ".model.js") in
    prepare E Demo.trie_source w = (Value (id, info, paths, texts), w) /\
    files w !! ("../source/" +:+ id +:+ ".model.kps") = Some kps /\
    transformKpsToKmpObject E id (utf8_decode E kps) = Some kmp /\
    written w' =
      (written w ++
       [WroteText (id +:+ ".model.js") script;
        WroteArchive (id +:+ ".model.kmp") kmp;
        WroteText (id +:+ ".model_info") (JSON_stringify E mi)])%list /\
    author_values_kept info mi /\
    mi_id mi = Some id /\
    mi_packageFilename mi = Some package /\
    mi_packageFileSize mi = size_on disk package /\
    is_Some (mi_packageFileSize mi) /\
    mi_jsFilename mi = Some js /\
    mi_jsFileSize mi = size_on disk js /\
    is_Some (mi_jsFileSize mi) /\
    mi_packageIncludes mi = Some (packageIncludes kmp) /\
    (mi_packageIncludes mi = Some ["fonts"] <->
     exists name, In name (kmp_files kmp) /\ is_font name = true) /\
    (mi_packageIncludes mi = Some [] <->
     forall name, In name (kmp_files kmp) -> is_font name = false).
Proof.
  assert (H : compile (Demo.env Cases.info_with_id) Demo.trie_source
                (Demo.world Demo.listing ∅) =
              (Value tt,
               snd (compile (Demo.env Cases.info_with_id) Demo.trie_source
                      (Demo.world Demo.listing ∅))))
    by (vm_compute; reflexivity).
  split; [exact H|].
  exact (merge_keeps_author_values (Demo.env Cases.info_with_id) Demo.trie_source
           (Demo.world Demo.listing ∅) _ H).
Defined.

Lemma sizes_of_the_named_files_witness :
  let E := Demo.env Cases.info_with_package in
  let w := Cases.world_with_old_package in
  let w' := snd (compile E Demo.trie_source w) in
  compile E Demo.trie_source w = (Value tt, w') /\
  exists id info paths texts script kmp mi,
    let disk :=
      <[id +:+ ".model.kmp" := kmp_archive E kmp]>
        (<[id +:+ ".model.js" := utf8_encode E script]> (files w)) in
    let package := or_string (mi_packageFilename info) (id +:+ ".model.kmp") in
    let js := or_string (mi_jsFilename info) (id +:+ ".model.js") in
    prepare E Demo.trie_source w = (Value (id, info, paths, texts), w) /\
    written w' =
      (written w ++
       [WroteText (id +:+ ".model.js") script;
        WroteArchive (id +:+ ".model.kmp") kmp;
        WroteText (id +:+ ".model_info") (JSON_stringify E mi)])%list /\
    mi_packageFilename mi = Some package /\
    mi_jsFilename mi = Some js /\
    is_Some (mi_packageFileSize mi) /\
    is_Some (mi_jsFileSize mi) /\
    mi_packageFileSize mi = size_on disk package /\
    mi_jsFileSize mi = size_on disk js /\
    (truthy (mi_packageFilename info) = false ->
     mi_packageFileSize mi = Some (Z.of_nat (String.length (kmp_archive E kmp)))) /\
    (truthy (mi_jsFilename info) = false ->
     mi_jsFileSize mi = Some (Z.of_nat (String.length (utf8_encode E script)))).
Proof.
  assert (H : compile (Demo.env Cases.info_with_package) Demo.trie_source
                Cases.world_with_old_package =
              (Value tt,
               snd (compile (Demo.env Cases.info_with_package) Demo.trie_source
                      Cases.world_with_old_package)))
    by (vm_compute; reflexivity).
  split; [exact H|].
  exact (sizes_of_the_named_files (Demo.env Cases.info_with_package) Demo.trie_source
           Cases.world_with_old_package _ H).
Defined.

(** The first scenario of the specification: an empty info file, a word
    list, and the manifest that comes out. *)
Example manifest_of_the_demo :
  last (written (snd (compile (Demo.env Demo.blank_info) Demo.trie_source
                        (Demo.world Demo.listing ∅)))) =
  Some (WroteText "demo.en.sample.model_info" (Demo.stringify Rerun.manifest)).
Proof. vm_compute. reflexivity. Qed.

(** * Further properties of the pipeline *)

(** ** What a successful preparation has checked *)

Lemma prepare_value E ms (w : World) id info paths texts w' :
  prepare E ms w = (Value (id, info, paths, texts), w') ->
  w' = w /\
  exists f,
    List.find is_model_info (parent_dir w) = Some f /\
    model_info_stem f = Some id /\
    Regex.full_match MODEL_ID_PATTERN id = true /\
    loadModelInfo E f w = (Value info, w) /\
    paths = rev (split (path_sep E) (cwd w)) /\
    path_mismatch paths id = false /\
    readSources E (sources ms) w = (Value texts, w).
Proof.
  intros H. pose proof (silent_prepare E ms _ _ _ H) as ->. split; [reflexivity|].
  unfold prepare in H.
  apply bind_value in H as (f & w1 & H1 & H).
  pose proof (silent_findModelInfoFile _ _ _ H1) as ->.
  apply bind_value in H as (id' & w2 & H2 & H).
  pose proof (silent_modelId f _ _ _ H2) as ->.
  apply bind_value in H as (info' & w3 & H3 & H).
  pose proof (silent_loadModelInfo E f _ _ _ H3) as ->.
  apply bind_value in H as (paths' & w4 & H4 & H).
  pose proof (silent_checkModelPath E id' _ _ _ H4) as ->.
  apply bind_value in H as (texts' & w5 & H5 & H).
  pose proof (silent_readSources E _ _ _ _ H5) as ->.
  injection H as -> -> -> ->.
  exists f.
  unfold findModelInfoFile, bind, readdirSync_parent in H1.
  destruct (List.find is_model_info (parent_dir w)) as [f'|] eqn:Hfind;
    simpl in H1; [|discriminate].
  injection H1 as ->.
  unfold modelId, bind, lift in H2.
  destruct (model_info_stem f) as [stem|] eqn:Hstem; simpl in H2; [|discriminate].
  destruct (Regex.full_match MODEL_ID_PATTERN stem) eqn:Hm; simpl in H2; [|discriminate].
  injection H2 as ->.
  unfold checkModelPath, bind, process_cwd in H4.
  destruct (path_mismatch (rev (split (path_sep E) (cwd w))) id) eqn:Hpath;
    simpl in H4; [discriminate|].
  injection H4 as <-.
  repeat split; auto.
Qed.

Lemma prepare_run E ms (w : World) f id info texts :
  List.find is_model_info (parent_dir w) = Some f ->
  model_info_stem f = Some id ->
  Regex.full_match MODEL_ID_PATTERN id = true ->
  loadModelInfo E f w = (Value info, w) ->
  path_mismatch (rev (split (path_sep E) (cwd w))) id = false ->
  readSources E (sources ms) w = (Value texts, w) ->
  prepare E ms w = (Value (id, info, rev (split (path_sep E) (cwd w)), texts), w).
Proof.
  intros Hf Hs Hm Hi Hp Hr. unfold prepare.
  rewrite (bind_step _ _ _ _ _ (findModelInfoFile_found w f Hf)).
  rewrite (bind_step _ _ _ _ _ (modelId_valid f id w Hs Hm)).
  rewrite (bind_step _ _ _ _ _ Hi).
  rewrite (bind_step _ _ _ _ _ (checkModelPath_ok E id w Hp)).
  rewrite (bind_step _ _ _ _ _ Hr).
  reflexivity.
Qed.

Lemma id_shape_head (id : string) :
  id_shape id -> exists c t, id = String c t /\ id_start c = true.
Proof.
  intros (a & b & c & -> & (h & t & -> & Hh & _) & _ & _).
  rewrite append_cons. eauto.
Qed.

(** The names of the three outputs differ from each other, and from every
    path that starts with a dot. *)
Lemma outputs_do_not_start_with_a_dot (id ext rest : string) :
  id_shape id -> id +:+ ext <> String "." rest.
Proof.
  intros H Heq. apply id_shape_head in H as (c & t & -> & Hc).
  rewrite append_cons in Heq. injection Heq as -> _. discriminate.
Qed.

(** ** When a message is logged *)

Lemma reports_ret {A} (a : A) : reports (ret a).
Proof. intros w. reflexivity. Qed.

Lemma reports_throw {A} (e : Exn) : reports (@throw A e).
Proof. intros w. reflexivity. Qed.

Lemma reports_lift {A} (e : Exn) (o : option A) : reports (lift e o).
Proof. destruct o; [apply reports_ret | apply reports_throw]. Qed.

Lemma reports_log_and_fail {A} (s : string) :
  reports (bind (logError s) (fun _ => @return_false A)).
Proof. intros w. simpl. eauto. Qed.

Lemma reports_bind {A B} (m : M A) (k : A -> M B) :
  reports m -> (forall a, reports (k a)) -> reports (bind m k).
Proof.
  intros Hm Hk w. specialize (Hm w). unfold bind.
  destruct (m w) as [[a| |e] w1]; simpl in *; [|exact Hm|exact Hm].
  subst w1. apply Hk.
Qed.

Lemma reports_readFileSync E path : reports (readFileSync E path).
Proof. intros w. unfold readFileSync. destruct (files w !! path); reflexivity. Qed.

Lemma reports_mapM {A B} (f : A -> M B) (l : list A) :
  (forall a, reports (f a)) -> reports (mapM f l).
Proof.
  intros Hf. induction l as [|x l IH]; simpl; [apply reports_ret|].
  apply reports_bind; [apply Hf|]. intros y.
  apply reports_bind; [exact IH|]. intros ys. apply reports_ret.
Qed.

Lemma reports_findModelInfoFile : reports findModelInfoFile.
Proof.
  intros w. unfold findModelInfoFile, bind, readdirSync_parent.
  destruct (List.find is_model_info (parent_dir w)); simpl; eauto.
Qed.

Lemma reports_modelId f : reports (modelId f).
Proof.
  unfold modelId. apply reports_bind; [apply reports_lift|]. intros id.
  destruct (negb _); [apply reports_log_and_fail | apply reports_ret].
Qed.

Lemma reports_loadModelInfo E f : reports (loadModelInfo E f).
Proof.
  unfold loadModelInfo. apply reports_bind; [apply reports_readFileSync|].
  intros text. apply reports_lift.
Qed.

Lemma reports_checkModelPath E id : reports (checkModelPath E id).
Proof.
  intros w. unfold checkModelPath, bind, process_cwd.
  destruct (path_mismatch _ _); simpl; eauto.
Qed.

Lemma reports_readSources E names : reports (readSources E names).
Proof. unfold readSources. apply reports_mapM. intros n. apply reports_readFileSync. Qed.

Lemma reports_prepare E ms : reports (prepare E ms).
Proof.
  unfold prepare.
  apply reports_bind; [apply reports_findModelInfoFile|]. intros f.
  apply reports_bind; [apply reports_modelId|]. intros id.
  apply reports_bind; [apply reports_loadModelInfo|]. intros info.
  apply reports_bind; [apply reports_checkModelPath|]. intros paths.
  apply reports_bind; [apply reports_readSources|]. intros texts.
  apply reports_ret.
Qed.

Lemma reports_emitModel E ms oc texts func : reports (emitModel E ms oc texts func).
Proof.
  unfold emitModel.
  destruct (format ms =? "custom-1.0")%string; [apply reports_ret|].
  destruct (format ms =? "fst-foma-1.0")%string; [apply reports_log_and_fail|].
  destruct (format ms =? "trie-1.0")%string; [|apply reports_log_and_fail].
  apply reports_bind; [apply reports_lift|]. intros trie. apply reports_ret.
Qed.

Lemma never_reports_ret {A} (a : A) : never_reports (ret a).
Proof. intros w. split; [discriminate | reflexivity]. Qed.

Lemma never_reports_throw {A} (e : Exn) : never_reports (@throw A e).
Proof. intros w. split; [discriminate | reflexivity]. Qed.

Lemma never_reports_lift {A} (e : Exn) (o : option A) : never_reports (lift e o).
Proof. destruct o; [apply never_reports_ret | apply never_reports_throw]. Qed.

Lemma never_reports_bind {A B} (m : M A) (k : A -> M B) :
  never_reports m -> (forall a, never_reports (k a)) -> never_reports (bind m k).
Proof.
  intros Hm Hk w. destruct (Hm w) as [Hf Hs]. unfold bind.
  destruct (m w) as [[a| |e] w1]; simpl in *.
  - destruct (Hk a w1) as [Hf' Hs']. split; [exact Hf' | congruence].
  - congruence.
  - split; [discriminate | exact Hs].
Qed.

Lemma never_reports_mapM {A B} (f : A -> M B) (l : list A) :
  (forall a, never_reports (f a)) -> never_reports (mapM f l).
Proof.
  intros Hf. induction l as [|x l IH]; simpl; [apply never_reports_ret|].
  apply never_reports_bind; [apply Hf|]. intros y.
  apply never_reports_bind; [exact IH|]. intros ys. apply never_reports_ret.
Qed.

Lemma never_reports_readFileSync E path : never_reports (readFileSync E path).
Proof.
  intros w. unfold readFileSync.
  destruct (files w !! path); split; (discriminate || reflexivity).
Qed.

Lemma never_reports_statSync_size path : never_reports (statSync_size path).
Proof.
  intros w. unfold statSync_size.
  destruct (files w !! path); split; (discriminate || reflexivity).
Qed.

Lemma never_reports_deref l : never_reports (deref l).
Proof.
  intros w. unfold deref. destruct (heap w !! l); split; (discriminate || reflexivity).
Qed.

Lemma never_reports_delete_sources l : never_reports (delete_sources l).
Proof.
  intros w. unfold delete_sources.
  destruct (heap w !! l); split; (discriminate || reflexivity).
Qed.

Lemma never_reports_writeFileSync E name text : never_reports (writeFileSync E name text).
Proof. intros w. split; [discriminate | reflexivity]. Qed.

Lemma never_reports_buildKmpFile E data name : never_reports (buildKmpFile E data name).
Proof. intros w. split; [discriminate | reflexivity]. Qed.

Lemma never_reports_Date : never_reports Date_toISOString.
Proof. intros w. split; [discriminate | reflexivity]. Qed.

Ltac hush :=
  repeat first
    [ apply never_reports_ret
    | apply never_reports_throw
    | apply never_reports_lift
    | apply never_reports_readFileSync
    | apply never_reports_statSync_size
    | apply never_reports_deref
    | apply never_reports_delete_sources
    | apply never_reports_writeFileSync
    | apply never_reports_buildKmpFile
    | apply never_reports_Date
    | apply never_reports_mapM; intros
    | apply never_reports_bind; [|intros]
    | match goal with
      | |- never_reports (match ?x with _ => _ end) => destruct x
      end ].

Lemma never_reports_emitWordBreaker E ms oc func :
  never_reports (emitWordBreaker E ms oc func).
Proof. unfold emitWordBreaker, readSources. hush. Qed.

Lemma never_reports_publish E id info paths func :
  never_reports (publish E id info paths func).
Proof. unfold publish, buildPackage, mergeModelInfo. hush. Qed.

Lemma logs_iff_false_reports {A B} (m : M A) (k : A -> M B) :
  reports m -> (forall a, logs_iff_false (k a)) -> logs_iff_false (bind m k).
Proof.
  intros Hm Hk w. specialize (Hm w). unfold bind.
  destruct (m w) as [[a| |e] w1]; simpl in *.
  - subst w1. apply Hk.
  - exact Hm.
  - now subst w1.
Qed.

Lemma logs_iff_false_then {A B} (m : M A) (k : A -> M B) :
  logs_iff_false m -> (forall a, never_reports (k a)) -> logs_iff_false (bind m k).
Proof.
  intros Hm Hk w. specialize (Hm w). unfold bind.
  destruct (m w) as [[a| |e] w1]; simpl in *.
  - destruct (Hk a w1) as [Hf Hs].
    destruct (k a w1) as [[b| |e] w2]; simpl in *; congruence.
  - exact Hm.
  - exact Hm.
Qed.

Lemma logs_iff_false_of_reports {A} (m : M A) : reports m -> logs_iff_false m.
Proof.
  intros Hm w. specialize (Hm w).
  destruct (m w) as [[a| |e] w1]; simpl in *; [now subst | exact Hm | now subst].
Qed.

(** X1: [compile] logs exactly when it returns false.  When it returns
    false it has logged one message and the state is otherwise what it was:
    nothing is written and the author's description is not touched.  When it
    finishes or raises, it has logged nothing. *)
Theorem a_message_exactly_when_false (E : Env) (ms : LexicalModelSource) (w : World) :
  match fst (compile E ms w) with
  | ReturnedFalse =>
      exists message, snd (compile E ms w) = set_stderr (stderr w ++ [message]) w
  | _ => stderr (snd (compile E ms w)) = stderr w
  end.
Proof.
  revert w. change (logs_iff_false (compile E ms)). unfold compile.
  apply logs_iff_false_reports; [apply reports_prepare|].
  intros [[[id info] paths] texts].
  apply logs_iff_false_then; [|intros func; apply never_reports_publish].
  unfold emit.
  apply logs_iff_false_reports; [apply reports_emitModel|]. intros func1.
  apply logs_iff_false_then; [|intros func2; apply never_reports_ret].
  intros w. destruct (never_reports_emitWordBreaker E ms
    {| oc_id := id; oc_format := format ms; oc_wordBreaking := wordBreaking ms;
       oc_fst := None |} func1 w) as [Hf Hs].
  destruct (emitWordBreaker _ _ _ _ w) as [[a| |e] w1]; simpl in *; congruence.
Qed.

(** ** The formats *)

Lemma emitModel_unknown E ms oc texts func (w : World) :
  format ms <> "custom-1.0" -> format ms <> "fst-foma-1.0" -> format ms <> "trie-1.0" ->
  emitModel E ms oc texts func w =
  (ReturnedFalse, set_stderr (stderr w ++ ["Unknown model format " +:+ format ms]) w).
Proof.
  intros H1 H2 H3. unfold emitModel.
  apply String.eqb_neq in H1, H2, H3. rewrite H1, H2, H3. reflexivity.
Qed.

Lemma emitModel_value_format E ms oc texts func (w : World) func' w' :
  emitModel E ms oc texts func w = (Value func', w') ->
  format ms = "custom-1.0" \/ format ms = "trie-1.0".
Proof.
  unfold emitModel.
  destruct (format ms =? "custom-1.0")%string eqn:H1; [apply String.eqb_eq in H1; auto|].
  destruct (format ms =? "fst-foma-1.0")%string.
  { intros H. apply bind_value in H as (? & ? & _ & H). discriminate. }
  destruct (format ms =? "trie-1.0")%string eqn:H3; [apply String.eqb_eq in H3; auto|].
  intros H. apply bind_value in H as (? & ? & _ & H). discriminate.
Qed.

(** X2: a format tag other than the three that the switch names is
    refused.  The build never succeeds and writes nothing; once the
    identifier, the info file, the path and the sources have been read it logs
    [Unknown model format] followed by the tag, and returns false. *)
Theorem unknown_format_is_refused (E : Env) (ms : LexicalModelSource) (w : World) :
  format ms <> "custom-1.0" -> format ms <> "fst-foma-1.0" -> format ms <> "trie-1.0" ->
  fst (compile E ms w) <> Value tt /\
  files (snd (compile E ms w)) = files w /\
  written (snd (compile E ms w)) = written w /\
  forall r,
    fst (prepare E ms w) = Value r ->
    compile E ms w =
    (ReturnedFalse, set_stderr (stderr w ++ ["Unknown model format " +:+ format ms]) w).
Proof.
  intros H1 H2 H3.
  assert (Hreach : forall r, fst (prepare E ms w) = Value r ->
            compile E ms w =
            (ReturnedFalse,
             set_stderr (stderr w ++ ["Unknown model format " +:+ format ms]) w)).
  { intros [[[id info] paths] texts] Hr.
    destruct (prepare E ms w) as [o w1] eqn:Hp. simpl in Hr. subst o.
    pose proof (silent_prepare E ms _ _ _ Hp) as ->.
    unfold compile. rewrite (bind_step _ _ _ _ _ Hp).
    apply bind_false. unfold emit. apply bind_false. now apply emitModel_unknown. }
  pose proof (keeps_prepare E ms w) as Hk.
  destruct (prepare E ms w) as [[r| |e] w1] eqn:Hp; simpl in Hk.
  - rewrite (Hreach r eq_refl). simpl. repeat split; auto; discriminate.
  - unfold compile. rewrite (bind_false _ _ _ _ Hp). simpl.
    destruct (logs_only_same_disk _ _ Hk). repeat split; auto; discriminate.
  - unfold compile. rewrite (bind_thrown _ _ _ _ _ Hp). simpl.
    destruct (logs_only_same_disk _ _ Hk). repeat split; auto; discriminate.
Qed.

Lemma unknown_format_is_refused_witness :
  let E := Demo.env Demo.blank_info in
  let w := Demo.world Demo.listing ∅ in
  (format More.unknown_source <> "custom-1.0" /\
   format More.unknown_source <> "fst-foma-1.0" /\
   format More.unknown_source <> "trie-1.0") /\
  fst (compile E More.unknown_source w) <> Value tt /\
  files (snd (compile E More.unknown_source w)) = files w /\
  written (snd (compile E More.unknown_source w)) = written w /\
  forall r,
    fst (prepare E More.unknown_source w) = Value r ->
    compile E More.unknown_source w =
    (ReturnedFalse, set_stderr (stderr w ++ ["Unknown model format ngram-1.0"]) w).
Proof.
  assert (H1 : format More.unknown_source <> "custom-1.0") by discriminate.
  assert (H2 : format More.unknown_source <> "fst-foma-1.0") by discriminate.
  assert (H3 : format More.unknown_source <> "trie-1.0") by discriminate.
  split; [auto|].
  exact (unknown_format_is_refused (Demo.env Demo.blank_info) More.unknown_source
           (Demo.world Demo.listing ∅) H1 H2 H3).
Defined.

(** X3: only two formats build.  When [compile] finishes, the format
    tag of the description is [custom-1.0] or [trie-1.0]. *)
Theorem only_two_formats_build (E : Env) (ms : LexicalModelSource) (w w' : World) :
  compile E ms w = (Value tt, w') ->
  format ms = "custom-1.0" \/ format ms = "trie-1.0".
Proof.
  intros H.
  apply compile_value in H as (id & info & paths & texts & script & w0 & _ & He & _).
  unfold emit in He. apply bind_value in He as (func1 & w1 & H1 & _).
  exact (emitModel_value_format _ _ _ _ _ _ _ _ H1).
Qed.

Lemma only_two_formats_build_witness :
  let E := Demo.env Demo.blank_info in
  let w := Demo.world Demo.listing ∅ in
  compile E Demo.trie_source w = (Value tt, snd (compile E Demo.trie_source w)) /\
  (format Demo.trie_source = "custom-1.0" \/ format Demo.trie_source = "trie-1.0").
Proof.
  assert (H : compile (Demo.env Demo.blank_info) Demo.trie_source
                (Demo.world Demo.listing ∅) =
              (Value tt,
               snd (compile (Demo.env Demo.blank_info) Demo.trie_source
                      (Demo.world Demo.listing ∅))))
    by (vm_compute; reflexivity).
  split; [exact H|].
  exact (only_two_formats_build _ _ _ _ H).
Defined.

(** ** The sources *)

(** X4: the sources are read in the order of the list.  Either every
    one is on the disk and the texts are those of the files, in that order; or
    the first that is missing raises [ENOENT] with its path, the ones before
    it having been read, and the state is untouched. *)
Theorem sources_are_read_in_order (E : Env) (names : list string) (w : World) :
  (exists texts,
     readSources E names w = (Value texts, w) /\
     Forall2 (source_text E w) names texts)
  \/
  (exists before name after,
     names = (before ++ name :: after)%list /\
     Forall (fun n => is_Some (files w !! path_join E sourcePath n)) before /\
     files w !! path_join E sourcePath name = None /\
     readSources E names w = (Thrown (ENOENT (path_join E sourcePath name)), w)).
Proof.
  unfold readSources.
  induction names as [|name names IH]; simpl.
  - left. exists []. split; [reflexivity | constructor].
  - destruct (files w !! path_join E sourcePath name) as [bytes|] eqn:Hfile.
    + assert (Hread : readFileSync E (path_join E sourcePath name) w =
                      (Value (utf8_decode E bytes), w))
        by (unfold readFileSync; now rewrite Hfile).
      rewrite (bind_step _ _ _ _ _ Hread).
      destruct IH as [(texts & Hrest & Hall) | (before & n & after & -> & Hb & Hn & Hrest)].
      * left. exists (utf8_decode E bytes :: texts).
        rewrite (bind_step _ _ _ _ _ Hrest). split; [reflexivity|].
        constructor; [|exact Hall]. exists bytes. auto.
      * right. exists (name :: before), n, after.
        rewrite (bind_thrown _ _ _ _ _ Hrest).
        repeat split; auto; constructor; eauto.
    + right. exists [], name, names.
      assert (Hread : readFileSync E (path_join E sourcePath name) w =
                      (Thrown (ENOENT (path_join E sourcePath name)), w))
        by (unfold readFileSync; now rewrite Hfile).
      rewrite (bind_thrown _ _ _ _ _ Hread). repeat split; auto.
Qed.

Example a_missing_source :
  readSources (Demo.env Demo.blank_info) More.names_with_a_gap (Demo.world Demo.listing ∅) =
  (Thrown (ENOENT "../source/missing.tsv"), Demo.world Demo.listing ∅).
Proof. vm_compute. reflexivity. Qed.

(** ** The word breaker *)

Lemma emitWordBreaker_none E ms oc func (w : World) :
  wordBreaking ms = None -> emitWordBreaker E ms oc func w = (Value func, w).
Proof. intros H. unfold emitWordBreaker. now rewrite H. Qed.

Lemma emitWordBreaker_no_sources E ms oc func (w : World) l o :
  wordBreaking ms = Some l -> oc_wordBreaking oc = Some l ->
  heap w !! l = Some o -> wb_sources o = None ->
  emitWordBreaker E ms oc func w =
  (Value (func +:+ default_breaker (JSON_stringify_wb E o)), w).
Proof.
  intros Hwb Hoc Hl Hs. unfold emitWordBreaker, bind, deref, ret.
  rewrite Hwb, Hoc, Hl, Hs. simpl. rewrite Hl. reflexivity.
Qed.

Lemma emitWordBreaker_sources E ms oc func (w : World) l o names texts :
  wordBreaking ms = Some l -> oc_wordBreaking oc = Some l ->
  heap w !! l = Some o -> wb_sources o = Some names ->
  readSources E names w = (Value texts, w) ->
  emitWordBreaker E ms oc func w =
  (Value
     (if (join nl (map (transpile E) texts) =? "")%string
      then func +:+ default_breaker (JSON_stringify_wb E (without_sources o))
      else func +:+ custom_breaker (join nl (map (transpile E) texts)) (wb_rootClass o)),
   set_heap (<[l := without_sources o]> (heap w)) w).
Proof.
  intros Hwb Hoc Hl Hs Hr.
  unfold emitWordBreaker, bind, deref, delete_sources, ret.
  rewrite Hwb, Hoc, Hl, Hs, Hr, Hl. simpl. unfold transpileSources.
  destruct (join nl (map (transpile E) texts) =? "")%string; simpl;
    rewrite lookup_insert_eq; simpl; [reflexivity|].
  unfold custom_breaker. rewrite !append_assoc. reflexivity.
Qed.

(** However the stage ends for a description with a word breaker, when it
    yields a text the object behind the reference has no sources any more. *)
Lemma emitWordBreaker_value E ms oc func (w : World) func' w' l :
  oc_wordBreaking oc = wordBreaking ms ->
  wordBreaking ms = Some l ->
  emitWordBreaker E ms oc func w = (Value func', w') ->
  exists o',
    heap w' !! l = Some o' /\ wb_sources o' = None /\
    (func' = func +:+ default_breaker (JSON_stringify_wb E o') \/
     exists text,
       text <> "" /\ func' = func +:+ custom_breaker text (wb_rootClass o')).
Proof.
  intros Hoc Hwb H. rewrite Hwb in Hoc.
  destruct (heap w !! l) as [o|] eqn:Hl.
  2:{ unfold emitWordBreaker, bind, deref in H. rewrite Hwb, Hl in H. discriminate. }
  destruct (wb_sources o) as [names|] eqn:Hs.
  - pose proof (keeps_readSources E names w) as Hk.
    destruct (readSources E names w) as [[texts| |e] w1] eqn:Hr.
    + pose proof (silent_readSources E names _ _ _ Hr) as ->.
      rewrite (emitWordBreaker_sources E ms oc func w l o names texts Hwb Hoc Hl Hs Hr) in H.
      injection H as <- <-. exists (without_sources o). simpl.
      rewrite lookup_insert_eq. split; [reflexivity|]. split; [reflexivity|].
      destruct (join nl (map (transpile E) texts) =? "")%string eqn:Ht; [now left|].
      right. exists (join nl (map (transpile E) texts)).
      split; [now apply String.eqb_neq | reflexivity].
    + unfold emitWordBreaker, bind, deref in H. rewrite Hwb, Hl, Hs, Hr in H. discriminate.
    + unfold emitWordBreaker, bind, deref in H. rewrite Hwb, Hl, Hs, Hr in H. discriminate.
  - rewrite (emitWordBreaker_no_sources E ms oc func w l o Hwb Hoc Hl Hs) in H.
    injection H as <- <-. exists o. auto.
Qed.

(** X5: when the word-breaker stage yields its text for a description
    that has a word breaker, the word-breaking object is what it was without
    its list of sources, and the text added is one of two.  If the object had no
    list, it is the call that registers the default word breaker with the
    object serialized.  If it had one, the files of the list were read from the
    source folder in the order of the list, transpiled and joined by newlines;
    when that text is empty the default word breaker is registered with the
    object serialized, now without sources; otherwise that text is added
    between two newlines, followed by the call that registers a new instance of
    the root class of the word breaker. *)
Theorem word_breaker_leaves_no_sources (E : Env) (ms : LexicalModelSource)
    (oc : LexicalModelCompiled) (func func' : string) (w w' : World) (l : loc) :
  oc_wordBreaking oc = wordBreaking ms ->
  wordBreaking ms = Some l ->
  emitWordBreaker E ms oc func w = (Value func', w') ->
  exists o,
    heap w !! l = Some o /\
    heap w' !! l = Some (without_sources o) /\
    ((wb_sources o = None /\
      func' = func +:+ default_breaker (JSON_stringify_wb E o))
     \/
     (exists names texts,
        wb_sources o = Some names /\
        Forall2 (source_text E w) names texts /\
        let text := join nl (map (transpile E) texts) in
        (text = "" /\
         func' = func +:+ default_breaker (JSON_stringify_wb E (without_sources o)))
        \/
        (text <> "" /\ func' = func +:+ custom_breaker text (wb_rootClass o)))).
Proof.
  intros Hoc Hwb H. rewrite Hwb in Hoc.
  destruct (heap w !! l) as [o|] eqn:Hl.
  2:{ unfold emitWordBreaker, bind, deref in H. rewrite Hwb, Hl in H. discriminate. }
  exists o. split; [reflexivity|].
  destruct (wb_sources o) as [names|] eqn:Hs.
  - destruct (readSources E names w) as [[texts| |e] w1] eqn:Hr.
    + pose proof (silent_readSources E names _ _ _ Hr) as ->.
      pose proof (readSources_spec E names w texts w Hr) as Htexts.
      rewrite (emitWordBreaker_sources E ms oc func w l o names texts Hwb Hoc Hl Hs Hr) in H.
      injection H as <- <-. simpl. rewrite lookup_insert_eq.
      split; [reflexivity|]. right. exists names, texts.
      split; [reflexivity|]. split; [exact Htexts|]. simpl.
      destruct (join nl (map (transpile E) texts) =? "")%string eqn:Ht.
      * left. split; [now apply String.eqb_eq | reflexivity].
      * right. split; [now apply String.eqb_neq | reflexivity].
    + unfold emitWordBreaker, bind, deref in H. rewrite Hwb, Hl, Hs, Hr in H. discriminate.
    + unfold emitWordBreaker, bind, deref in H. rewrite Hwb, Hl, Hs, Hr in H. discriminate.
  - rewrite (emitWordBreaker_no_sources E ms oc func w l o Hwb Hoc Hl Hs) in H.
    injection H as <- <-. rewrite Hl. split; [|now left].
    destruct o as [s r c]. simpl in Hs. subst s. reflexivity.
Qed.

Lemma word_breaker_leaves_no_sources_witness :
  let E := Demo.env Demo.blank_info in
  let ms := Cases.custom_source in
  let oc := {| oc_id := "demo.en.sample"; oc_format := format ms;
               oc_wordBreaking := wordBreaking ms; oc_fst := None |} in
  let w := Demo.world Demo.listing Cases.custom_heap in
  let w' := snd (emitWordBreaker E ms oc "(" w) in
  let func' := "(" +:+ custom_breaker "class Breaker {}" (Some "Breaker") in
  (oc_wordBreaking oc = wordBreaking ms /\
   wordBreaking ms = Some 0%nat /\
   emitWordBreaker E ms oc "(" w = (Value func', w')) /\
  exists o,
    heap w !! 0%nat = Some o /\
    heap w' !! 0%nat = Some (without_sources o) /\
    ((wb_sources o = None /\
      func' = "(" +:+ default_breaker (JSON_stringify_wb E o))
     \/
     (exists names texts,
        wb_sources o = Some names /\
        Forall2 (source_text E w) names texts /\
        let text := join nl (map (transpile E) texts) in
        (text = "" /\
         func' = "(" +:+ default_breaker (JSON_stringify_wb E (without_sources o)))
        \/
        (text <> "" /\ func' = "(" +:+ custom_breaker text (wb_rootClass o)))).
Proof.
  intros E ms oc w w' func'.
  assert (H : emitWordBreaker E ms oc "(" w = (Value func', w'))
    by (vm_compute; reflexivity).
  split; [split; [reflexivity | split; [reflexivity | exact H]]|].
  exact (word_breaker_leaves_no_sources E ms oc "(" func' w w' 0%nat eq_refl eq_refl H).
Defined.

(** X6: a word breaker whose sources transpile to the empty text (a
    list of no files, or files that give nothing) is not taken as the author's
    own: the list of sources is deleted all the same, and the default word
    breaker is registered with what is left of the configuration. *)
Theorem empty_breaker_text_falls_back (E : Env) (ms : LexicalModelSource)
    (oc : LexicalModelCompiled) (func : string) (w : World)
    (l : loc) (o : WordBreaking) (names texts : list string) :
  wordBreaking ms = Some l ->
  oc_wordBreaking oc = Some l ->
  heap w !! l = Some o ->
  wb_sources o = Some names ->
  readSources E names w = (Value texts, w) ->
  join nl (map (transpile E) texts) = "" ->
  emitWordBreaker E ms oc func w =
  (Value (func +:+ default_breaker (JSON_stringify_wb E (without_sources o))),
   set_heap (<[l := without_sources o]> (heap w)) w).
Proof.
  intros Hwb Hoc Hl Hs Hr Ht.
  rewrite (emitWordBreaker_sources E ms oc func w l o names texts Hwb Hoc Hl Hs Hr).
  now rewrite Ht.
Qed.

Lemma empty_breaker_text_falls_back_witness :
  let E := Demo.env Demo.blank_info in
  let w := Demo.world Demo.listing More.heap_without_files in
  (wordBreaking More.source_without_files = Some 0%nat /\
   oc_wordBreaking More.oc_without_files = Some 0%nat /\
   heap w !! 0%nat = Some More.breaker_without_files /\
   wb_sources More.breaker_without_files = Some [] /\
   readSources E [] w = (Value [], w) /\
   join nl (map (transpile E) []) = "") /\
  emitWordBreaker E More.source_without_files More.oc_without_files "(" w =
  (Value ("(" +:+ default_breaker
                    (JSON_stringify_wb E (without_sources More.breaker_without_files))),
   set_heap (<[0%nat := without_sources More.breaker_without_files]> (heap w)) w).
Proof.
  assert (H3 : heap (Demo.world Demo.listing More.heap_without_files) !! 0%nat =
               Some More.breaker_without_files) by reflexivity.
  split; [repeat split; exact H3 || reflexivity|].
  exact (empty_breaker_text_falls_back (Demo.env Demo.blank_info)
           More.source_without_files More.oc_without_files "("
           (Demo.world Demo.listing More.heap_without_files) 0%nat
           More.breaker_without_files [] [] eq_refl eq_refl H3 eq_refl eq_refl eq_refl).
Defined.

(** X7: the sources of a word breaker are used once.  When the stage
    has yielded its text for a description with a word breaker, running it
    again on the same description registers the default word breaker, whatever
    the first run registered. *)
Theorem breaker_sources_are_used_once (E : Env) (ms : LexicalModelSource)
    (oc : LexicalModelCompiled) (func func' : string) (w w' : World) (l : loc) :
  oc_wordBreaking oc = wordBreaking ms ->
  wordBreaking ms = Some l ->
  emitWordBreaker E ms oc func w = (Value func', w') ->
  exists o',
    heap w' !! l = Some o' /\
    forall again,
      emitWordBreaker E ms oc again w' =
      (Value (again +:+ default_breaker (JSON_stringify_wb E o')), w').
Proof.
  intros Hoc Hwb H.
  destruct (emitWordBreaker_value E ms oc func w func' w' l Hoc Hwb H)
    as (o' & Hl & Hs & _).
  exists o'. split; [exact Hl|]. intros again.
  apply (emitWordBreaker_no_sources E ms oc again w' l o'); auto. congruence.
Qed.

Lemma breaker_sources_are_used_once_witness :
  let E := Demo.env Demo.blank_info in
  let w := Demo.world Demo.listing Cases.custom_heap in
  let w' := snd (emitWordBreaker E Cases.custom_source More.custom_oc "(" w) in
  (oc_wordBreaking More.custom_oc = wordBreaking Cases.custom_source /\
   wordBreaking Cases.custom_source = Some 0%nat /\
   emitWordBreaker E Cases.custom_source More.custom_oc "(" w =
   (Value ("(" +:+ custom_breaker "class Breaker {}" (Some "Breaker")), w')) /\
  exists o',
    heap w' !! 0%nat = Some o' /\
    forall again,
      emitWordBreaker E Cases.custom_source More.custom_oc again w' =
      (Value (again +:+ default_breaker (JSON_stringify_wb E o')), w').
Proof.
  assert (H : emitWordBreaker (Demo.env Demo.blank_info) Cases.custom_source
                More.custom_oc "(" (Demo.world Demo.listing Cases.custom_heap) =
              (Value ("(" +:+ custom_breaker "class Breaker {}" (Some "Breaker")),
               snd (emitWordBreaker (Demo.env Demo.blank_info) Cases.custom_source
                      More.custom_oc "(" (Demo.world Demo.listing Cases.custom_heap))))
    by (vm_compute; reflexivity).
  split; [split; [reflexivity | split; [reflexivity | exact H]]|].
  exact (breaker_sources_are_used_once (Demo.env Demo.blank_info) Cases.custom_source
           More.custom_oc "(" _ (Demo.world Demo.listing Cases.custom_heap) _ 0%nat
           eq_refl eq_refl H).
Defined.

(** ** The format [trie-1.0] *)

Lemma emit_trie E ms id texts (w : World) script w' :
  format ms = "trie-1.0" ->
  emit E ms id texts w = (Value script, w') ->
  exists trie breaker,
    createTrieDataStructure E texts = Some trie /\
    script =
    filePrefix +:+ "var model = {};" +:+ nl +:+
    "model.backingData = " +:+ trie +:+ ";" +:+ nl +:+
    "LMLayerWorker.loadModel(new models.WordListModel(model.backingData));" +:+ nl +:+
    breaker +:+ fileSuffix.
Proof.
  intros Hf H. unfold emit in H.
  apply bind_value in H as (func1 & w1 & H1 & H).
  apply bind_value in H as (func2 & w2 & H2 & H).
  injection H as <- _.
  apply emitWordBreaker_appends in H2 as [tail ->].
  unfold emitModel in H1. rewrite Hf in H1. simpl in H1.
  destruct (createTrieDataStructure E texts) as [trie|] eqn:Hc.
  2:{ apply bind_value in H1 as (? & ? & Hx & _). discriminate. }
  apply bind_value in H1 as (t & w3 & Ht & H1).
  injection Ht as <- <-. injection H1 as <- _.
  exists trie, tail. split; [reflexivity|]. now rewrite !append_assoc.
Qed.

(** X8: with the format [trie-1.0], the script that a build writes is
    the prologue, the declaration of [model], the assignment to
    [model.backingData] of what the trie builder returns for the source texts
    taken in the order of the list, the call that loads a word-list model on
    that data, whatever the word breaker adds, and the epilogue. *)
Theorem trie_script_layout (E : Env) (ms : LexicalModelSource) (w : World) :
  format ms = "trie-1.0" ->
  (fst (compile E ms w) <> Value tt /\ written (snd (compile E ms w)) = written w)
  \/
  (exists id texts trie breaker rest,
     Forall2 (source_text E w) (sources ms) texts /\
     createTrieDataStructure E texts = Some trie /\
     written (snd (compile E ms w)) =
       (written w ++
        WroteText (id +:+ ".model.js")
          (filePrefix +:+ "var model = {};" +:+ nl +:+
           "model.backingData = " +:+ trie +:+ ";" +:+ nl +:+
           "LMLayerWorker.loadModel(new models.WordListModel(model.backingData));" +:+
           nl +:+ breaker +:+ fileSuffix) :: rest)%list /\
     Forall (not_the_script id) rest).
Proof.
  intros Hf.
  destruct (compile_written E ms w)
    as [H | (id & info & paths & texts & script & w0 & rest & Hp & He & Hw & Hrest)];
    [now left | right].
  apply (emit_trie E ms id texts w script w0 Hf) in He as (trie & breaker & Ht & ->).
  exists id, texts, trie, breaker, rest.
  apply prepare_value in Hp as (_ & f & _ & _ & _ & _ & _ & _ & Hr).
  split; [exact (readSources_spec E _ _ _ _ Hr) | auto].
Qed.

Lemma trie_script_layout_witness :
  let E := Demo.env Demo.blank_info in
  let w := Demo.world Demo.listing ∅ in
  format Demo.trie_source = "trie-1.0" /\
  ((fst (compile E Demo.trie_source w) <> Value tt /\
    written (snd (compile E Demo.trie_source w)) = written w)
   \/
   (exists id texts trie breaker rest,
      Forall2 (source_text E w) (sources Demo.trie_source) texts /\
      createTrieDataStructure E texts = Some trie /\
      written (snd (compile E Demo.trie_source w)) =
        (written w ++
         WroteText (id +:+ ".model.js")
           (filePrefix +:+ "var model = {};" +:+ nl +:+
            "model.backingData = " +:+ trie +:+ ";" +:+ nl +:+
            "LMLayerWorker.loadModel(new models.WordListModel(model.backingData));" +:+
            nl +:+ breaker +:+ fileSuffix) :: rest)%list /\
      Forall (not_the_script id) rest)).
Proof.
  split; [reflexivity|].
  exact (trie_script_layout (Demo.env Demo.blank_info) Demo.trie_source
           (Demo.world Demo.listing ∅) eq_refl).
Defined.

(** ** The identifier *)

Lemma id_part_is_dot_char (c : ascii) : id_part c = true -> dot_char c = true.
Proof.
  intros H. unfold dot_char.
  destruct (Ascii.eqb_spec c LF) as [->|_]; [discriminate|].
  destruct (Ascii.eqb_spec c CR) as [->|_]; [discriminate|]. reflexivity.
Qed.

Lemma id_start_is_id_part (c : ascii) : id_start c = true -> id_part c = true.
Proof.
  unfold id_start, id_part. intros H.
  apply orb_true_iff in H as [H | H]; rewrite H; [reflexivity | apply orb_true_r].
Qed.

Lemma all_chars_impl (p q : ascii -> bool) (s : string) :
  (forall c, p c = true -> q c = true) -> all_chars p s = true -> all_chars q s = true.
Proof.
  intros Hpq. induction s as [|c s IH]; simpl; [reflexivity|].
  intros H. apply andb_true_iff in H as [Hc Hs]. now rewrite (Hpq c Hc), (IH Hs).
Qed.

Lemma is_segment_no_terminator (s : string) :
  is_segment s -> all_chars dot_char s = true.
Proof.
  intros (c & t & -> & Hc & Ht). simpl.
  rewrite (id_part_is_dot_char c (id_start_is_id_part c Hc)).
  exact (all_chars_impl _ _ t id_part_is_dot_char Ht).
Qed.

Lemma id_shape_no_terminator (id : string) : id_shape id -> all_chars dot_char id = true.
Proof.
  intros (a & b & c & -> & Ha & Hb & Hc).
  rewrite !all_chars_app.
  rewrite (is_segment_no_terminator a Ha), (is_segment_no_terminator b Hb),
    (is_segment_no_terminator c Hc).
  reflexivity.
Qed.

(** The stem of the info file of a well-formed identifier is the identifier. *)
Lemma model_info_stem_of_id (id : string) :
  id_shape id -> model_info_stem (id +:+ ".model_info") = Some id.
Proof.
  intros H. apply model_info_stem_spec. split; [reflexivity|]. split.
  - destruct (id_shape_head id H) as (c & t & -> & _). discriminate.
  - now apply id_shape_no_terminator.
Qed.

(** X9: the pattern of line 16 accepts exactly the strings made of three
    segments joined by two dots, each segment a lowercase letter or an
    underscore followed by lowercase letters, digits and underscores. *)
Theorem pattern_accepts_the_shape (s : string) :
  Regex.full_match MODEL_ID_PATTERN s = true <-> id_shape s.
Proof. apply MODEL_ID_PATTERN_shape. Qed.

(** X10: an info file whose stem is not empty, has no line terminator
    and does not have the shape of an identifier is refused: [compile] logs
    that the identifier is invalid, with the stem and the required format, and
    returns false; the state is otherwise untouched. *)
Theorem invalid_identifier_is_refused (E : Env) (ms : LexicalModelSource) (w : World)
    (stem : string) :
  List.find is_model_info (parent_dir w) = Some (stem +:+ ".model_info") ->
  stem <> "" ->
  all_chars dot_char stem = true ->
  ~ id_shape stem ->
  compile E ms w =
  (ReturnedFalse,
   set_stderr
     (stderr w ++
      ["The model identifier '" +:+ stem +:+ "' is invalid." +:+ nl +:+
       "Must be a valid alphanumeric identifier in format (author).(bcp_47).(uniq)." +:+
       nl +:+ "bcp_47 should be underscore (_) separated."]) w).
Proof.
  intros Hf Hne Hdot Hshape.
  apply (compile_invalid_stem E ms w (stem +:+ ".model_info") stem); auto.
  apply model_info_stem_spec. auto.
Qed.

Lemma invalid_identifier_is_refused_witness :
  let E := Demo.env Demo.blank_info in
  let w := Demo.world More.uppercase_listing ∅ in
  (List.find is_model_info (parent_dir w) = Some ("Demo.en.sample" +:+ ".model_info") /\
   "Demo.en.sample" <> "" /\
   all_chars dot_char "Demo.en.sample" = true /\
   ~ id_shape "Demo.en.sample") /\
  compile E Demo.trie_source w =
  (ReturnedFalse,
   set_stderr
     (stderr w ++
      ["The model identifier '" +:+ "Demo.en.sample" +:+ "' is invalid." +:+ nl +:+
       "Must be a valid alphanumeric identifier in format (author).(bcp_47).(uniq)." +:+
       nl +:+ "bcp_47 should be underscore (_) separated."]) w).
Proof.
  assert (H1 : List.find is_model_info (parent_dir (Demo.world More.uppercase_listing ∅)) =
               Some ("Demo.en.sample" +:+ ".model_info")) by (vm_compute; reflexivity).
  assert (H2 : "Demo.en.sample" <> "") by discriminate.
  assert (H3 : all_chars dot_char "Demo.en.sample" = true) by reflexivity.
  assert (H4 : ~ id_shape "Demo.en.sample").
  { intros H. apply MODEL_ID_PATTERN_shape in H. vm_compute in H. discriminate. }
  split; [auto|].
  exact (invalid_identifier_is_refused (Demo.env Demo.blank_info) Demo.trie_source
           (Demo.world More.uppercase_listing ∅) "Demo.en.sample" H1 H2 H3 H4).
Defined.

(** X11: an info file with nothing before [.model_info], or with a line
    terminator before it, makes [compile] raise a [TypeError]: the capture of
    line 31 is [null].  Nothing is logged and the state is untouched. *)
Theorem failed_capture_raises (E : Env) (ms : LexicalModelSource) (w : World)
    (stem : string) :
  List.find is_model_info (parent_dir w) = Some (stem +:+ ".model_info") ->
  stem = "" \/ all_chars dot_char stem = false ->
  compile E ms w = (Thrown TypeError, w).
Proof.
  intros Hf Hstem.
  assert (Hnone : model_info_stem (stem +:+ ".model_info") = None).
  { destruct (model_info_stem (stem +:+ ".model_info")) as [x|] eqn:Hx; [|reflexivity].
    apply model_info_stem_spec in Hx as (Heq & Hne & Hdot).
    apply append_inv_tail in Heq. subst x.
    destruct Hstem; congruence. }
  unfold compile, prepare. apply bind_thrown.
  rewrite (bind_step _ _ _ _ _ (findModelInfoFile_found w _ Hf)).
  apply bind_thrown. now apply modelId_no_stem.
Qed.

Lemma failed_capture_raises_witness :
  let E := Demo.env Demo.blank_info in
  let w := Demo.world More.broken_listing ∅ in
  let stem := String "a" (String LF "b.c.d") in
  (List.find is_model_info (parent_dir w) = Some (stem +:+ ".model_info") /\
   (stem = "" \/ all_chars dot_char stem = false)) /\
  compile E Demo.trie_source w = (Thrown TypeError, w).
Proof.
  assert (H1 : List.find is_model_info (parent_dir (Demo.world More.broken_listing ∅)) =
               Some (String "a" (String LF "b.c.d") +:+ ".model_info"))
    by (vm_compute; reflexivity).
  assert (H2 : String "a" (String LF "b.c.d") = "" \/
               all_chars dot_char (String "a" (String LF "b.c.d")) = false)
    by (right; reflexivity).
  split; [auto|].
  exact (failed_capture_raises (Demo.env Demo.blank_info) Demo.trie_source
           (Demo.world More.broken_listing ∅) _ H1 H2).
Defined.

(** X12: the info file is read after the identifier is checked and
    before the path is.  For an info file with a valid stem, [compile] raises
    [ENOENT] with the path of the info file when the file cannot be read, and
    a [SyntaxError] when its text does not parse; nothing is logged, even when
    the working directory does not fit the identifier. *)
Theorem unreadable_info_file_raises (E : Env) (ms : LexicalModelSource) (w : World)
    (id : string) :
  List.find is_model_info (parent_dir w) = Some (id +:+ ".model_info") ->
  id_shape id ->
  match files w !! ("../" +:+ id +:+ ".model_info") with
  | None => compile E ms w = (Thrown (ENOENT ("../" +:+ id +:+ ".model_info")), w)
  | Some bytes =>
      JSON_parse E (utf8_decode E bytes) = None ->
      compile E ms w = (Thrown SyntaxError, w)
  end.
Proof.
  intros Hf Hshape.
  assert (Hm : Regex.full_match MODEL_ID_PATTERN id = true)
    by now apply MODEL_ID_PATTERN_shape.
  pose proof (model_info_stem_of_id id Hshape) as Hstem.
  assert (Hload : forall o w1,
            loadModelInfo E (id +:+ ".model_info") w = (o, w1) ->
            (forall info, o <> Value info) ->
            compile E ms w = (match o with
                              | Thrown e => Thrown e
                              | _ => ReturnedFalse
                              end, w1)).
  { intros o w1 Hl Hno. unfold compile.
    destruct o as [info| |e].
    - now destruct (Hno info).
    - apply bind_false. unfold prepare.
      rewrite (bind_step _ _ _ _ _ (findModelInfoFile_found w _ Hf)).
      rewrite (bind_step _ _ _ _ _ (modelId_valid _ id w Hstem Hm)).
      now apply bind_false.
    - apply bind_thrown. unfold prepare.
      rewrite (bind_step _ _ _ _ _ (findModelInfoFile_found w _ Hf)).
      rewrite (bind_step _ _ _ _ _ (modelId_valid _ id w Hstem Hm)).
      now apply bind_thrown. }
  destruct (files w !! ("../" +:+ id +:+ ".model_info")) as [bytes|] eqn:Hfile.
  - intros Hparse.
    apply (Hload (Thrown SyntaxError) w); [|discriminate].
    unfold loadModelInfo, bind, readFileSync, lift. rewrite Hfile. simpl.
    now rewrite Hparse.
  - apply (Hload (Thrown (ENOENT ("../" +:+ id +:+ ".model_info"))) w); [|discriminate].
    unfold loadModelInfo, bind, readFileSync. now rewrite Hfile.
Qed.

Lemma unreadable_info_file_raises_witness :
  let w := Demo.world Demo.listing ∅ in
  (List.find is_model_info (parent_dir w) = Some ("demo.en.sample" +:+ ".model_info") /\
   id_shape "demo.en.sample") /\
  match files w !! ("../" +:+ "demo.en.sample" +:+ ".model_info") with
  | None =>
      compile More.deaf_env Demo.trie_source w =
      (Thrown (ENOENT ("../" +:+ "demo.en.sample" +:+ ".model_info")), w)
  | Some bytes =>
      JSON_parse More.deaf_env (utf8_decode More.deaf_env bytes) = None ->
      compile More.deaf_env Demo.trie_source w = (Thrown SyntaxError, w)
  end.
Proof.
  assert (H1 : List.find is_model_info (parent_dir (Demo.world Demo.listing ∅)) =
               Some ("demo.en.sample" +:+ ".model_info")) by (vm_compute; reflexivity).
  assert (H2 : id_shape "demo.en.sample")
    by (apply MODEL_ID_PATTERN_shape; vm_compute; reflexivity).
  split; [auto|].
  exact (unreadable_info_file_raises More.deaf_env Demo.trie_source
           (Demo.world Demo.listing ∅) "demo.en.sample" H1 H2).
Defined.

(** The info file of the demo does not parse in this environment. *)
Example a_malformed_info_file :
  compile More.deaf_env Demo.trie_source (Demo.world Demo.listing ∅) =
  (Thrown SyntaxError, Demo.world Demo.listing ∅).
Proof. vm_compute. reflexivity. Qed.

(** ** The included assets *)

Lemma search_to_end_spec (r : Regex.re) (s : string) :
  Regex.search_to_end r s = true <-> exists p q, s = p +:+ q /\ Regex.matches r q.
Proof.
  unfold Regex.search_to_end. rewrite full_match_spec, matches_seq. split.
  - intros (p & q & -> & _ & Hq). eauto.
  - intros (p & q & -> & Hq). exists p, q. split; [reflexivity|].
    split; [apply matches_star_any | exact Hq].
Qed.

Lemma one_of_spec (cs : list ascii) (c : ascii) : one_of cs c = true <-> In c cs.
Proof.
  unfold one_of. rewrite existsb_exists. split.
  - intros (x & Hx & Heq). apply Ascii.eqb_eq in Heq. now subst.
  - intros H. exists c. split; [exact H | apply Ascii.eqb_refl].
Qed.

Lemma matches_font_pattern (q : string) :
  Regex.matches font_pattern q <->
  exists c x y z,
    q = String c (String x (String y (String z ""))) /\
    dot_char c = true /\
    In x ["o"; "t"; "O"; "T"]%char /\ In y ["t"; "T"]%char /\ In z ["f"; "F"]%char.
Proof.
  unfold font_pattern, dot. split.
  - intros H.
    apply matches_seq in H as (s1 & r1 & -> & H1 & H).
    apply matches_seq in H as (s2 & r2 & -> & H2 & H).
    apply matches_seq in H as (s3 & s4 & -> & H3 & H4).
    apply matches_cls in H1 as (c & -> & Hc).
    apply matches_cls in H2 as (x & -> & Hx).
    apply matches_cls in H3 as (y & -> & Hy).
    apply matches_cls in H4 as (z & -> & Hz).
    exists c, x, y, z. rewrite <- !one_of_spec. auto.
  - intros (c & x & y & z & -> & Hc & Hx & Hy & Hz).
    rewrite <- one_of_spec in Hx, Hy, Hz.
    change (String c (String x (String y (String z ""))))
      with (String c "" +:+ String x "" +:+ String y "" +:+ String z "").
    repeat (constructor; try assumption).
Qed.

Lemma is_font_spec (name : string) : is_font name = true <-> font_ending name.
Proof.
  unfold is_font, font_ending. rewrite search_to_end_spec. split.
  - intros (p & q & -> & Hq).
    apply matches_font_pattern in Hq as (c & x & y & z & -> & H). exists p, c, x, y, z. auto.
  - intros (p & c & x & y & z & -> & H).
    exists p, (String c (String x (String y (String z "")))).
    split; [reflexivity|]. apply matches_font_pattern. exists c, x, y, z. auto.
Qed.

(** X13: the list of included assets is [fonts] exactly when some file
    of the package has a name that ends in [otf] or [ttf], in either case,
    after at least one more character that is not a line terminator (the dot
    of the expression is not escaped, so any such character will do); it is
    empty otherwise. *)
Theorem included_assets_are_fonts (kmp : KmpJsonFile) :
  (packageIncludes kmp = ["fonts"] /\ Exists font_ending (kmp_files kmp))
  \/
  (packageIncludes kmp = [] /\ Forall (fun name => ~ font_ending name) (kmp_files kmp)).
Proof.
  unfold packageIncludes.
  induction (kmp_files kmp) as [|name names IH]; simpl.
  - right. split; [reflexivity | constructor].
  - destruct (is_font name) eqn:Hname; simpl.
    + left. split; [reflexivity|]. constructor. now apply is_font_spec.
    + assert (Hnot : ~ font_ending name).
      { rewrite <- is_font_spec. congruence. }
      destruct IH as [[Heq Hex] | [Heq Hall]]; [left | right]; rewrite Heq;
        (split; [reflexivity|]); [now apply Exists_cons_tl | now constructor].
Qed.

Example assets_of_packages :
  map (fun names =>
         packageIncludes {| info_name := ""; info_author := ""; info_author_url := None;
                            info_version := ""; lexicalModels := []; kmp_files := names |})
    [["model.js"; "Charis.TTF"]; ["model.js"; "readme.htm"]; ["nottf"]; [".ttf"]; ["ttf"]; []] =
  [["fonts"]; []; ["fonts"]; ["fonts"]; []; []].
Proof. vm_compute. reflexivity. Qed.

(** ** The fields that the merge fills *)

Lemma same_process_refl (w : World) : same_process w w.
Proof. repeat split. Qed.

Lemma same_process_trans (a b c : World) :
  same_process a b -> same_process b c -> same_process a c.
Proof. intros (H1 & H2 & H3) (H4 & H5 & H6). repeat split; congruence. Qed.

Lemma logs_only_same_process (w w' : World) : logs_only w w' -> same_process w w'.
Proof. intros ->. repeat split. Qed.

Lemma keeps_process_delete_sources l : keeps same_process (delete_sources l).
Proof. intros w. unfold delete_sources. destruct (heap w !! l); repeat split. Qed.

Lemma keeps_process_emit E ms id texts : keeps same_process (emit E ms id texts).
Proof.
  unfold emit.
  apply (keeps_bind _ same_process_trans).
  { eapply keeps_weaken; [apply logs_only_same_process | apply keeps_emitModel]. }
  intros func1. apply (keeps_bind _ same_process_trans).
  2:{ intros func2. apply (keeps_ret _ same_process_refl). }
  unfold emitWordBreaker, readSources.
  repeat first
    [ apply keeps_process_delete_sources
    | progress (frame same_process_refl same_process_trans)
    | match goal with |- keeps _ (if ?b then _ else _) => destruct b end ].
Qed.

Lemma or_option_blank (a b : option string) : truthy a = false -> or_option a b = b.
Proof. unfold or_option. now intros ->. Qed.

Lemma merged_blanks_filled id kmp paths date psize jsize info :
  blanks_filled id kmp paths date info
    (merged id (id +:+ ".model.kmp") (id +:+ ".model.js") kmp paths date psize jsize info).
Proof.
  unfold blanks_filled, merged; simpl.
  repeat split; intros H;
    try (rewrite (or_string_blank _ _ H); reflexivity).
  - now apply or_option_blank.
  - now rewrite H.
Qed.

(** X14: in the manifest that a successful build writes, every field
    that the author left blank and that the merge knows how to fill has the
    value that the build found: the name, the author, the author's address and
    the version from the package, one list of language tags for each model of
    the package, the time of the build, the names of the package and of the
    script that this build wrote, [12.0] for the minimum version of Keyman,
    and the group, author and language folders joined by slashes for the
    source path. *)
Theorem blank_fields_are_filled (E : Env) (ms : LexicalModelSource) (w w' : World) :
  compile E ms w = (Value tt, w') ->
  exists id info paths texts kmp mi,
    prepare E ms w = (Value (id, info, paths, texts), w) /\
    In (WroteArchive (id +:+ ".model.kmp") kmp) (written w') /\
    last (written w') = Some (WroteText (id +:+ ".model_info") (JSON_stringify E mi)) /\
    blanks_filled id kmp paths (now w) info mi.
Proof.
  intros H.
  apply compile_value in H as (id & info & paths & texts & script & w0 & Hp & He & H).
  pose proof (keeps_process_emit E ms id texts w) as (Hnow & _ & _).
  rewrite He in Hnow. simpl in Hnow.
  apply publish_value in H as (kmp & psize & jsize & _ & _ & Hw & _).
  exists id, info, paths, texts, kmp. eexists.
  split; [exact Hp|]. split.
  { rewrite Hw. apply in_or_app. right. simpl. auto. }
  split; [rewrite Hw; apply last_of_three|].
  rewrite Hnow. apply merged_blanks_filled.
Qed.

Lemma blank_fields_are_filled_witness :
  let E := Demo.env Demo.blank_info in
  let w := Demo.world Demo.listing ∅ in
  let w' := snd (compile E Demo.trie_source w) in
  compile E Demo.trie_source w = (Value tt, w') /\
  exists id info paths texts kmp mi,
    prepare E Demo.trie_source w = (Value (id, info, paths, texts), w) /\
    In (WroteArchive (id +:+ ".model.kmp") kmp) (written w') /\
    last (written w') = Some (WroteText (id +:+ ".model_info") (JSON_stringify E mi)) /\
    blanks_filled id kmp paths (now w) info mi.
Proof.
  assert (H : compile (Demo.env Demo.blank_info) Demo.trie_source
                (Demo.world Demo.listing ∅) =
              (Value tt,
               snd (compile (Demo.env Demo.blank_info) Demo.trie_source
                      (Demo.world Demo.listing ∅))))
    by (vm_compute; reflexivity).
  split; [exact H|].
  exact (blank_fields_are_filled (Demo.env Demo.blank_info) Demo.trie_source
           (Demo.world Demo.listing ∅) _ H).
Defined.

(** ** The folders of the working directory *)

Lemma split_not_nil (sep : ascii) (s : string) : split sep s <> [].
Proof.
  destruct s as [|c s]; simpl; [discriminate|].
  destruct (Ascii.eqb c sep); [discriminate|].
  destruct (split sep s); discriminate.
Qed.

Lemma join_cons (sep x : string) (l : list string) :
  l <> [] -> join sep (x :: l) = x +:+ sep +:+ join sep l.
Proof. destruct l; [congruence | reflexivity]. Qed.

(** Splitting on a character and joining on it again gives the string back. *)
Lemma join_split (sep : ascii) (s : string) : join (String sep "") (split sep s) = s.
Proof.
  induction s as [|c s IH]; [reflexivity|].
  simpl split. destruct (Ascii.eqb_spec c sep) as [->|Hne].
  - rewrite join_cons by apply split_not_nil. now rewrite IH.
  - pose proof (split_not_nil sep s) as Hnil.
    destruct (split sep s) as [|p ps]; [congruence|].
    destruct ps as [|q ps].
    + simpl in *. now rewrite IH.
    + rewrite join_cons by discriminate. rewrite join_cons in IH by discriminate.
      rewrite append_cons. now rewrite IH.
Qed.

Lemma join_app_ends (sep : string) (pre l : list string) :
  l <> [] -> ends_with (join sep (pre ++ l)) (join sep l).
Proof.
  intros Hl. induction pre as [|x pre IH].
  - exists "". reflexivity.
  - change ((x :: pre) ++ l)%list with (x :: (pre ++ l))%list.
    rewrite join_cons by (destruct pre; [exact Hl | discriminate]).
    destruct IH as [p ->]. exists (x +:+ sep +:+ p). now rewrite !append_assoc.
Qed.

Lemma path_fits_folders (paths : list string) (id : string) :
  path_fits paths id ->
  exists group author lang rest,
    paths = "build" :: lang :: author :: group :: rest /\ id = author +:+ "." +:+ lang.
Proof.
  intros (Hlen & H0 & author & lang & H2 & H1 & ->).
  destruct paths as [|p0 [|p1 [|p2 [|p3 rest]]]]; simpl in Hlen; try lia.
  simpl in H0, H1, H2. injection H0 as ->. injection H1 as ->. injection H2 as ->.
  exists p3, author, lang, rest. auto.
Qed.

(** X15: where the build runs and what the manifest says.  On a system
    whose separator is the slash, when the checks have passed the working
    directory ends in [group/author/language/build], the identifier is the
    author folder, a dot and the language folder, and [group/author/language]
    is the source path that the merge gives to a manifest without one. *)
Theorem source_path_is_under_cwd (E : Env) (ms : LexicalModelSource) (w : World)
    (id : string) (info : ModelInfoFile) (paths texts : list string) :
  path_sep E = "/"%char ->
  prepare E ms w = (Value (id, info, paths, texts), w) ->
  exists group author lang,
    id = author +:+ "." +:+ lang /\
    joined_path paths = group +:+ "/" +:+ author +:+ "/" +:+ lang /\
    ends_with (cwd w) (group +:+ "/" +:+ author +:+ "/" +:+ lang +:+ "/" +:+ "build").
Proof.
  intros Hsep Hp.
  apply prepare_value in Hp as (_ & f & _ & _ & _ & _ & Hpaths & Hfit & _).
  apply path_mismatch_spec, path_fits_folders in Hfit
    as (group & author & lang & rest & Heq & Hid).
  exists group, author, lang. split; [exact Hid|].
  split; [rewrite Heq; reflexivity|].
  rewrite Hsep in Hpaths.
  assert (Hsplit : split "/" (cwd w) = (rev rest ++ [group; author; lang; "build"])%list).
  { rewrite <- (rev_involutive (split "/" (cwd w))), <- Hpaths, Heq. simpl.
    rewrite <- !app_assoc. reflexivity. }
  rewrite <- (join_split "/" (cwd w)), Hsplit.
  apply (join_app_ends "/" (rev rest) [group; author; lang; "build"]). discriminate.
Qed.

Lemma source_path_is_under_cwd_witness :
  let E := Demo.env Demo.blank_info in
  let w := Demo.world Demo.listing ∅ in
  (path_sep E = "/"%char /\
   prepare E Demo.trie_source w =
   (Value ("demo.en.sample", Demo.blank_info, Rerun.folders, ["hello"]), w)) /\
  exists group author lang,
    "demo.en.sample" = author +:+ "." +:+ lang /\
    joined_path Rerun.folders = group +:+ "/" +:+ author +:+ "/" +:+ lang /\
    ends_with (cwd w) (group +:+ "/" +:+ author +:+ "/" +:+ lang +:+ "/" +:+ "build").
Proof.
  assert (H : prepare (Demo.env Demo.blank_info) Demo.trie_source
                (Demo.world Demo.listing ∅) =
              (Value ("demo.en.sample", Demo.blank_info, Rerun.folders, ["hello"]),
               Demo.world Demo.listing ∅)) by (vm_compute; reflexivity).
  split; [split; [reflexivity | exact H]|].
  exact (source_path_is_under_cwd (Demo.env Demo.blank_info) Demo.trie_source
           (Demo.world Demo.listing ∅) _ _ _ _ eq_refl H).
Defined.

(** ** What a build leaves on the disk *)

Lemma same_file_refl name (w : World) : same_file name w w.
Proof. reflexivity. Qed.

Lemma same_file_trans name (a b c : World) :
  same_file name a b -> same_file name b c -> same_file name a c.
Proof. unfold same_file. congruence. Qed.

Lemma same_disk_same_file name (w w' : World) : same_disk w w' -> same_file name w w'.
Proof. intros [H _]. unfold same_file. now rewrite H. Qed.

Lemma keeps_file_writeFileSync E name path text :
  path <> name -> keeps (same_file name) (writeFileSync E path text).
Proof. intros H w. unfold same_file. simpl. now rewrite lookup_insert_ne. Qed.

Lemma keeps_file_buildKmpFile E name data path :
  path <> name -> keeps (same_file name) (buildKmpFile E data path).
Proof. intros H w. unfold same_file. simpl. now rewrite lookup_insert_ne. Qed.

Lemma keeps_file_Date name : keeps (same_file name) Date_toISOString.
Proof. intros w. reflexivity. Qed.

(** After the script, [publish] writes under the names of the package and of
    the manifest only. *)
Lemma keeps_file_after_script E id info paths name :
  id +:+ ".model.kmp" <> name -> id +:+ ".model_info" <> name ->
  keeps (same_file name)
    (bind (buildPackage E id ("../source/" +:+ id +:+ ".model.kps") (id +:+ ".model.kmp"))
       (fun kmpJsonData =>
          bind (mergeModelInfo id (id +:+ ".model.kmp") (id +:+ ".model.js")
                  kmpJsonData paths info)
            (fun model_info =>
               writeFileSync E (id +:+ ".model_info") (JSON_stringify E model_info)))).
Proof.
  intros Hkmp Hinfo. unfold buildPackage, mergeModelInfo.
  repeat first
    [ apply keeps_file_writeFileSync; assumption
    | apply keeps_file_buildKmpFile; assumption
    | apply keeps_file_Date
    | progress (frame (same_file_refl name) (same_file_trans name)) ].
Qed.

(** Once written, the script stays as it is to the end of [publish]. *)
Lemma publish_keeps_script E id info paths func (w : World) :
  files (snd (publish E id info paths func w)) !! (id +:+ ".model.js") =
  Some (utf8_encode E func).
Proof.
  unfold publish.
  rewrite (bind_step _ _ _ _ _
             (eq_refl : writeFileSync E (id +:+ ".model.js") func w = (Value tt, _))).
  rewrite (keeps_file_after_script E id info paths (id +:+ ".model.js")).
  - simpl. apply lookup_insert_eq.
  - apply model_js_is_not_model_kmp.
  - intros H. apply append_inv_head in H. discriminate.
Qed.

(** ** The writing calls of a build *)

(** A build makes no writing call, or it has a well-formed identifier that
    names an info file of the parent folder and writes the script of that
    identifier, then possibly its package, then possibly its manifest. *)
Lemma compile_writes E ms (w : World) :
  written (snd (compile E ms w)) = written w \/
  exists id script rest,
    id_shape id /\ In (id +:+ ".model_info") (parent_dir w) /\
    written (snd (compile E ms w)) =
      (written w ++ WroteText (id +:+ ".model.js") script :: rest)%list /\
    (rest = [] \/
     (exists kmp, rest = [WroteArchive (id +:+ ".model.kmp") kmp]) \/
     (exists kmp mi,
        rest = [WroteArchive (id +:+ ".model.kmp") kmp;
                WroteText (id +:+ ".model_info") (JSON_stringify E mi)])).
Proof.
  pose proof (keeps_prepare E ms w) as Hk.
  destruct (prepare E ms w) as [[[[[id info] paths] texts]| |e] w1] eqn:Hp; simpl in Hk.
  2:{ left. unfold compile. rewrite (bind_false _ _ _ _ Hp). simpl.
      apply (logs_only_same_disk _ _ Hk). }
  2:{ left. unfold compile. rewrite (bind_thrown _ _ _ _ _ Hp). simpl.
      apply (logs_only_same_disk _ _ Hk). }
  pose proof Hp as Hv.
  apply prepare_value in Hv as (-> & f & Hfind & Hstem & Hm & _).
  pose proof (keeps_emit E ms id texts w) as [_ Hw].
  unfold compile. rewrite (bind_step _ _ _ _ _ Hp).
  destruct (emit E ms id texts w) as [[script| |e] w0] eqn:He; simpl in Hw.
  2:{ left. rewrite (bind_false _ _ _ _ He). exact Hw. }
  2:{ left. rewrite (bind_thrown _ _ _ _ _ He). exact Hw. }
  right. rewrite (bind_step _ _ _ _ _ He).
  destruct (publish_written E id info paths script w0) as (rest & Hrest & Hshape).
  exists id, script, rest.
  split; [now apply MODEL_ID_PATTERN_shape|]. split.
  { apply model_info_stem_spec in Hstem as (-> & _).
    pose proof (find_first is_model_info (parent_dir w)) as Hff.
    rewrite Hfind in Hff. destruct Hff as (before & after & -> & _).
    apply in_or_app. right. left. reflexivity. }
  split; [now rewrite Hrest, Hw | exact Hshape].
Qed.

Lemma name_char_not_separator (c : ascii) : name_char c = true -> not_separator c = true.
Proof.
  intros H. unfold not_separator.
  destruct (Ascii.eqb_spec c "/") as [->|_]; [discriminate|].
  destruct (Ascii.eqb_spec c (ascii_of_nat 92)) as [->|_]; [discriminate|]. reflexivity.
Qed.

Lemma is_segment_name_chars (s : string) : is_segment s -> all_chars name_char s = true.
Proof.
  assert (Hpart : forall c, id_part c = true -> name_char c = true)
    by (intros c H; unfold name_char; now rewrite H).
  intros (c & t & -> & Hc & Ht). simpl.
  rewrite (Hpart c (id_start_is_id_part c Hc)).
  exact (all_chars_impl _ _ t Hpart Ht).
Qed.

Lemma id_shape_name_chars (id : string) : id_shape id -> all_chars name_char id = true.
Proof.
  intros (a & b & c & -> & Ha & Hb & Hc).
  rewrite !all_chars_app.
  rewrite (is_segment_name_chars a Ha), (is_segment_name_chars b Hb),
    (is_segment_name_chars c Hc).
  reflexivity.
Qed.

(** The name of an output: the identifier and an extension. *)
Lemma output_name_is_plain (id ext : string) :
  id_shape id -> all_chars name_char ext = true ->
  plain_name (id +:+ ext) /\ all_chars not_separator (id +:+ ext) = true.
Proof.
  intros Hid Hext.
  assert (Hall : all_chars name_char (id +:+ ext) = true)
    by (now rewrite all_chars_app, (id_shape_name_chars id Hid), Hext).
  split; [|exact (all_chars_impl _ _ _ name_char_not_separator Hall)].
  destruct (id_shape_head id Hid) as (c & t & -> & Hc).
  rewrite append_cons in Hall |- *. simpl in Hall.
  apply andb_true_iff in Hall as [_ Hall]. exists c, (t +:+ ext). auto.
Qed.

(** X16: the writing calls of a build, whatever its outcome, are at most
    three, in this order: the script [{id}.model.js], the package
    [{id}.model.kmp] and the manifest [{id}.model_info], for an identifier that
    has the shape and names an info file of the parent folder.  A build that
    stops early has made the first, or the first two, or none; it makes no
    writing call under any other path. *)
Theorem writes_are_the_three_outputs (E : Env) (ms : LexicalModelSource) (w : World) :
  let new := writes_of w (snd (compile E ms w)) in
  written (snd (compile E ms w)) = (written w ++ new)%list /\
  (new = [] \/
   exists id script,
     id_shape id /\ In (id +:+ ".model_info") (parent_dir w) /\
     (new = [WroteText (id +:+ ".model.js") script] \/
      (exists kmp,
         new = [WroteText (id +:+ ".model.js") script;
                WroteArchive (id +:+ ".model.kmp") kmp]) \/
      (exists kmp mi,
         new = [WroteText (id +:+ ".model.js") script;
                WroteArchive (id +:+ ".model.kmp") kmp;
                WroteText (id +:+ ".model_info") (JSON_stringify E mi)]))).
Proof.
  unfold writes_of.
  destruct (compile_writes E ms w) as [-> | (id & script & rest & Hid & Hin & -> & Hrest)].
  - rewrite drop_all, app_nil_r. split; [reflexivity | now left].
  - rewrite drop_app_length. split; [reflexivity | right].
    exists id, script. split; [exact Hid|]. split; [exact Hin|].
    destruct Hrest as [-> | [[kmp ->] | (kmp & mi & ->)]]; eauto.
Qed.

(** X17: every writing call of a build is given a plain file name: made
    of lowercase letters, digits, underscores and dots, starting with a letter
    or an underscore.  The name has no slash and no backslash and does not
    start with a dot, so the call asks for a file of the working directory
    itself, never for a path into another folder. *)
Theorem writes_are_given_plain_names (E : Env) (ms : LexicalModelSource) (w : World) :
  Forall (fun e => plain_name (written_name e) /\
                   all_chars not_separator (written_name e) = true)
    (writes_of w (snd (compile E ms w))).
Proof.
  unfold writes_of.
  destruct (compile_writes E ms w) as [-> | (id & script & rest & Hid & Hin & -> & Hrest)].
  - rewrite drop_all. constructor.
  - rewrite drop_app_length.
    pose proof (output_name_is_plain id ".model.js" Hid eq_refl) as Hjs.
    pose proof (output_name_is_plain id ".model.kmp" Hid eq_refl) as Hkmp.
    pose proof (output_name_is_plain id ".model_info" Hid eq_refl) as Hinfo.
    destruct Hrest as [-> | [[kmp ->] | (kmp & mi & ->)]];
      repeat (apply List.Forall_cons; [assumption|]); apply List.Forall_nil.
Qed.

(** X18: no rollback.  Once the script is emitted, it is on the disk
    when [compile] ends, with the text emitted, whether the package and the
    manifest could be built or not. *)
Theorem the_script_stays (E : Env) (ms : LexicalModelSource) (w w0 : World)
    (id : string) (info : ModelInfoFile) (paths texts : list string) (script : string) :
  prepare E ms w = (Value (id, info, paths, texts), w) ->
  emit E ms id texts w = (Value script, w0) ->
  files (snd (compile E ms w)) !! (id +:+ ".model.js") = Some (utf8_encode E script).
Proof.
  intros Hp He. unfold compile.
  rewrite (bind_step _ _ _ _ _ Hp), (bind_step _ _ _ _ _ He).
  apply publish_keeps_script.
Qed.

Lemma the_script_stays_witness :
  let E := Demo.env Demo.blank_info in
  let w := More.world_without_kps in
  (prepare E Demo.trie_source w =
     (Value ("demo.en.sample", Demo.blank_info, Rerun.folders, ["hello"]), w) /\
   emit E Demo.trie_source "demo.en.sample" ["hello"] w = (Value More.trie_script, w)) /\
  files (snd (compile E Demo.trie_source w)) !! ("demo.en.sample" +:+ ".model.js") =
  Some (utf8_encode E More.trie_script).
Proof.
  assert (H1 : prepare (Demo.env Demo.blank_info) Demo.trie_source More.world_without_kps =
               (Value ("demo.en.sample", Demo.blank_info, Rerun.folders, ["hello"]),
                More.world_without_kps)) by (vm_compute; reflexivity).
  assert (H2 : emit (Demo.env Demo.blank_info) Demo.trie_source "demo.en.sample" ["hello"]
                 More.world_without_kps = (Value More.trie_script, More.world_without_kps))
    by (vm_compute; reflexivity).
  split; [auto|].
  exact (the_script_stays (Demo.env Demo.blank_info) Demo.trie_source
           More.world_without_kps _ _ _ _ _ _ H1 H2).
Defined.

(** X19: the package comes after the script.  When the project
    descriptor [../source/{identifier}.model.kps] cannot be read, [compile]
    raises [ENOENT] with its path, and when the package compiler refuses its
    text, the error of the package compiler; in both cases the script has been
    written, and neither a package nor a manifest. *)
Theorem package_failure_leaves_the_script (E : Env) (ms : LexicalModelSource)
    (w w0 : World) (id : string) (info : ModelInfoFile) (paths texts : list string)
    (script : string) :
  prepare E ms w = (Value (id, info, paths, texts), w) ->
  emit E ms id texts w = (Value script, w0) ->
  let after_script := snd (writeFileSync E (id +:+ ".model.js") script w0) in
  written after_script = (written w ++ [WroteText (id +:+ ".model.js") script])%list /\
  match files w !! ("../source/" +:+ id +:+ ".model.kps") with
  | None =>
      compile E ms w =
      (Thrown (ENOENT ("../source/" +:+ id +:+ ".model.kps")), after_script)
  | Some bytes =>
      transformKpsToKmpObject E id (utf8_decode E bytes) = None ->
      compile E ms w = (Thrown CollaboratorError, after_script)
  end.
Proof.
  intros Hp He after_script.
  pose proof (keeps_emit E ms id texts w) as [Hfiles Hwritten].
  rewrite He in Hfiles, Hwritten. simpl in Hfiles, Hwritten.
  split; [subst after_script; simpl; now rewrite Hwritten|].
  pose proof Hp as Hv. apply prepare_value in Hv as (_ & f & _ & _ & Hm & _).
  apply MODEL_ID_PATTERN_shape in Hm.
  assert (Hkps : files after_script !! ("../source/" +:+ id +:+ ".model.kps") =
                 files w !! ("../source/" +:+ id +:+ ".model.kps")).
  { subst after_script. simpl. rewrite lookup_insert_ne, Hfiles; [reflexivity|].
    apply (outputs_do_not_start_with_a_dot id ".model.js" _ Hm). }
  assert (Hstep : forall o,
            buildPackage E id ("../source/" +:+ id +:+ ".model.kps") (id +:+ ".model.kmp")
              after_script = (Thrown o, after_script) ->
            compile E ms w = (Thrown o, after_script)).
  { intros o Hb. unfold compile.
    rewrite (bind_step _ _ _ _ _ Hp), (bind_step _ _ _ _ _ He). unfold publish.
    rewrite (bind_step _ _ _ _ _
               (eq_refl : writeFileSync E (id +:+ ".model.js") script w0 = (Value tt, _))).
    now apply bind_thrown. }
  destruct (files w !! ("../source/" +:+ id +:+ ".model.kps")) as [bytes|] eqn:Hfile.
  - intros Hnone. apply Hstep.
    unfold buildPackage, bind, readFileSync, lift. rewrite Hkps. simpl.
    now rewrite Hnone.
  - apply Hstep. unfold buildPackage, bind, readFileSync. now rewrite Hkps.
Qed.

Lemma package_failure_leaves_the_script_witness :
  let E := Demo.env Demo.blank_info in
  let w := More.world_without_kps in
  let after_script :=
    snd (writeFileSync E ("demo.en.sample" +:+ ".model.js") More.trie_script w) in
  (prepare E Demo.trie_source w =
     (Value ("demo.en.sample", Demo.blank_info, Rerun.folders, ["hello"]), w) /\
   emit E Demo.trie_source "demo.en.sample" ["hello"] w = (Value More.trie_script, w)) /\
  written after_script =
    (written w ++ [WroteText ("demo.en.sample" +:+ ".model.js") More.trie_script])%list /\
  match files w !! ("../source/" +:+ "demo.en.sample" +:+ ".model.kps") with
  | None =>
      compile E Demo.trie_source w =
      (Thrown (ENOENT ("../source/" +:+ "demo.en.sample" +:+ ".model.kps")), after_script)
  | Some bytes =>
      transformKpsToKmpObject E "demo.en.sample" (utf8_decode E bytes) = None ->
      compile E Demo.trie_source w = (Thrown CollaboratorError, after_script)
  end.
Proof.
  assert (H1 : prepare (Demo.env Demo.blank_info) Demo.trie_source More.world_without_kps =
               (Value ("demo.en.sample", Demo.blank_info, Rerun.folders, ["hello"]),
                More.world_without_kps)) by (vm_compute; reflexivity).
  assert (H2 : emit (Demo.env Demo.blank_info) Demo.trie_source "demo.en.sample" ["hello"]
                 More.world_without_kps = (Value More.trie_script, More.world_without_kps))
    by (vm_compute; reflexivity).
  split; [auto|].
  exact (package_failure_leaves_the_script (Demo.env Demo.blank_info) Demo.trie_source
           More.world_without_kps _ _ _ _ _ _ H1 H2).
Defined.

Example a_missing_project_descriptor :
  fst (compile (Demo.env Demo.blank_info) Demo.trie_source More.world_without_kps) =
  Thrown (ENOENT "../source/demo.en.sample.model.kps").
Proof. vm_compute. reflexivity. Qed.

(** ** What a build does to the description *)

(** X20: the one thing a build can change in the objects it is given is
    the list of sources of the description's word breaker.  Every object of the
    heap is after [compile] what it was before, except that the word-breaking
    object of the description, when it had a list of sources, may have lost it;
    its root class and the rest of its configuration stay. *)
Theorem only_the_sources_are_deleted (E : Env) (ms : LexicalModelSource) (w : World)
    (l : loc) :
  heap (snd (compile E ms w)) !! l = heap w !! l \/
  (wordBreaking ms = Some l /\
   exists o o',
     heap w !! l = Some o /\ is_Some (wb_sources o) /\
     heap (snd (compile E ms w)) !! l = Some o' /\
     wb_sources o' = None /\
     wb_rootClass o' = wb_rootClass o /\ wb_config o' = wb_config o).
Proof.
  destruct (compile_heap E ms w) as [-> | (l0 & o & names & Hwb & Hl & Hs & ->)];
    [now left|].
  destruct (decide (l0 = l)) as [->|Hne].
  - right. split; [exact Hwb|]. exists o, (without_sources o).
    rewrite lookup_insert_eq, Hs. repeat split; eauto.
  - left. now rewrite lookup_insert_ne.
Qed.

(** X21: a description without a word breaker, or with a word breaker
    that lists no sources, is after the build what it was before. *)
Theorem description_is_kept_without_sources (E : Env) (ms : LexicalModelSource)
    (w : World) :
  (forall l o, wordBreaking ms = Some l -> heap w !! l = Some o -> wb_sources o = None) ->
  describe (heap (snd (compile E ms w))) ms = describe (heap w) ms.
Proof. apply compile_keeps_description. Qed.

Lemma description_is_kept_without_sources_witness :
  let E := Demo.env Demo.blank_info in
  let ms := {| format := "custom-1.0"; sources := ["model.ts"];
               rootClass := Some "Demo"; wordBreaking := Some 0%nat |} in
  let w := Demo.world Demo.listing More.configured_heap in
  (forall l o, wordBreaking ms = Some l -> heap w !! l = Some o -> wb_sources o = None) /\
  describe (heap (snd (compile E ms w))) ms = describe (heap w) ms.
Proof.
  assert (H : forall l o,
            wordBreaking {| format := "custom-1.0"; sources := ["model.ts"];
                            rootClass := Some "Demo"; wordBreaking := Some 0%nat |} = Some l ->
            heap (Demo.world Demo.listing More.configured_heap) !! l = Some o ->
            wb_sources o = None).
  { intros l o [= <-] Ho. vm_compute in Ho. injection Ho as <-. reflexivity. }
  split; [exact H|].
  exact (description_is_kept_without_sources (Demo.env Demo.blank_info) _
           (Demo.world Demo.listing More.configured_heap) H).
Defined.

(** The build of the witness registers the default word breaker with the
    configuration of the description. *)
Example default_breaker_of_the_demo :
  written (snd (compile (Demo.env Demo.blank_info)
                  {| format := "custom-1.0"; sources := ["model.ts"];
                     rootClass := Some "Demo"; wordBreaking := Some 0%nat |}
                  (Demo.world Demo.listing More.configured_heap))) !! 0%nat =
  Some (WroteText "demo.en.sample.model.js"
          (filePrefix +:+ "com.keyman.lexicalModel.register();" +:+ nl +:+
           "class Demo {}" +:+ "LMLayerWorker.loadModel(new Demo());" +:+ nl +:+
           default_breaker "{allowedCharacters}" +:+ fileSuffix)).
Proof. vm_compute. reflexivity. Qed.

(** ** A build that goes through *)

Lemma find_some_in {A} (p : A -> bool) (l : list A) (x : A) :
  List.find p l = Some x -> In x l.
Proof.
  intros H. pose proof (find_first p l) as Hf. rewrite H in Hf.
  destruct Hf as (before & after & -> & _). apply in_or_app. right. now left.
Qed.

(** X22: a successful build has written three files and no more, in
    this order: the script, the package and the manifest, under the names
    [{identifier}.model.js], [{identifier}.model.kmp] and
    [{identifier}.model_info]; the identifier has the shape, fits the folders
    of the working directory and names an info file of the parent folder; and
    the three files are on the disk with what was written. *)
Theorem three_files_of_a_build (E : Env) (ms : LexicalModelSource) (w w' : World) :
  compile E ms w = (Value tt, w') ->
  exists id script kmp manifest,
    id_shape id /\
    In (id +:+ ".model_info") (parent_dir w) /\
    path_fits (rev (split (path_sep E) (cwd w))) id /\
    written w' =
      (written w ++
       [WroteText (id +:+ ".model.js") script;
        WroteArchive (id +:+ ".model.kmp") kmp;
        WroteText (id +:+ ".model_info") manifest])%list /\
    files w' !! (id +:+ ".model.js") = Some (utf8_encode E script) /\
    files w' !! (id +:+ ".model.kmp") = Some (kmp_archive E kmp) /\
    files w' !! (id +:+ ".model_info") = Some (utf8_encode E manifest).
Proof.
  intros H.
  apply compile_value in H as (id & info & paths & texts & script & w0 & Hp & He & H).
  pose proof (keeps_emit E ms id texts w) as [Hfiles Hwritten].
  rewrite He in Hfiles, Hwritten. simpl in Hfiles, Hwritten.
  apply prepare_value in Hp as (_ & f & Hfind & Hstem & Hm & _ & -> & Hfit & _).
  apply publish_value in H as (kmp & psize & jsize & _ & _ & Hw & Hf).
  simpl in Hw, Hf. rewrite Hwritten in Hw.
  exists id, script, kmp. eexists.
  split; [now apply MODEL_ID_PATTERN_shape|].
  split.
  { apply find_some_in in Hfind. apply model_info_stem_spec in Hstem as (-> & _).
    exact Hfind. }
  split; [now apply path_mismatch_spec|].
  split; [exact Hw|].
  rewrite Hf.
  assert (Hinfo_js : id +:+ ".model_info" <> id +:+ ".model.js")
    by (intros Heq; apply append_inv_head in Heq; discriminate).
  assert (Hinfo_kmp : id +:+ ".model_info" <> id +:+ ".model.kmp")
    by (intros Heq; apply append_inv_head in Heq; discriminate).
  split; [|split].
  - rewrite lookup_insert_ne by exact Hinfo_js.
    rewrite lookup_insert_ne by apply model_js_is_not_model_kmp.
    apply lookup_insert_eq.
  - rewrite lookup_insert_ne by exact Hinfo_kmp. apply lookup_insert_eq.
  - apply lookup_insert_eq.
Qed.

Lemma three_files_of_a_build_witness :
  let E := Demo.env Demo.blank_info in
  let w := Demo.world Demo.listing ∅ in
  let w' := snd (compile E Demo.trie_source w) in
  compile E Demo.trie_source w = (Value tt, w') /\
  exists id script kmp manifest,
    id_shape id /\
    In (id +:+ ".model_info") (parent_dir w) /\
    path_fits (rev (split (path_sep E) (cwd w))) id /\
    written w' =
      (written w ++
       [WroteText (id +:+ ".model.js") script;
        WroteArchive (id +:+ ".model.kmp") kmp;
        WroteText (id +:+ ".model_info") manifest])%list /\
    files w' !! (id +:+ ".model.js") = Some (utf8_encode E script) /\
    files w' !! (id +:+ ".model.kmp") = Some (kmp_archive E kmp) /\
    files w' !! (id +:+ ".model_info") = Some (utf8_encode E manifest).
Proof.
  assert (H : compile (Demo.env Demo.blank_info) Demo.trie_source
                (Demo.world Demo.listing ∅) =
              (Value tt,
               snd (compile (Demo.env Demo.blank_info) Demo.trie_source
                      (Demo.world Demo.listing ∅))))
    by (vm_compute; reflexivity).
  split; [exact H|].
  exact (three_files_of_a_build (Demo.env Demo.blank_info) Demo.trie_source
           (Demo.world Demo.listing ∅) _ H).
Defined.

(** X23: a file name in the author's manifest that is not on the disk
    stops the build after the package.  When the package that the manifest
    names is not there once the script and the package of this build are
    written, [compile] raises [ENOENT] with that name; the script and the
    package have been written, the manifest has not. *)
Theorem stale_package_name_raises (E : Env) (ms : LexicalModelSource) (w w0 : World)
    (id : string) (info : ModelInfoFile) (paths texts : list string)
    (script bytes : string) (kmp : KmpJsonFile) :
  prepare E ms w = (Value (id, info, paths, texts), w) ->
  emit E ms id texts w = (Value script, w0) ->
  files w !! ("../source/" +:+ id +:+ ".model.kps") = Some bytes ->
  transformKpsToKmpObject E id (utf8_decode E bytes) = Some kmp ->
  let package := or_string (mi_packageFilename info) (id +:+ ".model.kmp") in
  let after_package :=
    snd (buildKmpFile E kmp (id +:+ ".model.kmp")
           (snd (writeFileSync E (id +:+ ".model.js") script w0))) in
  files after_package !! package = None ->
  compile E ms w = (Thrown (ENOENT package), after_package) /\
  written after_package =
    (written w ++
     [WroteText (id +:+ ".model.js") script; WroteArchive (id +:+ ".model.kmp") kmp])%list.
Proof.
  intros Hp He Hkps Hkmp package after_package Hnone.
  pose proof (keeps_emit E ms id texts w) as [Hfiles Hwritten].
  rewrite He in Hfiles, Hwritten. simpl in Hfiles, Hwritten.
  split.
  2:{ subst after_package. simpl. rewrite Hwritten, <- app_assoc. reflexivity. }
  pose proof Hp as Hv. apply prepare_value in Hv as (_ & f & _ & _ & Hm & _).
  apply MODEL_ID_PATTERN_shape in Hm.
  unfold compile. rewrite (bind_step _ _ _ _ _ Hp), (bind_step _ _ _ _ _ He).
  unfold publish.
  rewrite (bind_step _ _ _ _ _
             (eq_refl : writeFileSync E (id +:+ ".model.js") script w0 = (Value tt, _))).
  assert (Hbuild : buildPackage E id ("../source/" +:+ id +:+ ".model.kps")
                     (id +:+ ".model.kmp")
                     (snd (writeFileSync E (id +:+ ".model.js") script w0)) =
                   (Value kmp, after_package)).
  { assert (Hkps0 : files w0 !! ("../source/" +:+ id +:+ ".model.kps") = Some bytes)
      by (rewrite Hfiles; exact Hkps).
    unfold buildPackage, bind, readFileSync, lift. simpl.
    rewrite lookup_insert_ne, Hkps0 by
      apply (outputs_do_not_start_with_a_dot id ".model.js" _ Hm).
    simpl. rewrite Hkmp. reflexivity. }
  rewrite (bind_step _ _ _ _ _ Hbuild).
  apply bind_thrown. unfold mergeModelInfo.
  rewrite (bind_step _ _ _ _ _
             (eq_refl : Date_toISOString after_package = (Value (now after_package), _))).
  apply bind_thrown. unfold statSync_size. fold package. now rewrite Hnone.
Qed.

Lemma stale_package_name_raises_witness :
  let E := Demo.env Cases.info_with_package in
  let w := Demo.world Demo.listing ∅ in
  let package := or_string (mi_packageFilename Cases.info_with_package)
                   ("demo.en.sample" +:+ ".model.kmp") in
  let after_package :=
    snd (buildKmpFile E Demo.package ("demo.en.sample" +:+ ".model.kmp")
           (snd (writeFileSync E ("demo.en.sample" +:+ ".model.js") More.trie_script w))) in
  (prepare E Demo.trie_source w =
     (Value ("demo.en.sample", Cases.info_with_package, Rerun.folders, ["hello"]), w) /\
   emit E Demo.trie_source "demo.en.sample" ["hello"] w = (Value More.trie_script, w) /\
   files w !! ("../source/" +:+ "demo.en.sample" +:+ ".model.kps") = Some "<Package/>" /\
   transformKpsToKmpObject E "demo.en.sample" (utf8_decode E "<Package/>") =
     Some Demo.package /\
   files after_package !! package = None) /\
  compile E Demo.trie_source w = (Thrown (ENOENT package), after_package) /\
  written after_package =
    (written w ++
     [WroteText ("demo.en.sample" +:+ ".model.js") More.trie_script;
      WroteArchive ("demo.en.sample" +:+ ".model.kmp") Demo.package])%list.
Proof.
  assert (H1 : prepare (Demo.env Cases.info_with_package) Demo.trie_source
                 (Demo.world Demo.listing ∅) =
               (Value ("demo.en.sample", Cases.info_with_package, Rerun.folders, ["hello"]),
                Demo.world Demo.listing ∅)) by (vm_compute; reflexivity).
  assert (H2 : emit (Demo.env Cases.info_with_package) Demo.trie_source "demo.en.sample"
                 ["hello"] (Demo.world Demo.listing ∅) =
               (Value More.trie_script, Demo.world Demo.listing ∅))
    by (vm_compute; reflexivity).
  assert (H3 : files (Demo.world Demo.listing ∅) !!
                 ("../source/" +:+ "demo.en.sample" +:+ ".model.kps") = Some "<Package/>")
    by (vm_compute; reflexivity).
  assert (H4 : transformKpsToKmpObject (Demo.env Cases.info_with_package) "demo.en.sample"
                 (utf8_decode (Demo.env Cases.info_with_package) "<Package/>") =
               Some Demo.package) by reflexivity.
  assert (H5 : files (snd (buildKmpFile (Demo.env Cases.info_with_package) Demo.package
                             ("demo.en.sample" +:+ ".model.kmp")
                             (snd (writeFileSync (Demo.env Cases.info_with_package)
                                     ("demo.en.sample" +:+ ".model.js") More.trie_script
                                     (Demo.world Demo.listing ∅))))) !!
                 or_string (mi_packageFilename Cases.info_with_package)
                   ("demo.en.sample" +:+ ".model.kmp") = None)
    by (vm_compute; reflexivity).
  split; [auto 6|].
  exact (stale_package_name_raises (Demo.env Cases.info_with_package) Demo.trie_source
           (Demo.world Demo.listing ∅) _ _ _ _ _ _ _ _ H1 H2 H3 H4 H5).
Defined.
